(** * util-mpm-pfac.c: the PFAC multi-pattern matcher

    A shallow embedding of the pattern store, the goto-trie builder, the
    delta-table construction, the output-presence encoding and the scan
    loop of [src/util-mpm-pfac.c], followed by the properties established
    about them.

    Conventions.
    - C integers are [Z]; every conversion to a narrower type is written
      out ([u8], [u16], [u32], [i32]).
    - A byte string passed as (pointer, length) is a [list Z] of bytes whose
      length is the length argument ([patlen] is [length pat]).
    - The buffer of a scan is a pointer into memory and a length: [buf k]
      is the byte at address [buf + k], for negative [k] as well, since
      the scanner computes the address of a verification window from the
      index of its outer loop and may read below the buffer.
    - A heap array is a list; the NULL pointer of a table is the empty list,
      except for [init_hash], whose NULL test the code branches on.
    - [exit(EXIT_FAILURE)] is the outcome [Exit]; the breadth-first loop,
      whose termination is not structural, takes a fuel argument and yields
      [OutOfFuel] when it is used up (it is shown below that enough fuel
      exists for every input, and that the result is a compiled context
      when the goto table has at most 65535 states).
    - Allocation succeeds unless the size asked for is negative as an [int].
      The allocation counters [memory_cnt] and [memory_size] of [MpmCtx] are
      bookkeeping that no function reads back; they are left out. *)

From Stdlib Require Import ZArith List Lia Bool String Ascii.
From stdpp Require Import base list.

Local Open Scope Z_scope.

(** ** Machine integers *)

Definition u8 (z : Z) : Z := z mod 2 ^ 8.
Definition u16 (z : Z) : Z := z mod 2 ^ 16.
Definition u32 (z : Z) : Z := z mod 2 ^ 32.
Definition i32 (z : Z) : Z := (z + 2 ^ 31) mod 2 ^ 32 - 2 ^ 31.

(** ** Arrays indexed by C integers *)

Definition get {A} (d : A) (l : list A) (i : Z) : A :=
  default d (l !! Z.to_nat i).

Definition set {A} (l : list A) (i : Z) (x : A) : list A :=
  <[Z.to_nat i := x]> l.

Definition get2 (t : list (list Z)) (s b : Z) : Z := get 0 (get [] t s) b.

Definition set2 (t : list (list Z)) (s b v : Z) : list (list Z) :=
  set t s (set (get [] t s) b v).

(** ** Outcomes of code that may call exit() *)

Inductive result (A : Type) : Type :=
| Ok (a : A)
| Exit
| OutOfFuel.
Arguments Ok {A} a.
Arguments Exit {A}.
Arguments OutOfFuel {A}.

#[global] Instance result_ret : MRet result := fun _ a => Ok a.

#[global] Instance result_bind : MBind result := fun _ _ k r =>
  match r with
  | Ok a => k a
  | Exit => Exit
  | OutOfFuel => OutOfFuel
  end.

#[global] Instance result_fmap : FMap result := fun _ _ f r =>
  match r with
  | Ok a => Ok (f a)
  | Exit => Exit
  | OutOfFuel => OutOfFuel
  end.

Fixpoint foldM {A S} (f : S -> A -> result S) (l : list A) (s : S) : result S :=
  match l with
  | [] => Ok s
  | a :: l' => s' ← f s a; foldM f l' s'
  end.

(** ** Constants and helper macros *)

(** a placeholder to denote a failure transition in the goto table *)
Definition SC_PFAC_FAIL : Z := -1.
(** size of the hash table used to speed up pattern insertions initially *)
Definition INIT_HASH_SIZE : Z := 65536.
Definition STATE_QUEUE_CONTAINER_SIZE : Z := 65536.

(** Modelled from the spec: the flag bit MPM_PATTERN_FLAG_NOCASE of
    util-mpm.h (the spec only names it: the flag that signals
    case-insensitive matching); bit 0 of the flags byte. *)
Definition MPM_PATTERN_FLAG_NOCASE : Z := 1.

(** Modelled from the spec: the macro u8_tolower of the common headers;
    the fold is ASCII-only, bytes 0x41-0x5A go to 0x61-0x7A and every
    other byte passes through unchanged. *)
Definition u8_tolower (c : Z) : Z :=
  if (65 <=? c) && (c <=? 90) then c + 32 else c.

(** Modelled from the spec: memcpy_tolower of util-memcpy.h, the bytewise
    ASCII-lowercase image of the source bytes. *)
Definition memcpy_tolower (src : list Z) : list Z := map u8_tolower src.

(** Modelled from the spec: SCMemcmp of util-memcmp.h compares [len] bytes
    and yields 0 when they are all equal and 1 otherwise.  The second
    operand is read from memory: [mem k] is the byte at address base + k. *)
Fixpoint SCMemcmp_from (s1 : list Z) (mem : Z -> Z) (off : Z) : Z :=
  match s1 with
  | [] => 0
  | c :: s1' => if c =? mem off then SCMemcmp_from s1' mem (off + 1) else 1
  end.

Definition SCMemcmp (s1 : list Z) (mem : Z -> Z) (off : Z) (len : Z) : Z :=
  SCMemcmp_from (firstn (Z.to_nat len) s1) mem off.

(** memcmp(p->ci, pat, p->len) == 0 on two stored byte strings *)
Fixpoint bytes_eqb (a b : list Z) : bool :=
  match a, b with
  | [], [] => true
  | x :: a', y :: b' => (x =? y) && bytes_eqb a' b'
  | _, _ => false
  end.

(** ** Data model *)

Record SCPFACPattern := mkPattern {
  p_len : Z;                  (* uint16_t len *)
  p_flags : Z;                (* uint8_t flags *)
  p_original_pat : list Z;
  p_cs : list Z;              (* case sensitive *)
  p_ci : list Z;              (* case INsensitive *)
  p_id : Z                    (* uint32_t id *)
}.

(** SCPFACPatternList: the case-sensitive bytes of a pattern id; [None] is
    the NULL [cs] pointer. *)
Record SCPFACPatternList := mkPatternList {
  pl_cs : option (list Z);
  pl_patlen : Z
}.

(** The fields of MpmCtx and of the SCPFACCtx it points to.  A row of
    [output_table] is the [pids] array of that state; its length is
    [no_of_entries]. *)
Record MpmCtx := mkMpmCtx {
  pattern_cnt : Z;
  minlen : Z;
  maxlen : Z;
  init_hash : option (list (list SCPFACPattern));
  parray : list SCPFACPattern;
  state_count : Z;
  state_table_u16 : list (list Z);
  state_table_u32 : list (list Z);
  goto_table : list (list Z);
  output_table : list (list Z);
  pid_pat_list : list SCPFACPatternList;
  single_state_size : Z;
  max_pat_id : Z
}.

Definition with_goto_table (m : MpmCtx) (g : list (list Z)) : MpmCtx :=
  mkMpmCtx (pattern_cnt m) (minlen m) (maxlen m) (init_hash m) (parray m)
    (state_count m) (state_table_u16 m) (state_table_u32 m) g
    (output_table m) (pid_pat_list m) (single_state_size m) (max_pat_id m).

Definition with_output_table (m : MpmCtx) (o : list (list Z)) : MpmCtx :=
  mkMpmCtx (pattern_cnt m) (minlen m) (maxlen m) (init_hash m) (parray m)
    (state_count m) (state_table_u16 m) (state_table_u32 m) (goto_table m)
    o (pid_pat_list m) (single_state_size m) (max_pat_id m).

Definition with_state_table_u16 (m : MpmCtx) (t : list (list Z)) : MpmCtx :=
  mkMpmCtx (pattern_cnt m) (minlen m) (maxlen m) (init_hash m) (parray m)
    (state_count m) t (state_table_u32 m) (goto_table m)
    (output_table m) (pid_pat_list m) (single_state_size m) (max_pat_id m).

Definition with_state_table_u32 (m : MpmCtx) (t : list (list Z)) : MpmCtx :=
  mkMpmCtx (pattern_cnt m) (minlen m) (maxlen m) (init_hash m) (parray m)
    (state_count m) (state_table_u16 m) t (goto_table m)
    (output_table m) (pid_pat_list m) (single_state_size m) (max_pat_id m).

(** ** Pattern store *)

(** SCPFACInitCtx: memset to zero, then the insertion hash is allocated. *)
Definition SCPFACInitCtx : MpmCtx :=
  mkMpmCtx 0 0 0
    (Some (replicate (Z.to_nat INIT_HASH_SIZE) []))
    [] 0 [] [] [] [] [] 0 0.

Definition SCPFACInitHashRaw (pat : list Z) (patlen : Z) : Z :=
  let hash := u32 (patlen * get 0 pat 0) in
  let hash := if 1 <? patlen then u32 (hash + get 0 pat 1) else hash in
  hash mod INIT_HASH_SIZE.

Definition SCPFACInitHashLookup (m : MpmCtx) (pat : list Z) (patlen : Z)
    (flags : Z) (pid : Z) : option SCPFACPattern :=
  let hash := SCPFACInitHashRaw pat patlen in
  match init_hash m with
  | None => None
  | Some h => List.find (fun t => p_id t =? pid) (get [] h hash)
  end.

Definition SCPFACInitHash (p : SCPFACPattern) : Z :=
  let hash := u32 (p_len p * get 0 (p_original_pat p) 0) in
  let hash :=
    if 1 <? p_len p then u32 (hash + get 0 (p_original_pat p) 1) else hash in
  hash mod INIT_HASH_SIZE.

(** The chain of a bucket is the list of its nodes; the new node goes to the
    tail. *)
Definition SCPFACInitHashAdd (h : option (list (list SCPFACPattern)))
    (p : SCPFACPattern) : option (list (list SCPFACPattern)) :=
  let hash := SCPFACInitHash p in
  match h with
  | None => None
  | Some h => Some (set h hash (get [] h hash ++ [p]))
  end.

Inductive LogEvent : Type :=
| LogWarning (msg : string).

Record AddResult := mkAddResult {
  add_ret : Z;
  add_ctx : MpmCtx;
  add_log : list LogEvent
}.

(** SCPFACAddPattern.  The arguments offset, depth and sid are not read. *)
Definition SCPFACAddPattern (m : MpmCtx) (pat : list Z) (pid : Z)
    (flags : Z) : AddResult :=
  let patlen := Z.of_nat (length pat) in
  if patlen =? 0 then
    mkAddResult 0 m [LogWarning "pattern length 0"]
  else
    match SCPFACInitHashLookup m pat patlen flags pid with
    | Some _ => mkAddResult 0 m []
    | None =>
        let ci := memcpy_tolower pat in
        let cs :=
          if negb (Z.land flags MPM_PATTERN_FLAG_NOCASE =? 0) then ci
          else if bytes_eqb ci pat then ci else pat in
        let p := mkPattern patlen flags pat cs ci pid in
        mkAddResult 0
          (mkMpmCtx
             (u32 (pattern_cnt m + 1))
             (if minlen m =? 0 then patlen
              else if patlen <? minlen m then patlen else minlen m)
             (if maxlen m <? patlen then patlen else maxlen m)
             (SCPFACInitHashAdd (init_hash m) p)
             (parray m) (state_count m) (state_table_u16 m)
             (state_table_u32 m) (goto_table m) (output_table m)
             (pid_pat_list m) (single_state_size m)
             (if max_pat_id m <? pid then pid else max_pat_id m))
          []
    end.

(** SCPFACAddPatternCI and SCPFACAddPatternCS *)
Definition SCPFACAddPatternCI (m : MpmCtx) (pat : list Z) (pid : Z)
    (flags : Z) : AddResult :=
  SCPFACAddPattern m pat pid (u8 (Z.lor flags MPM_PATTERN_FLAG_NOCASE)).

Definition SCPFACAddPatternCS (m : MpmCtx) (pat : list Z) (pid : Z)
    (flags : Z) : AddResult :=
  SCPFACAddPattern m pat pid flags.

(** ** Goto builder *)

(** The patterns visited by a loop [for (i = 0; i < pattern_cnt; i++)] over
    [parray]. *)
Definition patterns (m : MpmCtx) : list SCPFACPattern :=
  firstn (Z.to_nat (pattern_cnt m)) (parray m).

(** SCPFACInitNewState.  The byte size of the grown goto table is computed in
    an [int]; once (state_count + 1) * single_state_size reaches 2^31 the
    value is negative, SCRealloc is asked for more than the address space
    and returns NULL, and the function exits.  The new row of the goto table
    (index [state_count]) is filled with FAIL and the new output row is
    zeroed. *)
Definition SCPFACInitNewState (m : MpmCtx) : result (Z * MpmCtx) :=
  let size := i32 ((state_count m + 1) * single_state_size m) in
  if size <? 0 then Exit
  else
    Ok (i32 (state_count m),
        mkMpmCtx (pattern_cnt m) (minlen m) (maxlen m) (init_hash m)
          (parray m) (u32 (state_count m + 1)) (state_table_u16 m)
          (state_table_u32 m)
          (goto_table m ++ [replicate 256 SC_PFAC_FAIL])
          (output_table m ++ [[]])
          (pid_pat_list m) (single_state_size m) (max_pat_id m)).

(** SCPFACSetOutputState *)
Definition SCPFACSetOutputState (state : Z) (pid : Z) (m : MpmCtx) : MpmCtx :=
  let output_state := get [] (output_table m) state in
  if existsb (fun x => x =? pid) output_state then m
  else with_output_table m (set (output_table m) state (output_state ++ [pid])).

(** SCPFACEnter, first loop: walk down the trie while the pattern prefix has
    transitions; yields the state reached and the bytes not consumed. *)
Fixpoint enter_walk (g : list (list Z)) (state : Z) (pattern : list Z)
    : Z * list Z :=
  match pattern with
  | [] => (state, [])
  | c :: rest =>
      if negb (get2 g state c =? SC_PFAC_FAIL)
      then enter_walk g (get2 g state c) rest
      else (state, pattern)
  end.

(** SCPFACEnter, second loop: one new state per remaining byte. *)
Fixpoint enter_extend (m : MpmCtx) (state : Z) (suffix : list Z)
    : result (Z * MpmCtx) :=
  match suffix with
  | [] => Ok (state, m)
  | c :: rest =>
      '(newstate, m1) ← SCPFACInitNewState m;
      enter_extend (with_goto_table m1 (set2 (goto_table m1) state c newstate))
        newstate rest
  end.

Definition SCPFACEnter (pattern : list Z) (pattern_len : Z) (pid : Z)
    (m : MpmCtx) : result MpmCtx :=
  let '(state, rest) :=
    enter_walk (goto_table m) 0 (firstn (Z.to_nat pattern_len) pattern) in
  '(state, m1) ← enter_extend m state rest;
  Ok (SCPFACSetOutputState state pid m1).

(** The loop that turns the FAIL cells of row 0 into transitions to state 0,
    over the byte values [codes]. *)
Definition root_fail_to_zero_on (codes : list Z) (g : list (list Z))
    : list (list Z) :=
  fold_left
    (fun g ascii_code =>
       if get2 g 0 ascii_code =? SC_PFAC_FAIL then set2 g 0 ascii_code 0 else g)
    codes g.

Definition root_fail_to_zero (g : list (list Z)) : list (list Z) :=
  root_fail_to_zero_on (seqZ 0 256) g.

Definition SCPFACCreateGotoTable (m : MpmCtx) : result MpmCtx :=
  m1 ← foldM (fun m p => SCPFACEnter (p_ci p) (p_len p) (p_id p) m)
         (patterns m) m;
  Ok (with_goto_table m1 (root_fail_to_zero (goto_table m1))).

Definition SCPFACDetermineLevel1Gap (m : MpmCtx) : result MpmCtx :=
  let map :=
    fold_left (fun map p => set map (get 0 (p_ci p) 0) 1)
      (patterns m) (replicate 256 0) in
  foldM
    (fun m u =>
       if get 0 map u =? 0 then Ok m
       else
         '(newstate, m1) ← SCPFACInitNewState m;
         Ok (with_goto_table m1 (set2 (goto_table m1) 0 u newstate)))
    (seqZ 0 256) m.

(** ** Union of output rows *)

(** The body of the outer loop of SCPFACClubOutputStates for one pid of the
    source row: the pid is appended to the destination row unless the inner
    loop finds it there. *)
Definition club_output_pid (dst : list Z) (pid : Z) : list Z :=
  if existsb (fun x => pid =? x) dst then dst else dst ++ [pid].

(** SCPFACClubOutputStates:
    dst_state_data = {dst_state_data} UNION {src_state_data}.  Its only
    caller is SCPFACCreateFailureTable, which SCPFACPrepareStateTable does
    not call. *)
Definition SCPFACClubOutputStates (dst_state src_state : Z) (m : MpmCtx)
    : MpmCtx :=
  with_output_table m
    (set (output_table m) dst_state
       (fold_left club_output_pid (get [] (output_table m) src_state)
          (get [] (output_table m) dst_state))).

(** ** The state queue *)

Record StateQueue := mkQueue {
  q_store : list Z;       (* int32_t store[STATE_QUEUE_CONTAINER_SIZE] *)
  q_top : Z;
  q_bot : Z
}.

Definition StateQueue_zero : StateQueue :=
  mkQueue (replicate (Z.to_nat STATE_QUEUE_CONTAINER_SIZE) 0) 0 0.

Definition SCPFACStateQueueIsEmpty (q : StateQueue) : bool :=
  q_top q =? q_bot q.

Definition SCPFACEnqueue (q : StateQueue) (state : Z) : result StateQueue :=
  if existsb (fun i => get 0 (q_store q) i =? state)
       (seqZ (q_bot q) (q_top q - q_bot q))
  then Ok q
  else
    let store := set (q_store q) (q_top q) state in
    let top := q_top q + 1 in
    let top := if top =? STATE_QUEUE_CONTAINER_SIZE then 0 else top in
    if top =? q_bot q then Exit
    else Ok (mkQueue store top (q_bot q)).

Definition SCPFACDequeue (q : StateQueue) : result (Z * StateQueue) :=
  let bot := if q_bot q =? STATE_QUEUE_CONTAINER_SIZE then 0 else q_bot q in
  if bot =? q_top q then Exit
  else Ok (get 0 (q_store q) bot, mkQueue (q_store q) (q_top q) (bot + 1)).

(** ** Delta table *)

(** The while loop body of SCPFACCreateDeltaTable for one byte of the
    dequeued state: a goto transition is copied, a FAIL cell is left as the
    memset wrote it (the assignment from the failure state is commented out
    in the source). [cast] is the conversion to the cell type. *)
Definition delta_cell_step (cast : Z -> Z) (g : list (list Z)) (r_state : Z)
    (qt : StateQueue * list (list Z)) (ascii_code : Z)
    : result (StateQueue * list (list Z)) :=
  let temp_state := get2 g r_state ascii_code in
  if negb (temp_state =? SC_PFAC_FAIL) then
    q ← SCPFACEnqueue qt.1 temp_state;
    Ok (q, set2 qt.2 r_state ascii_code (cast temp_state))
  else Ok qt.

Fixpoint delta_bfs (fuel : nat) (cast : Z -> Z) (g : list (list Z))
    (q : StateQueue) (t : list (list Z)) : result (list (list Z)) :=
  match fuel with
  | O => OutOfFuel
  | S fuel' =>
      if SCPFACStateQueueIsEmpty q then Ok t
      else
        '(r_state, q1) ← SCPFACDequeue q;
        '(q2, t2) ← foldM (delta_cell_step cast g r_state) (seqZ 0 256) (q1, t);
        delta_bfs fuel' cast g q2 t2
  end.

(** The first loop: row 0 is copied and its non-zero destinations queued. *)
Definition delta_root_step (cast : Z -> Z) (g : list (list Z))
    (qt : StateQueue * list (list Z)) (ascii_code : Z)
    : result (StateQueue * list (list Z)) :=
  let temp_state := cast (get2 g 0 ascii_code) in
  let t := set2 qt.2 0 ascii_code temp_state in
  if negb (temp_state =? 0) then
    q ← SCPFACEnqueue qt.1 (i32 temp_state);
    Ok (q, t)
  else Ok (qt.1, t).

Definition build_state_table (fuel : nat) (cast : Z -> Z) (m : MpmCtx)
    : result (list (list Z)) :=
  let t0 := replicate (Z.to_nat (state_count m)) (replicate 256 0) in
  '(q, t) ← foldM (delta_root_step cast (goto_table m)) (seqZ 0 256)
              (StateQueue_zero, t0);
  delta_bfs fuel cast (goto_table m) q t.

(** SCPFACCreateDeltaTable; [both] is the file-level switch
    construct_both_16_and_32_state_tables. *)
Definition SCPFACCreateDeltaTable (fuel : nat) (both : bool) (m : MpmCtx)
    : result MpmCtx :=
  m1 ← (if (state_count m <? 32767) || both then
          t ← build_state_table fuel u16 m;
          Ok (with_state_table_u16 m t)
        else Ok m);
  if negb (state_count m <? 32767) || both then
    t ← build_state_table fuel u32 m1;
    Ok (with_state_table_u32 m1 t)
  else Ok m1.

(** ** Output presence and case-sensitive entries *)

Definition club_cell (cast : Z -> Z) (mask bit : Z) (o : list (list Z))
    (state : Z) (t : list (list Z)) (ascii_code : Z) : list (list Z) :=
  let temp_state := get2 t (Z.land state mask) ascii_code in
  if negb (Z.of_nat (length (get [] o (Z.land temp_state mask))) =? 0) then
    set2 t (Z.land state mask) ascii_code
      (cast (Z.lor (get2 t (Z.land state mask) ascii_code) bit))
  else t.

(** The inner loop, over the 256 byte values of one state. *)
Definition club_row (cast : Z -> Z) (mask bit : Z) (o : list (list Z))
    (t : list (list Z)) (state : Z) : list (list Z) :=
  fold_left (club_cell cast mask bit o state) (seqZ 0 256) t.

(** The outer loop, over the states below [count]. *)
Definition club_table (cast : Z -> Z) (mask bit : Z) (o : list (list Z))
    (count : Z) (t : list (list Z)) : list (list Z) :=
  fold_left (club_row cast mask bit o) (seqZ 0 count) t.

Definition SCPFACClubOutputStatePresenceWithDeltaTable (both : bool)
    (m : MpmCtx) : MpmCtx :=
  let m1 :=
    if (state_count m <? 32767) || both then
      with_state_table_u16 m
        (club_table u16 0x7FFF (Z.shiftl 1 15) (output_table m)
           (state_count m) (state_table_u16 m))
    else m in
  if negb (state_count m <? 32767) || both then
    with_state_table_u32 m1
      (club_table u32 0x00FFFFFF (Z.shiftl 1 24) (output_table m1)
         (state_count m1) (state_table_u32 m1))
  else m1.

Definition PatternList_zero : SCPFACPatternList := mkPatternList None 0.

Definition stamp_case_sensitive (l : list SCPFACPatternList) (pid : Z) : Z :=
  match pl_cs (get PatternList_zero l pid) with
  | Some _ => u32 (Z.lor (Z.land pid 0x0000FFFF) (Z.shiftl 1 16))
  | None => pid
  end.

Definition SCPFACInsertCaseSensitiveEntriesForPatterns (m : MpmCtx) : MpmCtx :=
  let n := Z.to_nat (state_count m) in
  with_output_table m
    (map (map (stamp_case_sensitive (pid_pat_list m)))
       (firstn n (output_table m))
     ++ skipn n (output_table m)).

(** ** Compilation *)

(** The construction of the goto table and of the output table: the first
    three steps of SCPFACPrepareStateTable. *)
Definition SCPFACBuildGoto (m : MpmCtx) : result MpmCtx :=
  '(_, m0) ← SCPFACInitNewState m;
  m1 ← SCPFACDetermineLevel1Gap m0;
  SCPFACCreateGotoTable m1.

(** The remaining steps, up to the release of the goto table.  The call of
    SCPFACCreateFailureTable is commented out in the source. *)
Definition SCPFACFinishStateTable (fuel : nat) (both : bool) (m : MpmCtx)
    : result MpmCtx :=
  m3 ← SCPFACCreateDeltaTable fuel both m;
  let m4 := SCPFACClubOutputStatePresenceWithDeltaTable both m3 in
  let m5 := SCPFACInsertCaseSensitiveEntriesForPatterns m4 in
  Ok (with_goto_table m5 []).

Definition SCPFACPrepareStateTable (fuel : nat) (both : bool) (m : MpmCtx)
    : result MpmCtx :=
  m2 ← SCPFACBuildGoto m;
  SCPFACFinishStateTable fuel both m2.

Definition fill_pid_pat_list (ps : list SCPFACPattern)
    (l : list SCPFACPatternList) : list SCPFACPatternList :=
  fold_left
    (fun l p =>
       if Z.land (p_flags p) MPM_PATTERN_FLAG_NOCASE =? 0 then
         set l (p_id p) (mkPatternList (Some (p_original_pat p)) (p_len p))
       else l)
    ps l.

(** The context as SCPFACPreparePatterns hands it to SCPFACPrepareStateTable:
    the pattern array is filled from the hash buckets, the hash is released,
    and the case-sensitive index is filled. *)
Definition SCPFACPreparePatterns_setup (m : MpmCtx)
    (h : list (list SCPFACPattern)) : MpmCtx :=
  let pa := concat (firstn (Z.to_nat INIT_HASH_SIZE) h) in
  let ps := firstn (Z.to_nat (pattern_cnt m)) pa in
  mkMpmCtx (pattern_cnt m) (minlen m) (maxlen m) None pa
    (state_count m) (state_table_u16 m) (state_table_u32 m)
    (goto_table m) (output_table m)
    (fill_pid_pat_list ps
       (replicate (Z.to_nat (max_pat_id m + 1)) PatternList_zero))
    (4 * 256) (max_pat_id m).

(** SCPFACPreparePatterns: the return value and the context. *)
Definition SCPFACPreparePatterns (fuel : nat) (both : bool) (m : MpmCtx)
    : result (Z * MpmCtx) :=
  match init_hash m with
  | None => Ok (0, m)
  | Some h =>
      if pattern_cnt m =? 0 then Ok (0, m)
      else
        m1 ← SCPFACPrepareStateTable fuel both (SCPFACPreparePatterns_setup m h);
        Ok (0, mkMpmCtx (pattern_cnt m1) (minlen m1) (maxlen m1) (init_hash m1)
                 [] (state_count m1) (state_table_u16 m1) (state_table_u32 m1)
                 (goto_table m1) (output_table m1) (pid_pat_list m1)
                 (single_state_size m1) (max_pat_id m1))
  end.

(** The context at the point of SCPFACPreparePatterns where the goto table
    is complete and SCPFACCreateDeltaTable has not run yet (the goto table
    is released before the function returns). *)
Definition SCPFACPreparePatterns_goto (m : MpmCtx) : result MpmCtx :=
  match init_hash m with
  | None => Ok m
  | Some h =>
      if pattern_cnt m =? 0 then Ok m
      else SCPFACBuildGoto (SCPFACPreparePatterns_setup m h)
  end.

(** ** Scanner *)

(** PatternMatcherQueue, the sink.  [pattern_id_array] holds the entries
    written so far, in order; [pattern_id_array_cnt] is their number.  The
    caller sizes both arrays. *)
Record PatternMatcherQueue := mkPmq {
  pattern_id_array : list Z;
  pattern_id_bitarray : list Z      (* uint8_t bytes *)
}.

Definition pattern_id_array_cnt (pmq : PatternMatcherQueue) : Z :=
  Z.of_nat (length (pattern_id_array pmq)).

(** pmq->pattern_id_bitarray[pid / 8] & (1 << (pid % 8)) *)
Definition pmq_bit_is_set (pmq : PatternMatcherQueue) (pid : Z) : bool :=
  negb (Z.land (get 0 (pattern_id_bitarray pmq) (pid / 8))
          (Z.shiftl 1 (pid mod 8)) =? 0).

(** The if/else that records a pid: nothing when its bit is set, otherwise
    the bit is set and the pid is appended. *)
Definition pmq_record (pmq : PatternMatcherQueue) (pid : Z)
    : PatternMatcherQueue :=
  if pmq_bit_is_set pmq pid then pmq
  else
    mkPmq (pattern_id_array pmq ++ [pid])
      (set (pattern_id_bitarray pmq) (pid / 8)
         (u8 (Z.lor (get 0 (pattern_id_bitarray pmq) (pid / 8))
                (Z.shiftl 1 (pid mod 8))))).

Definition cs_bytes (e : SCPFACPatternList) : list Z := default [] (pl_cs e).

(** The loop over the pids of a match state, 16-bit branch.  [buf] is the
    memory seen from the buffer pointer: [buf k] is the byte at [buf + k];
    [i] is the index of the outer loop. *)
Fixpoint emit_pids_u16 (pl : list SCPFACPatternList) (buf : Z -> Z) (i : Z)
    (pids : list Z) (pmq : PatternMatcherQueue) : PatternMatcherQueue :=
  match pids with
  | [] => pmq
  | pid :: rest =>
      if negb (Z.land pid 0xFFFF0000 =? 0) then
        let e := get PatternList_zero pl (Z.land pid 0x0000FFFF) in
        if negb (SCMemcmp (cs_bytes e) buf (i - pl_patlen e + 1) (pl_patlen e)
                 =? 0)
        then pmq                                              (* break *)
        else emit_pids_u16 pl buf i rest
               (pmq_record pmq (Z.land pid 0x0000FFFF))
      else emit_pids_u16 pl buf i rest (pmq_record pmq pid)
  end.

(** The same loop in the 32-bit branch, which counts inside the loop. *)
Fixpoint emit_pids_u32 (pl : list SCPFACPatternList) (buf : Z -> Z) (i : Z)
    (pids : list Z) (acc : Z * PatternMatcherQueue)
    : Z * PatternMatcherQueue :=
  match pids with
  | [] => acc
  | pid :: rest =>
      if negb (Z.land pid 0xFFFF0000 =? 0) then
        let e := get PatternList_zero pl (Z.land pid 0x0000FFFF) in
        if negb (SCMemcmp (cs_bytes e) buf (i - pl_patlen e + 1) (pl_patlen e)
                 =? 0)
        then acc                                              (* break *)
        else emit_pids_u32 pl buf i rest
               (acc.1 + 1, pmq_record acc.2 (Z.land pid 0x0000FFFF))
      else emit_pids_u32 pl buf i rest (acc.1 + 1, pmq_record acc.2 pid)
  end.

(** The variables the two loops of SCPFACSearch update. *)
Record SearchState := mkSearch {
  s_state : Z;
  s_matches : Z;
  s_pmq : PatternMatcherQueue
}.

(** for (j = i; j < buflen; j++), 16-bit branch; [n] is buflen - j. *)
Fixpoint search_inner_u16 (m : MpmCtx) (buf : Z -> Z) (i : Z) (n : nat)
    (j : Z) (st : SearchState) : SearchState :=
  match n with
  | O => st
  | S n' =>
      let state :=
        get2 (state_table_u16 m) (Z.land (s_state st) 0x7FFF)
          (u8_tolower (buf j)) in
      if state =? 0 then mkSearch state (s_matches st) (s_pmq st)   (* break *)
      else if negb (Z.land state 0x8000 =? 0) then
        let pids := get [] (output_table m) (Z.land state 0x7FFF) in
        search_inner_u16 m buf i n' (j + 1)
          (mkSearch state (s_matches st + 1)
             (emit_pids_u16 (pid_pat_list m) buf i pids (s_pmq st)))
      else
        search_inner_u16 m buf i n' (j + 1)
          (mkSearch state (s_matches st) (s_pmq st))
  end.

(** for (i = 0; i < buflen; i++); [n] is buflen - i.  [state] is declared
    outside both loops and is not reset between two values of [i]. *)
Fixpoint search_outer_u16 (m : MpmCtx) (buf : Z -> Z) (buflen : Z) (n : nat)
    (i : Z) (st : SearchState) : SearchState :=
  match n with
  | O => st
  | S n' =>
      search_outer_u16 m buf buflen n' (i + 1)
        (search_inner_u16 m buf i (Z.to_nat (buflen - i)) i st)
  end.

(** The 32-bit branch: the byte read is buf[i] for every [j], there is no
    test for state 0, and the match test is state & 0xFF000000. *)
Fixpoint search_inner_u32 (m : MpmCtx) (buf : Z -> Z) (i : Z) (n : nat)
    (st : SearchState) : SearchState :=
  match n with
  | O => st
  | S n' =>
      let state :=
        get2 (state_table_u32 m) (Z.land (s_state st) 0x00FFFFFF)
          (u8_tolower (buf i)) in
      if negb (Z.land state 0xFF000000 =? 0) then
        let pids := get [] (output_table m) (Z.land state 0x00FFFFFF) in
        let r := emit_pids_u32 (pid_pat_list m) buf i pids
                   (s_matches st, s_pmq st) in
        search_inner_u32 m buf i n' (mkSearch state r.1 r.2)
      else
        search_inner_u32 m buf i n' (mkSearch state (s_matches st) (s_pmq st))
  end.

Fixpoint search_outer_u32 (m : MpmCtx) (buf : Z -> Z) (buflen : Z) (n : nat)
    (i : Z) (st : SearchState) : SearchState :=
  match n with
  | O => st
  | S n' =>
      search_outer_u32 m buf buflen n' (i + 1)
        (search_inner_u32 m buf i (Z.to_nat (buflen - i)) st)
  end.

(** SCPFACSearch: the returned count and the sink. *)
Definition SCPFACSearch (m : MpmCtx) (pmq : PatternMatcherQueue)
    (buf : Z -> Z) (buflen : Z) : Z * PatternMatcherQueue :=
  let st :=
    if state_count m <? 32767 then
      search_outer_u16 m buf buflen (Z.to_nat buflen) 0 (mkSearch 0 0 pmq)
    else
      search_outer_u32 m buf buflen (Z.to_nat buflen) 0 (mkSearch 0 0 pmq) in
  (u32 (s_matches st), s_pmq st).

(** ** Drivers used by the examples *)

Fixpoint bytes_of (s : string) : list Z :=
  match s with
  | EmptyString => []
  | String a s' => Z.of_N (N_of_ascii a) :: bytes_of s'
  end.

(** A registration request: the bytes, the pattern id and the flags. *)
Definition Registration : Type := list Z * Z * Z.

Definition register (m : MpmCtx) (r : Registration) : MpmCtx :=
  add_ctx (SCPFACAddPattern m r.1.1 r.1.2 r.2).

Definition register_all (rs : list Registration) (m : MpmCtx) : MpmCtx :=
  fold_left register rs m.

Definition CS (s : string) (pid : Z) : Registration := (bytes_of s, pid, 0).
Definition CI (s : string) (pid : Z) : Registration :=
  (bytes_of s, pid, MPM_PATTERN_FLAG_NOCASE).

(** The context compiled from a list of registrations, with the single
    table width the scanner selects. *)
Definition compile (fuel : nat) (rs : list Registration) : result MpmCtx :=
  r ← SCPFACPreparePatterns fuel false (register_all rs SCPFACInitCtx);
  Ok r.2.

(** A buffer of bytes laid out at offset 0 of a zeroed memory. *)
Definition buffer_at_0 (l : list Z) : Z -> Z :=
  fun k => if k <? 0 then 0 else get 0 l k.

(** A sink with no pid recorded and a bit array of [n] bytes. *)
Definition pmq_empty (n : nat) : PatternMatcherQueue :=
  mkPmq [] (replicate n 0).

Definition search_string (c : result MpmCtx) (s : string)
    : result (Z * list Z) :=
  m ← c;
  let r := SCPFACSearch m (pmq_empty 16) (buffer_at_0 (bytes_of s))
             (Z.of_nat (length (bytes_of s))) in
  Ok (r.1, pattern_id_array r.2).

(** * Vocabulary of the properties *)

(** ** Tables *)

(** The cell of a table at natural-number indices; [get2] reads it at the
    indices a C integer converts to. *)
Definition cell (t : list (list Z)) (s b : nat) : Z :=
  default 0 (default [] (t !! s) !! b).

Definition rect (t : list (list Z)) : Prop :=
  Forall (fun row => length row = 256%nat) t.

(** ** The goto table under construction *)

(** What every step of the builder keeps true: the two tables have one row
    per state, fewer than 2^21 states exist (more make SCPFACInitNewState
    exit), and a goto cell is FAIL or a state created after the state of
    its row. *)
Record goto_wf (m : MpmCtx) : Prop := mk_goto_wf {
  wf_size : single_state_size m = 1024;
  wf_count : 0 <= state_count m < 2 ^ 21;
  wf_goto_len : length (goto_table m) = Z.to_nat (state_count m);
  wf_out_len : length (output_table m) = Z.to_nat (state_count m);
  wf_rect : rect (goto_table m);
  wf_cells : forall s b,
    (s < length (goto_table m))%nat -> (b < 256)%nat ->
    cell (goto_table m) s b = SC_PFAC_FAIL \/
    Z.of_nat s < cell (goto_table m) s b < state_count m
}.

(** The part of the context the goto builder leaves alone. *)
Definition same_frame (m m' : MpmCtx) : Prop :=
  state_table_u16 m' = state_table_u16 m /\
  state_table_u32 m' = state_table_u32 m /\
  pid_pat_list m' = pid_pat_list m /\
  parray m' = parray m /\ pattern_cnt m' = pattern_cnt m.

(** The invariant of the builder once state 0 exists. *)
Definition building (m0 m : MpmCtx) : Prop :=
  goto_wf m /\ 1 <= state_count m /\ same_frame m0 m.

(** The goto table as SCPFACCreateGotoTable leaves it: every cell is FAIL or
    a state, the transitions of a state other than 0 lead to states created
    after it, and row 0 has no FAIL cell. *)
Record goto_final (m : MpmCtx) : Prop := mk_goto_final {
  gf_count : 1 <= state_count m < 2 ^ 21;
  gf_goto_len : length (goto_table m) = Z.to_nat (state_count m);
  gf_out_len : length (output_table m) = Z.to_nat (state_count m);
  gf_rect : rect (goto_table m);
  gf_cells : forall s b,
    (s < length (goto_table m))%nat -> (b < 256)%nat ->
    cell (goto_table m) s b = SC_PFAC_FAIL \/
    0 <= cell (goto_table m) s b < state_count m;
  gf_inner : forall s b,
    (0 < s < length (goto_table m))%nat -> (b < 256)%nat ->
    cell (goto_table m) s b = SC_PFAC_FAIL \/
    Z.of_nat s < cell (goto_table m) s b < state_count m;
  gf_root : forall b,
    (b < 256)%nat -> cell (goto_table m) 0 b <> SC_PFAC_FAIL
}.

(** A context that no state table has been built for yet, as
    SCPFACPreparePatterns passes it on. *)
Definition fresh_tables (m : MpmCtx) : Prop :=
  state_count m = 0 /\ goto_table m = [] /\ output_table m = [] /\
  single_state_size m = 1024.

(** ** The delta table *)

(** What the breadth-first loops keep true of the table they fill: a cell
    is still the zero the memset wrote, or it is the goto transition of the
    same state and byte, converted to the cell type. *)
Definition delta_inv (cast : Z -> Z) (g t : list (list Z)) : Prop :=
  length t = length g /\ rect t /\
  forall s b, (s < length t)%nat -> (b < 256)%nat ->
    cell t s b = 0 \/
    (cell g s b <> SC_PFAC_FAIL /\ cell t s b = cast (cell g s b)).

(** ** Output presence *)

(** The value SCPFACClubOutputStatePresenceWithDeltaTable leaves in a cell
    that held [c]. *)
Definition club_value (cast : Z -> Z) (mask bit : Z) (o : list (list Z))
    (c : Z) : Z :=
  if negb (Z.of_nat (length (get [] o (Z.land c mask))) =? 0)
  then cast (Z.lor c bit) else c.

(** ** The compiled tables *)

(** The table SCPFACSearch reads, with the masks of its cell layout. *)
Definition narrow (m : MpmCtx) : bool := state_count m <? 32767.

Definition scanner_table (m : MpmCtx) : list (list Z) :=
  if narrow m then state_table_u16 m else state_table_u32 m.

Definition state_mask (m : MpmCtx) : Z :=
  if narrow m then 0x7FFF else 0x00FFFFFF.

Definition output_bit (m : MpmCtx) : Z :=
  if narrow m then 0x8000 else 0x01000000.

Definition cell_cast (m : MpmCtx) : Z -> Z := if narrow m then u16 else u32.

Definition cell_flag (m : MpmCtx) : Z :=
  if narrow m then Z.shiftl 1 15 else Z.shiftl 1 24.

(** ** Registration leaves the tables alone *)

Definition tables_untouched (m : MpmCtx) : Prop :=
  state_count m = 0 /\ goto_table m = [] /\ output_table m = [] /\
  state_table_u16 m = [] /\ state_table_u32 m = [].

(** ** State 0 has no output *)

Definition is_bytes (l : list Z) : Prop := Forall (fun c => 0 <= c < 256) l.

(** A stored pattern as SCPFACAddPattern makes it from a non-empty string of
    bytes. *)
Definition pat_ok (p : SCPFACPattern) : Prop :=
  1 <= p_len p /\ p_ci p <> [] /\ is_bytes (p_ci p).

Definition row0_empty (m : MpmCtx) : Prop := get [] (output_table m) 0 = [].

(** ** The pattern store *)

Definition hash_ok (h : list (list SCPFACPattern)) : Prop :=
  Forall (Forall pat_ok) h.

Definition store_ok (m : MpmCtx) : Prop :=
  exists h, init_hash m = Some h /\ hash_ok h.

(** ** Duplicate registrations *)

(** The bucket of the insertion hash a pattern goes to. *)
Definition bucket_of (pat : list Z) : Z :=
  SCPFACInitHashRaw pat (Z.of_nat (length pat)).

Definition bucket (m : MpmCtx) (i : Z) : list SCPFACPattern :=
  match init_hash m with
  | Some h => get [] h i
  | None => []
  end.

(** Every registration made so far with a non-empty pattern has a node with
    its id in the bucket of its bytes. *)
Definition registered (m : MpmCtx) (rs : list Registration) : Prop :=
  (exists h, init_hash m = Some h /\
             length h = Z.to_nat INIT_HASH_SIZE) /\
  forall pat pid flags, (pat, pid, flags) ∈ rs -> pat <> [] ->
    exists p, p ∈ bucket m (bucket_of pat) /\ p_id p = pid.

(** ** The sink *)

(** The id a stored pid is recorded under: its low 16 bits when any of the
    high 16 bits is set, the pid itself otherwise. *)
Definition recorded_id (pid : Z) : Z :=
  if negb (Z.land pid 0xFFFF0000 =? 0) then Z.land pid 0x0000FFFF else pid.

(** The list and the bit array of a sink agree and the list has no
    repetition; a sink just set up, with no pid and all bits clear, is
    such a sink. *)
Definition pmq_consistent (pmq : PatternMatcherQueue) : Prop :=
  NoDup (pattern_id_array pmq) /\
  forall i, 0 <= i ->
    (pmq_bit_is_set pmq i = true <-> i ∈ pattern_id_array pmq).

(** The bit array of the sink has a bit for every id the context can
    record (the caller sizes the sink from the largest pattern id). *)
Definition pmq_covers (m : MpmCtx) (pmq : PatternMatcherQueue) : Prop :=
  forall row pid, row ∈ output_table m -> pid ∈ row ->
    0 <= recorded_id pid /\
    recorded_id pid / 8 < Z.of_nat (length (pattern_id_bitarray pmq)).

(** The invariant of the scan loops. *)
Definition sink_inv (m : MpmCtx) (pmq : PatternMatcherQueue) : Prop :=
  pmq_consistent pmq /\ pmq_covers m pmq.

(** ** Termination of the breadth-first loops *)

(** The bounds the queue operations keep on the two indices. *)
Definition queue_ok (q : StateQueue) : Prop :=
  length (q_store q) = Z.to_nat STATE_QUEUE_CONTAINER_SIZE /\
  0 <= q_top q < STATE_QUEUE_CONTAINER_SIZE /\
  0 <= q_bot q <= STATE_QUEUE_CONTAINER_SIZE.

(** The slot SCPFACDequeue reads next, the number of states waiting in the
    ring, and these states in the order they leave it. *)
Definition q_head (q : StateQueue) : Z :=
  if q_bot q =? STATE_QUEUE_CONTAINER_SIZE then 0 else q_bot q.

Definition q_count (q : StateQueue) : Z :=
  (q_top q - q_head q) mod STATE_QUEUE_CONTAINER_SIZE.

Definition q_slot (q : StateQueue) (k : Z) : Z :=
  get 0 (q_store q) ((q_head q + k) mod STATE_QUEUE_CONTAINER_SIZE).

Definition q_pending (q : StateQueue) : list Z :=
  q_slot q <$> seqZ 0 (q_count q).

(** The measure of the loop: a state weighs more than 256 states created
    after it. *)
Definition weight (count : Z) (u : Z) : Z := 257 ^ Z.max 0 (count - u).

Fixpoint total (l : list Z) : Z :=
  match l with
  | [] => 0
  | x :: l' => x + total l'
  end.

Definition q_weight (count : Z) (q : StateQueue) : Z :=
  total (weight count <$> q_pending q).

(** The conversions to the two cell types. *)
Definition cast_ok (cast : Z -> Z) : Prop :=
  forall v, 0 <= v -> 0 <= cast v <= v.

(** A computation that ends, with a value or with exit(). *)
Definition returns {A} (r : result A) : Prop := r <> OutOfFuel.

(** A state that is waiting in the queue. *)
Definition waiting (count : Z) (u : Z) : Prop := 1 <= u < count.

(** ** Transitions have one origin *)

(** No two cells of the goto table hold the same state: a state other
    than 0 is entered from one state, on one byte. *)
Definition goto_inj (g : list (list Z)) : Prop :=
  forall s b s' b',
    (s < length g)%nat -> (b < 256)%nat ->
    (s' < length g)%nat -> (b' < 256)%nat ->
    0 < cell g s b -> cell g s b = cell g s' b' -> s = s' /\ b = b'.

(** A state that no cell of the table holds. *)
Definition unused (g : list (list Z)) (v : Z) : Prop :=
  forall s b, (s < length g)%nat -> (b < 256)%nat -> cell g s b <> v.

(** ** The queue of a context with fewer than 65536 states *)

(** The states that were written to the store, and those that have left
    the queue, while the indices have not wrapped around. *)
Definition q_seen (q : StateQueue) : list Z :=
  take (Z.to_nat (q_top q)) (q_store q).

Definition q_done (q : StateQueue) : list Z :=
  take (Z.to_nat (q_bot q)) (q_store q).

(** The queue before the first wrap: every state entered it once. *)
Definition line_ok (count : Z) (q : StateQueue) : Prop :=
  length (q_store q) = Z.to_nat STATE_QUEUE_CONTAINER_SIZE /\
  0 <= q_bot q <= q_top q /\ q_top q < STATE_QUEUE_CONTAINER_SIZE /\
  NoDup (q_seen q) /\ Forall (waiting count) (q_seen q).

(** ** The breadth-first loops do not exit *)

(** Between two iterations of the while loop: a state whose transition
    leads to a state that entered the queue has left the queue. *)
Definition bfs_ok (g : list (list Z)) (count : Z) (q : StateQueue) : Prop :=
  line_ok count q /\
  forall r b, 1 <= r < count -> 0 <= b < 256 ->
    get2 g r b ∈ q_seen q -> r ∈ q_done q.

(** Inside the loop over the bytes of the dequeued state [r], with the
    bytes [l] still to come. *)
Definition row_ok (g : list (list Z)) (count r : Z) (l : list Z)
    (qt : StateQueue * list (list Z)) : Prop :=
  NoDup l /\ Forall (fun b => 0 <= b < 256) l /\
  line_ok count qt.1 /\ r ∈ q_done qt.1 /\
  forall r' b', 1 <= r' < count -> 0 <= b' < 256 ->
    get2 g r' b' ∈ q_seen qt.1 -> r' ∈ q_done qt.1 /\ (r' = r -> b' ∉ l).

(** Inside the first loop, over the bytes [l] still to come: the states in
    the queue are destinations of state 0. *)
Definition root_ok (g : list (list Z)) (count : Z) (l : list Z)
    (qt : StateQueue * list (list Z)) : Prop :=
  Forall (fun b => 0 <= b < 256) l /\
  line_ok count qt.1 /\ q_bot qt.1 = 0 /\
  forall u, u ∈ q_seen qt.1 -> exists b, 0 <= b < 256 /\ get2 g 0 b = u.

(** The table of a context read at C integers. *)
Definition edges_ok (g : list (list Z)) (count : Z) : Prop :=
  (forall r b, 1 <= r < count -> 0 <= b < 256 ->
     get2 g r b = SC_PFAC_FAIL \/ r < get2 g r b < count) /\
  (forall b, 0 <= b < 256 -> 0 <= get2 g 0 b < count) /\
  (forall r b r' b', 0 <= r < count -> 0 <= b < 256 ->
     0 <= r' < count -> 0 <= b' < 256 ->
     0 < get2 g r b -> get2 g r b = get2 g r' b' -> r = r' /\ b = b').

(** ** The failure state of the claim *)

(** The state the trie reaches on a string of bytes read from [s]: the goto
    transitions are followed; there is none where the cell is FAIL, or 0
    (the transition of row 0 that replaced a FAIL). *)
Fixpoint trie_state (g : list (list Z)) (s : Z) (w : list Z) : option Z :=
  match w with
  | [] => Some s
  | c :: w' =>
      let n := get2 g s c in
      if (n =? SC_PFAC_FAIL) || (n =? 0) then None else trie_state g n w'
  end.

(** The state of the longest suffix of [w] that is a trie prefix. *)
Fixpoint suffix_state (g : list (list Z)) (w : list Z) : Z :=
  match trie_state g 0 w with
  | Some f => f
  | None =>
      match w with
      | [] => 0
      | _ :: w' => suffix_state g w'
      end
  end.

(** The failure state in the words of the specification: the state reached
    by the longest proper suffix of the label that is also a trie prefix. *)
Definition failure_of (g : list (list Z)) (label : list Z) : Z :=
  match label with
  | [] => 0
  | _ :: w' => suffix_state g w'
  end.

(** The claim that failure transitions are absorbed into the table. *)
Definition failure_absorbed (mg m : MpmCtx) : Prop :=
  forall label r b,
    trie_state (goto_table mg) 0 label = Some r -> 0 <= b < 256 ->
    get2 (goto_table mg) r b = SC_PFAC_FAIL ->
    get2 (scanner_table m) r b =
    get2 (scanner_table m) (failure_of (goto_table mg) label) b.

(** ** The pattern store, as a whole *)

(** The patterns the insertion hash holds, bucket after bucket: the order in
    which SCPFACPreparePatterns copies them to the pattern array. *)
Definition stored_patterns (m : MpmCtx) : list SCPFACPattern :=
  match init_hash m with
  | Some h => concat h
  | None => []
  end.

(** The insertion hash as SCPFACInitCtx allocates it. *)
Definition hash_allocated (m : MpmCtx) : Prop :=
  exists h, init_hash m = Some h /\ length h = Z.to_nat INIT_HASH_SIZE.

(** The pattern SCPFACAddPattern makes from its arguments. *)
Definition pattern_of (pat : list Z) (pid flags : Z) : SCPFACPattern :=
  let ci := memcpy_tolower pat in
  mkPattern (Z.of_nat (length pat)) flags pat
    (if negb (Z.land flags MPM_PATTERN_FLAG_NOCASE =? 0) then ci
     else if bytes_eqb ci pat then ci else pat)
    ci pid.

(** What the store keeps true of the counters of the context. *)
Record store_counts (m : MpmCtx) : Prop := mk_store_counts {
  sc_hash : hash_allocated m;
  sc_cnt : pattern_cnt m = u32 (Z.of_nat (length (stored_patterns m)));
  sc_min : 0 <= minlen m;
  sc_len : forall p, p ∈ stored_patterns m ->
    1 <= minlen m <= p_len p /\ p_len p <= maxlen m;
  sc_id : forall p, p ∈ stored_patterns m -> p_id p <= max_pat_id m;
  sc_made : forall p, p ∈ stored_patterns m ->
    exists pat, pat <> [] /\ p = pattern_of pat (p_id p) (p_flags p);
  sc_bucket : forall p, p ∈ stored_patterns m ->
    p ∈ bucket m (SCPFACInitHash p)
}.

(** ** The goto table is a trie of the patterns *)

(** The bytes of a pattern that SCPFACEnter reads. *)
Definition label (p : SCPFACPattern) : list Z :=
  firstn (Z.to_nat (p_len p)) (p_ci p).

(** A cell that holds a transition: neither FAIL nor 0. *)
Definition real (g : list (list Z)) (s b : Z) : Prop :=
  get2 g s b <> SC_PFAC_FAIL /\ get2 g s b <> 0.

(** The transitions of [g] are transitions of [g']. *)
Definition grows (g g' : list (list Z)) : Prop :=
  forall s b, real g s b -> get2 g' s b = get2 g s b.

(** What the builder keeps true of the two tables while the patterns [ps]
    have been entered: every state other than 0 is reached from state 0
    by a string of bytes, the bytes of an entered pattern lead to a state
    whose output row holds its id, an output row holds only ids of entered
    patterns that lead to its state, and holds none twice. *)
Record trie_ok (ps : list SCPFACPattern) (m : MpmCtx) : Prop := mk_trie_ok {
  to_reach : forall n, 1 <= n < state_count m ->
    exists w, is_bytes w /\ trie_state (goto_table m) 0 w = Some n;
  to_spell : forall p, p ∈ ps ->
    exists s, 0 <= s < state_count m /\
      trie_state (goto_table m) 0 (label p) = Some s /\
      p_id p ∈ get [] (output_table m) s;
  to_sound : forall s pid, 0 <= s -> pid ∈ get [] (output_table m) s ->
    exists p, p ∈ ps /\ p_id p = pid /\
      trie_state (goto_table m) 0 (label p) = Some s;
  to_nodup : forall s, NoDup (get [] (output_table m) s)
}.

(** ** The breadth-first loops copy every transition *)

(** The cell of the state table holds the goto transition of the same
    state and byte. *)
Definition copied (cast : Z -> Z) (g t : list (list Z)) (r b : Z) : Prop :=
  get2 t r b = cast (get2 g r b).

(** What is known of row 0 once it has been handled for a byte. *)
Definition root_copied (cast : Z -> Z) (g : list (list Z)) (q : StateQueue)
    (t : list (list Z)) (b : Z) : Prop :=
  copied cast g t 0 b /\ (get2 g 0 b <> 0 -> get2 g 0 b ∈ q_seen q).

(** What is known of the row of a dequeued state once it has been handled
    for a byte. *)
Definition row_copied (cast : Z -> Z) (g : list (list Z)) (q : StateQueue)
    (t : list (list Z)) (r b : Z) : Prop :=
  get2 g r b <> SC_PFAC_FAIL ->
  copied cast g t r b /\ get2 g r b ∈ q_seen q.

Definition full_root (cast : Z -> Z) (g : list (list Z)) (count : Z)
    (l : list Z) (qt : StateQueue * list (list Z)) : Prop :=
  root_ok g count l qt /\ NoDup l /\ delta_inv cast g qt.2 /\
  forall b, 0 <= b < 256 -> b ∉ l -> root_copied cast g qt.1 qt.2 b.

Definition full_row (cast : Z -> Z) (g : list (list Z)) (count r : Z)
    (l : list Z) (qt : StateQueue * list (list Z)) : Prop :=
  row_ok g count r l qt /\ delta_inv cast g qt.2 /\
  (forall b, 0 <= b < 256 -> root_copied cast g qt.1 qt.2 b) /\
  forall r' b, r' ∈ q_done qt.1 -> 0 <= b < 256 -> (r' = r -> b ∉ l) ->
    row_copied cast g qt.1 qt.2 r' b.

Definition full_bfs (cast : Z -> Z) (g : list (list Z)) (count : Z)
    (q : StateQueue) (t : list (list Z)) : Prop :=
  bfs_ok g count q /\ delta_inv cast g t /\
  (forall b, 0 <= b < 256 -> root_copied cast g q t b) /\
  forall r' b, r' ∈ q_done q -> 0 <= b < 256 -> row_copied cast g q t r' b.

(** ** The compiled table, cell by cell *)

(** The goto cell as the state table holds it. *)
Definition goto_or_zero (g : list (list Z)) (s b : Z) : Z :=
  if get2 g s b =? SC_PFAC_FAIL then 0 else get2 g s b.

(** ** The output rows of a compiled context *)

(** The registrations of a list carry ids a sink can hold. *)
Definition ids_ok (rs : list Registration) : Prop :=
  Forall (fun reg : Registration => 0 <= reg.1.2 < 65536) rs.

(** ** What a scan records *)

(** Every pid of every output row is recorded under an id in [Q]. *)
Definition rows_in (m : MpmCtx) (Q : Z -> Prop) : Prop :=
  forall row e, row ∈ output_table m -> e ∈ row -> Q (recorded_id e).

(** The ids of the registrations. *)
Definition registered_id (rs : list Registration) (x : Z) : Prop :=
  exists pat flags, (pat, x, flags) ∈ rs /\ pat <> [].

(** ** A pattern at the start of the buffer *)

(** Pattern sets in which every registration is NOCASE. *)
Definition all_nocase (rs : list Registration) : Prop :=
  Forall (fun reg : Registration =>
            Z.land reg.2 MPM_PATTERN_FLAG_NOCASE <> 0) rs.

(** ** Concrete contexts *)

Definition ctx_of (c : result MpmCtx) : MpmCtx :=
  match c with
  | Ok m => m
  | _ => SCPFACInitCtx
  end.

(** One case-insensitive pattern "a" with id 0. *)
Definition regs_a : list Registration := [CI "a" 0].
Definition goto_a : MpmCtx :=
  ctx_of (SCPFACPreparePatterns_goto (register_all regs_a SCPFACInitCtx)).
Definition ctx_a : MpmCtx := ctx_of (compile 10 regs_a).

(** Two case-insensitive patterns with the same folded bytes. *)
Definition regs_aA : list Registration := [CI "a" 0; CI "A" 1].
Definition ctx_aA : MpmCtx := ctx_of (compile 10 regs_aA).

(** One case-sensitive pattern "aA" with id 0, and the buffer "xaAa". *)
Definition regs_cs : list Registration := [CS "aA" 0].
Definition ctx_cs : MpmCtx := ctx_of (compile 10 regs_cs).
Definition buf_xaAa : Z -> Z := buffer_at_0 (bytes_of "xaAa").

(** A case-sensitive "A" and a case-insensitive "a". *)
Definition regs_A_a : list Registration := [CS "A" 0; CI "a" 1].
Definition ctx_A_a : MpmCtx := ctx_of (compile 10 regs_A_a).

(** One case-insensitive pattern "xyy" with id 0. *)
Definition regs_xyy : list Registration := [CI "xyy" 0].
Definition ctx_xyy : MpmCtx := ctx_of (compile 10 regs_xyy).

(** A decision procedure for [pmq_covers]. *)
Definition pmq_covers_b (m : MpmCtx) (pmq : PatternMatcherQueue) : bool :=
  forallb
    (forallb
       (fun pid =>
          (0 <=? recorded_id pid) &&
          (recorded_id pid / 8 <? Z.of_nat (length (pattern_id_bitarray pmq)))))
    (output_table m).

(** ** The unit tests of the file *)

Definition alphabet_jik : string := "abcdefghjiklmnopqrstuvwxyz".
Definition alphabet : string := "abcdefghijklmnopqrstuvwxyz".
Definition thirty_A : string := "AAAAAAAAAAAAAAAAAAAAAAAAAAAAAA".

Definition regs_test07 : list Registration :=
  [CS "A" 0; CS "AA" 1; CS "AAA" 2; CS "AAAAA" 3; CS "AAAAAAAAAA" 4;
   CS thirty_A 5].

Definition regs_test11 : list Registration :=
  [CS "he" 1; CS "she" 2; CS "his" 3; CS "hers" 4].

(** ** The further properties at concrete inputs *)

(** The pattern stored for the registration of [regs_a]. *)
Definition pat_a : SCPFACPattern :=
  pattern_of (bytes_of "a") 0 MPM_PATTERN_FLAG_NOCASE.


(** Two registrations of the empty string. *)
Definition regs_empty : list Registration :=
  [([], 4, 0); ([], 5, MPM_PATTERN_FLAG_NOCASE)].

(** * Properties *)

#[local] Arguments replicate : simpl never.
#[local] Arguments seqZ : simpl never.
#[local] Arguments Z.to_nat : simpl never.
#[local] Arguments Z.of_nat : simpl never.

(** Reduces the projections of a context that is given by its fields. *)
Ltac ctx_simpl :=
  cbn [pattern_cnt minlen maxlen init_hash parray state_count
       state_table_u16 state_table_u32 goto_table output_table pid_pat_list
       single_state_size max_pat_id with_goto_table with_output_table
       with_state_table_u16 with_state_table_u32] in *.

(** ** Machine integers *)

Lemma i32_small z : 0 <= z < 2 ^ 31 -> i32 z = z.
Proof. intros H. unfold i32. rewrite Z.mod_small; lia. Qed.

Lemma u32_small z : 0 <= z < 2 ^ 32 -> u32 z = z.
Proof. intros H. unfold u32. rewrite Z.mod_small; lia. Qed.

Lemma u16_small z : 0 <= z < 2 ^ 16 -> u16 z = z.
Proof. intros H. unfold u16. rewrite Z.mod_small; lia. Qed.

(** ** Tables *)

Lemma get2_cell t s b : get2 t s b = cell t (Z.to_nat s) (Z.to_nat b).
Proof. reflexivity. Qed.

Lemma length_set {A} (l : list A) i x : length (set l i x) = length l.
Proof. apply length_insert. Qed.

Lemma length_set2 t s b v : length (set2 t s b v) = length t.
Proof. apply length_insert. Qed.

Lemma rect_lookup t s row : rect t -> t !! s = Some row -> length row = 256%nat.
Proof. intros Hr Hs. exact (proj1 (Forall_lookup _ _) Hr _ _ Hs). Qed.

Lemma set2_out_of_range t s b v :
  (length t <= Z.to_nat s)%nat -> set2 t s b v = t.
Proof. intros H. unfold set2, set. by apply list_insert_ge. Qed.

Lemma rect_set2 t s b v : rect t -> rect (set2 t s b v).
Proof.
  intros Hr.
  destruct (decide (Z.to_nat s < length t)%nat) as [Hlt|Hge].
  - apply lookup_lt_is_Some_2 in Hlt as [row E].
    unfold set2, set, get. rewrite E. simpl.
    apply Forall_insert; [exact Hr|].
    rewrite length_insert. eapply rect_lookup; eauto.
  - rewrite set2_out_of_range by lia. exact Hr.
Qed.

Lemma cell_set2_eq t s b v :
  rect t -> (Z.to_nat s < length t)%nat -> (Z.to_nat b < 256)%nat ->
  cell (set2 t s b v) (Z.to_nat s) (Z.to_nat b) = v.
Proof.
  intros Hr Hs Hb.
  destruct (lookup_lt_is_Some_2 _ _ Hs) as [row E].
  unfold cell, set2, set, get. rewrite E. simpl.
  rewrite list_lookup_insert_eq by exact Hs. simpl.
  rewrite list_lookup_insert_eq; [reflexivity|].
  rewrite (rect_lookup _ _ _ Hr E). exact Hb.
Qed.

Lemma cell_set2_ne t s b v s' b' :
  s' <> Z.to_nat s \/ b' <> Z.to_nat b ->
  cell (set2 t s b v) s' b' = cell t s' b'.
Proof.
  intros Hne. unfold cell, set2, set, get.
  destruct (decide (s' = Z.to_nat s)) as [->|Hs].
  - destruct Hne as [Hne|Hne]; [done|].
    destruct (t !! Z.to_nat s) as [row|] eqn:E; simpl.
    + rewrite list_lookup_insert_eq by (eapply lookup_lt_Some; eauto). simpl.
      rewrite list_lookup_insert_ne by congruence. reflexivity.
    + rewrite list_insert_ge by (by apply lookup_ge_None). by rewrite E.
  - rewrite list_lookup_insert_ne by congruence. reflexivity.
Qed.

(** A write changes the written cell at most. *)
Lemma cell_set2_cases t s b v s' b' :
  cell (set2 t s b v) s' b' = cell t s' b' \/
  (s' = Z.to_nat s /\ b' = Z.to_nat b /\ cell (set2 t s b v) s' b' = v
   /\ (s' < length t)%nat).
Proof.
  destruct (decide (s' = Z.to_nat s)) as [->|Hs];
    [destruct (decide (b' = Z.to_nat b)) as [->|Hb]|].
  - destruct (t !! Z.to_nat s) as [row|] eqn:E.
    + destruct (decide (Z.to_nat b < length row)%nat) as [Hlt|Hge].
      * right. repeat split; [|eapply lookup_lt_Some; eauto].
        unfold cell, set2, set, get. rewrite E. simpl.
        rewrite list_lookup_insert_eq by (eapply lookup_lt_Some; eauto).
        simpl. by rewrite list_lookup_insert_eq.
      * left. unfold cell, set2, set, get. rewrite E. simpl.
        rewrite list_lookup_insert_eq by (eapply lookup_lt_Some; eauto).
        simpl. by rewrite list_insert_ge by lia.
    + left. rewrite set2_out_of_range; [done|by apply lookup_ge_None].
  - left. apply cell_set2_ne. by right.
  - left. apply cell_set2_ne. by left.
Qed.

Lemma bind_Ok {A B} (r : result A) (k : A -> result B) b :
  r ≫= k = Ok b -> exists a, r = Ok a /\ k a = Ok b.
Proof. destruct r as [a| |]; [|done..]. intros H. by exists a. Qed.

Lemma foldM_inv {A S} (P : S -> Prop) (f : S -> A -> result S) l :
  (forall s a s', P s -> a ∈ l -> f s a = Ok s' -> P s') ->
  forall s s', P s -> foldM f l s = Ok s' -> P s'.
Proof.
  induction l as [|a l IH]; intros Hstep s s' Hs Hrun; simpl in Hrun.
  - by inversion Hrun; subst.
  - destruct (f s a) as [s1| |] eqn:E; simpl in Hrun; try discriminate.
    eapply IH; [|eapply Hstep; [exact Hs| |exact E]|exact Hrun].
    + intros. eapply Hstep; eauto. by apply list_elem_of_further.
    + apply list_elem_of_here.
Qed.

Lemma fold_left_inv {A S} (P : S -> Prop) (f : S -> A -> S) l :
  (forall s a, P s -> a ∈ l -> P (f s a)) ->
  forall s, P s -> P (fold_left f l s).
Proof.
  induction l as [|a l IH]; intros Hstep s Hs; simpl; [done|].
  apply IH.
  - intros. apply Hstep; [done|by apply list_elem_of_further].
  - apply Hstep; [done|apply list_elem_of_here].
Qed.

(** ** The goto table under construction *)

Lemma i32_size_nonneg sc :
  0 <= sc < 2 ^ 21 -> (i32 ((sc + 1) * 1024) <? 0) = false -> sc + 1 < 2 ^ 21.
Proof.
  intros Hsc Hsz. apply Z.ltb_ge in Hsz.
  destruct (decide (sc + 1 < 2 ^ 21)) as [|Hge]; [done|].
  assert (sc + 1 = 2 ^ 21) as E by lia.
  rewrite E in Hsz. vm_compute in Hsz. by destruct Hsz.
Qed.

Lemma cell_app_l t row s b :
  (s < length t)%nat -> cell (t ++ [row]) s b = cell t s b.
Proof. intros H. unfold cell. by rewrite lookup_app_l. Qed.

Lemma cell_app_new t s b :
  s = length t -> (b < 256)%nat ->
  cell (t ++ [replicate 256 SC_PFAC_FAIL]) s b = SC_PFAC_FAIL.
Proof.
  intros -> Hb. unfold cell.
  rewrite lookup_app_r by lia. rewrite Nat.sub_diag. simpl.
  by rewrite lookup_replicate_2.
Qed.

Lemma SCPFACInitNewState_spec m n m' :
  goto_wf m -> SCPFACInitNewState m = Ok (n, m') ->
  n = state_count m /\ state_count m' = state_count m + 1 /\
  goto_table m' = goto_table m ++ [replicate 256 SC_PFAC_FAIL] /\
  output_table m' = output_table m ++ [[]] /\
  state_table_u16 m' = state_table_u16 m /\
  state_table_u32 m' = state_table_u32 m /\
  pid_pat_list m' = pid_pat_list m /\
  parray m' = parray m /\ pattern_cnt m' = pattern_cnt m /\
  goto_wf m'.
Proof.
  intros [Hsz Hc Hgl Hol Hr Hcells] Hrun. unfold SCPFACInitNewState in Hrun.
  rewrite Hsz in Hrun.
  destruct (i32 ((state_count m + 1) * 1024) <? 0) eqn:Esz; [discriminate|].
  apply i32_size_nonneg in Esz; [|exact Hc].
  injection Hrun as <- <-. simpl.
  rewrite i32_small by lia. rewrite u32_small by lia.
  repeat split; simpl; try done; try lia.
  - rewrite length_app, Hgl. simpl. lia.
  - rewrite length_app, Hol. simpl. lia.
  - apply Forall_app. split; [exact Hr|].
    apply Forall_singleton. apply length_replicate.
  - intros s b Hs Hb. rewrite length_app in Hs. simpl in Hs.
    destruct (decide (s < length (goto_table m))%nat) as [Hlt|Hge].
    + rewrite cell_app_l by exact Hlt.
      destruct (Hcells s b Hlt Hb) as [?|?]; [by left|right; lia].
    + left. apply cell_app_new; [lia|exact Hb].
Qed.

Lemma goto_wf_set2 m s c v :
  goto_wf m -> Z.of_nat (Z.to_nat s) < v < state_count m ->
  goto_wf (with_goto_table m (set2 (goto_table m) s c v)).
Proof.
  intros [Hsz Hc Hgl Hol Hr Hcells] Hv.
  split; simpl; try done.
  - by rewrite length_set2.
  - by apply rect_set2.
  - intros s' b' Hs' Hb'. rewrite length_set2 in Hs'.
    destruct (cell_set2_cases (goto_table m) s c v s' b')
      as [->|(-> & _ & -> & _)].
    + by apply Hcells.
    + by right.
Qed.

Lemma cell_out_of_range t s b :
  rect t -> (length t <= s)%nat \/ (256 <= b)%nat -> cell t s b = 0.
Proof.
  intros Hr Hout. unfold cell.
  destruct (t !! s) as [row|] eqn:E; simpl; [|done].
  destruct Hout as [Hs|Hb].
  - apply lookup_ge_None_2 in Hs. congruence.
  - rewrite (proj2 (lookup_ge_None row b)); [done|].
    rewrite (rect_lookup _ _ _ Hr E). exact Hb.
Qed.

(** No transition leads to state_count or beyond, whatever the indices. *)
Lemma get2_lt_count m s c :
  goto_wf m -> 1 <= state_count m ->
  get2 (goto_table m) s c < state_count m.
Proof.
  intros Hwf H1. rewrite get2_cell.
  destruct (decide (Z.to_nat s < length (goto_table m))%nat) as [Hs|Hs];
    [destruct (decide (Z.to_nat c < 256)%nat) as [Hc|Hc]|].
  - destruct (wf_cells _ Hwf _ _ Hs Hc) as [->|?]; [unfold SC_PFAC_FAIL|];
      lia.
  - rewrite cell_out_of_range; [lia|apply (wf_rect _ Hwf)|right; lia].
  - rewrite cell_out_of_range; [lia|apply (wf_rect _ Hwf)|left; lia].
Qed.

Lemma enter_walk_lt m pattern : forall state st' rest,
  goto_wf m -> 1 <= state_count m -> state < state_count m ->
  enter_walk (goto_table m) state pattern = (st', rest) ->
  st' < state_count m.
Proof.
  induction pattern as [|c pattern IH]; intros state st' rest Hwf H1 Hs Hrun;
    simpl in Hrun.
  - by injection Hrun as <- <-.
  - destruct (negb _).
    + eapply IH; [done..| |exact Hrun]. by apply get2_lt_count.
    + by injection Hrun as <- <-.
Qed.

Lemma goto_wf_with_output m o :
  goto_wf m -> length o = length (output_table m) ->
  goto_wf (with_output_table m o).
Proof.
  intros [Hsz Hc Hgl Hol Hr Hcells] Hlen.
  split; simpl; try done. by rewrite Hlen.
Qed.

Lemma SCPFACSetOutputState_wf state pid m :
  goto_wf m -> goto_wf (SCPFACSetOutputState state pid m).
Proof.
  intros Hwf. unfold SCPFACSetOutputState.
  destruct (existsb _ _); [exact Hwf|].
  apply goto_wf_with_output; [exact Hwf|]. apply length_set.
Qed.

Lemma SCPFACSetOutputState_fields state pid m :
  let m' := SCPFACSetOutputState state pid m in
  state_count m' = state_count m /\ goto_table m' = goto_table m /\
  state_table_u16 m' = state_table_u16 m /\
  state_table_u32 m' = state_table_u32 m /\
  pid_pat_list m' = pid_pat_list m /\
  parray m' = parray m /\ pattern_cnt m' = pattern_cnt m.
Proof.
  simpl. unfold SCPFACSetOutputState. by destruct (existsb _ _).
Qed.

Lemma same_frame_refl m : same_frame m m.
Proof. by repeat split. Qed.

Lemma same_frame_trans m1 m2 m3 :
  same_frame m1 m2 -> same_frame m2 m3 -> same_frame m1 m3.
Proof.
  intros (? & ? & ? & ? & ?) (? & ? & ? & ? & ?). repeat split; congruence.
Qed.

Lemma building_new_state m0 m n m' :
  building m0 m -> SCPFACInitNewState m = Ok (n, m') ->
  building m0 m' /\ n = state_count m /\ 1 <= n < state_count m'.
Proof.
  intros (Hwf & H1 & Hfr) Hrun.
  destruct (SCPFACInitNewState_spec _ _ _ Hwf Hrun)
    as (-> & Hsc & _ & _ & H16 & H32 & Hpl & Hpa & Hpc & Hwf').
  split; [|lia]. split; [exact Hwf'|]. split; [lia|].
  eapply same_frame_trans; [exact Hfr|]. by repeat split.
Qed.

Lemma building_set2 m0 m s c v :
  building m0 m -> Z.of_nat (Z.to_nat s) < v < state_count m ->
  building m0 (with_goto_table m (set2 (goto_table m) s c v)).
Proof.
  intros (Hwf & H1 & Hfr) Hv.
  split; [by apply goto_wf_set2|]. split; [exact H1|exact Hfr].
Qed.

Lemma enter_extend_building m0 suffix : forall m state st' m',
  building m0 m -> state < state_count m ->
  enter_extend m state suffix = Ok (st', m') ->
  building m0 m'.
Proof.
  induction suffix as [|c rest IH]; intros m state st' m' Hb Hs Hrun;
    simpl in Hrun.
  - by injection Hrun as <- <-.
  - destruct (SCPFACInitNewState m) as [[n m1]| |] eqn:E; simpl in Hrun;
      try discriminate.
    destruct (building_new_state _ _ _ _ Hb E) as (Hb1 & Hn0 & Hn).
    eapply IH; [| |exact Hrun].
    + apply building_set2; [exact Hb1|]. destruct Hb as (_ & H1 & _). lia.
    + ctx_simpl. lia.
Qed.

Lemma SCPFACEnter_building m0 pattern len pid m m' :
  building m0 m -> SCPFACEnter pattern len pid m = Ok m' -> building m0 m'.
Proof.
  intros Hb Hrun. unfold SCPFACEnter in Hrun.
  destruct (enter_walk _ _ _) as [state rest] eqn:Ew.
  destruct (enter_extend m state rest) as [[st1 m1]| |] eqn:E; simpl in Hrun;
    try discriminate.
  injection Hrun as <-.
  assert (state < state_count m) as Hlt.
  { destruct Hb as (Hwf & H1 & _).
    eapply (enter_walk_lt m); [done..| |exact Ew]. lia. }
  pose proof (enter_extend_building _ _ _ _ _ _ Hb Hlt E) as (Hwf & H1 & Hfr).
  destruct (SCPFACSetOutputState_fields st1 pid m1)
    as (Hsc & _ & H16 & H32 & Hpl & Hpa & Hpc).
  split; [by apply SCPFACSetOutputState_wf|]. split; [by rewrite Hsc|].
  eapply same_frame_trans; [exact Hfr|]. by repeat split.
Qed.

Lemma SCPFACDetermineLevel1Gap_building m0 m m' :
  building m0 m -> SCPFACDetermineLevel1Gap m = Ok m' -> building m0 m'.
Proof.
  intros Hb Hrun. unfold SCPFACDetermineLevel1Gap in Hrun.
  revert Hrun. apply foldM_inv; [|exact Hb].
  intros s u s' Hs _ Hstep.
  destruct (get 0 _ u =? 0); [by injection Hstep as <-|].
  destruct (SCPFACInitNewState s) as [[n m1]| |] eqn:E; simpl in Hstep;
    try discriminate.
  injection Hstep as <-.
  destruct (building_new_state _ _ _ _ Hs E) as (Hb1 & _ & Hn).
  apply building_set2; [exact Hb1|]. lia.
Qed.

Lemma root_fail_to_zero_cells l : forall g,
  rect g -> (0 < length g)%nat -> (forall a, a ∈ l -> 0 <= a < 256) ->
  let g' := root_fail_to_zero_on l g in
  length g' = length g /\ rect g' /\
  forall s b, (b < 256)%nat ->
    cell g' s b =
      if decide (s = 0%nat /\ Z.of_nat b ∈ l /\ cell g s b = SC_PFAC_FAIL)
      then 0 else cell g s b.
Proof.
  induction l as [|a l IH]; intros g Hr Hlen Hl; simpl.
  - split; [done|]. split; [done|]. intros s b Hb.
    destruct (decide _) as [(_ & Hin & _)|]; [|done]. by apply elem_of_nil in Hin.
  - set (g1 := if get2 g 0 a =? SC_PFAC_FAIL then set2 g 0 a 0 else g).
    assert (length g1 = length g) as Hlen1.
    { unfold g1. destruct (_ =? _); [apply length_set2|done]. }
    assert (rect g1) as Hr1.
    { unfold g1. destruct (_ =? _); [by apply rect_set2|done]. }
    assert (0 <= a < 256) as Ha by (apply Hl; apply list_elem_of_here).
    assert (forall s b, (b < 256)%nat ->
              cell g1 s b =
                if decide (s = 0%nat /\ Z.of_nat b = a /\
                           cell g s b = SC_PFAC_FAIL)
                then 0 else cell g s b) as Hcell1.
    { intros s b Hb. unfold g1. rewrite get2_cell.
      destruct (cell g (Z.to_nat 0) (Z.to_nat a) =? SC_PFAC_FAIL) eqn:E.
      - apply Z.eqb_eq in E.
        destruct (decide (s = 0%nat /\ Z.of_nat b = a /\ _))
          as [(-> & <- & Hf)|Hn].
        + pose proof (cell_set2_eq g 0 (Z.of_nat b) 0 Hr) as H.
          rewrite Nat2Z.id in H. change (Z.to_nat 0) with 0%nat in H.
          apply H; lia.
        + apply cell_set2_ne.
          destruct (decide (s = Z.to_nat 0)) as [->|]; [|by left].
          right. intros ->. apply Hn. repeat split; [lia|].
          rewrite Z2Nat.id in * by lia. exact E.
      - apply Z.eqb_neq in E.
        destruct (decide _) as [(-> & <- & Hf)|]; [|done].
        rewrite Nat2Z.id in E. done. }
    destruct (IH g1 Hr1 ltac:(lia)
                ltac:(intros; apply Hl; by apply list_elem_of_further))
      as (Hlen' & Hr' & Hcell').
    split; [congruence|]. split; [exact Hr'|].
    intros s b Hb. rewrite (Hcell' s b Hb), (Hcell1 s b Hb).
    clear IH Hcell' Hcell1 Hl.
    pose proof (elem_of_cons l (Z.of_nat b) a) as [Hc1 Hc2].
    assert (0 <> SC_PFAC_FAIL) as Hz by done.
    repeat case_decide; try done; exfalso; tauto.
Qed.

Lemma seqZ_256_range a : a ∈ seqZ 0 256 -> 0 <= a < 256.
Proof. rewrite elem_of_seqZ. lia. Qed.

Lemma SCPFACCreateGotoTable_final m0 m m' :
  building m0 m -> SCPFACCreateGotoTable m = Ok m' ->
  goto_final m' /\ same_frame m0 m' /\
  exists m1, building m0 m1 /\ output_table m' = output_table m1 /\
    goto_table m' = root_fail_to_zero (goto_table m1).
Proof.
  intros Hb Hrun. unfold SCPFACCreateGotoTable in Hrun.
  destruct (foldM _ _ m) as [m1| |] eqn:E; simpl in Hrun; try discriminate.
  injection Hrun as <-.
  assert (building m0 m1) as Hb1.
  { revert E. apply foldM_inv; [|exact Hb].
    intros s p s' Hs _ Hstep. eapply SCPFACEnter_building; eauto. }
  pose proof Hb1 as ([Hsz Hc Hgl Hol Hr Hcells] & H1 & Hfr).
  destruct (root_fail_to_zero_cells (seqZ 0 256) (goto_table m1) Hr
              ltac:(rewrite Hgl; lia) seqZ_256_range)
    as (Hlen' & Hr' & Hcell').
  split; [|split; [exact Hfr|]].
  - split; ctx_simpl; unfold root_fail_to_zero; try done; try lia;
      try congruence.
    + intros s b Hs Hb'. rewrite Hlen' in Hs. rewrite Hcell' by done.
      destruct (decide _); [right; lia|].
      destruct (Hcells s b Hs Hb') as [?|?]; [by left|right; lia].
    + intros s b Hs Hb'. rewrite Hlen' in Hs. rewrite Hcell' by done.
      destruct (decide _) as [(-> & _)|]; [lia|].
      apply Hcells; [lia|done].
    + intros b Hb'. rewrite Hcell' by done.
      destruct (decide _) as [|Hn]; [done|].
      intros Hf. apply Hn. repeat split; [|done].
      apply elem_of_seqZ. lia.
  - exists m1. by split.
Qed.

Lemma fresh_tables_wf m : fresh_tables m -> goto_wf m.
Proof.
  intros (Hsc & Hg & Ho & Hsz). split; try done.
  - rewrite Hsc. lia.
  - by rewrite Hg, Hsc.
  - by rewrite Ho, Hsc.
  - rewrite Hg. constructor.
  - rewrite Hg. simpl. lia.
Qed.

Lemma SCPFACBuildGoto_final m m' :
  fresh_tables m -> SCPFACBuildGoto m = Ok m' ->
  goto_final m' /\ same_frame m m'.
Proof.
  intros Hfresh Hrun. unfold SCPFACBuildGoto in Hrun.
  destruct (SCPFACInitNewState m) as [[n m0]| |] eqn:E0; simpl in Hrun;
    try discriminate.
  destruct (SCPFACDetermineLevel1Gap m0) as [m1| |] eqn:E1; simpl in Hrun;
    try discriminate.
  destruct (SCPFACInitNewState_spec _ _ _ (fresh_tables_wf _ Hfresh) E0)
    as (-> & Hsc & _ & _ & H16 & H32 & Hpl & Hpa & Hpc & Hwf0).
  assert (building m m0) as Hb0.
  { split; [exact Hwf0|]. destruct Hfresh as (Hz & _). split; [lia|].
    by repeat split. }
  pose proof (SCPFACDetermineLevel1Gap_building _ _ _ Hb0 E1) as Hb1.
  destruct (SCPFACCreateGotoTable_final _ _ _ Hb1 Hrun) as (Hf & Hfr & _).
  by split.
Qed.

(** ** The delta table *)

Lemma delta_inv_write cast g t r a :
  delta_inv cast g t -> get2 g r a <> SC_PFAC_FAIL ->
  delta_inv cast g (set2 t r a (cast (get2 g r a))).
Proof.
  intros (Hlen & Hr & Hc) Hnf. split; [by rewrite length_set2|].
  split; [by apply rect_set2|].
  intros s b Hs Hb. rewrite length_set2 in Hs.
  destruct (cell_set2_cases t r a (cast (get2 g r a)) s b)
    as [->|(-> & -> & -> & _)].
  - by apply Hc.
  - right. by rewrite <- get2_cell.
Qed.

Lemma delta_cell_step_inv cast g r qt a qt' :
  delta_inv cast g qt.2 -> delta_cell_step cast g r qt a = Ok qt' ->
  delta_inv cast g qt'.2.
Proof.
  intros Hinv Hrun. unfold delta_cell_step in Hrun.
  destruct (get2 g r a =? SC_PFAC_FAIL) eqn:E; simpl in Hrun.
  - by injection Hrun as <-.
  - destruct (SCPFACEnqueue qt.1 (get2 g r a)) as [q| |]; simpl in Hrun;
      try discriminate.
    injection Hrun as <-. simpl.
    apply delta_inv_write; [exact Hinv|]. by apply Z.eqb_neq.
Qed.

Lemma delta_bfs_S fuel cast g q t :
  delta_bfs (S fuel) cast g q t =
  if SCPFACStateQueueIsEmpty q then Ok t
  else
    '(r_state, q1) ← SCPFACDequeue q;
    '(q2, t2) ← foldM (delta_cell_step cast g r_state) (seqZ 0 256) (q1, t);
    delta_bfs fuel cast g q2 t2.
Proof. reflexivity. Qed.

Lemma delta_bfs_inv cast g fuel : forall q t t',
  delta_inv cast g t -> delta_bfs fuel cast g q t = Ok t' ->
  delta_inv cast g t'.
Proof.
  induction fuel as [|fuel IH]; intros q t t' Hinv Hrun; [discriminate|].
  rewrite delta_bfs_S in Hrun.
  destruct (SCPFACStateQueueIsEmpty q); [by injection Hrun as <-|].
  apply bind_Ok in Hrun as ([r q1] & _ & Hrun).
  apply bind_Ok in Hrun as ([q2 t2] & E & Hrun).
  eapply IH; [|exact Hrun].
  change t2 with (q2, t2).2. revert E.
  apply (foldM_inv (fun qt => delta_inv cast g qt.2)); [|exact Hinv].
  intros s a s' Hs _ Hstep. eapply delta_cell_step_inv; eauto.
Qed.

Lemma delta_root_step_inv cast g qt a qt' :
  (forall b, (b < 256)%nat -> cell g 0 b <> SC_PFAC_FAIL) ->
  0 <= a < 256 ->
  delta_inv cast g qt.2 -> delta_root_step cast g qt a = Ok qt' ->
  delta_inv cast g qt'.2.
Proof.
  intros Hroot Ha Hinv Hrun. unfold delta_root_step in Hrun.
  assert (delta_inv cast g (set2 qt.2 0 a (cast (get2 g 0 a)))) as Hw.
  { apply delta_inv_write; [exact Hinv|].
    rewrite get2_cell. apply Hroot. lia. }
  destruct (negb _); simpl in Hrun.
  - destruct (SCPFACEnqueue _ _) as [q| |]; simpl in Hrun; try discriminate.
    by injection Hrun as <-.
  - by injection Hrun as <-.
Qed.

Lemma cell_replicate_zero n s b : cell (replicate n (replicate 256 0)) s b = 0.
Proof.
  unfold cell.
  destruct (decide (s < n)%nat).
  - rewrite lookup_replicate_2 by done. simpl.
    destruct (decide (b < 256)%nat).
    + by rewrite lookup_replicate_2.
    + by rewrite (proj1 (lookup_replicate_None _ _ _)) by lia.
  - by rewrite (proj1 (lookup_replicate_None _ _ _)) by lia.
Qed.

Lemma build_state_table_inv fuel cast m t :
  goto_final m -> build_state_table fuel cast m = Ok t ->
  delta_inv cast (goto_table m) t.
Proof.
  intros Hf Hrun. unfold build_state_table in Hrun.
  apply bind_Ok in Hrun as ([q t1] & E & Hrun).
  eapply delta_bfs_inv; [|exact Hrun].
  change t1 with (q, t1).2. revert E.
  apply (foldM_inv (fun qt => delta_inv cast (goto_table m) qt.2)).
  - intros s a s' Hs Ha Hstep.
    eapply delta_root_step_inv; eauto using gf_root, seqZ_256_range.
  - cbn [snd].
    split; [by rewrite length_replicate, (gf_goto_len _ Hf)|].
    split.
    + apply Forall_replicate. apply length_replicate.
    + intros s b _ _. left. apply cell_replicate_zero.
Qed.

(** ** Bit fields *)

Lemma land_pow2_testbit x k :
  0 <= k -> Z.land x (2 ^ k) = if Z.testbit x k then 2 ^ k else 0.
Proof.
  intros Hk. apply Z.bits_inj'. intros n Hn.
  rewrite Z.land_spec, Z.pow2_bits_eqb by done.
  destruct (Z.eqb_spec k n) as [->|Hne].
  - rewrite andb_true_r. destruct (Z.testbit x n) eqn:E.
    + rewrite Z.pow2_bits_eqb by done. by rewrite Z.eqb_refl.
    + by rewrite Z.bits_0.
  - rewrite andb_false_r. destruct (Z.testbit x k).
    + rewrite Z.pow2_bits_eqb by done. symmetry. by apply Z.eqb_neq.
    + by rewrite Z.bits_0.
Qed.

Lemma land_pow2_nonzero x k :
  0 <= k -> Z.land x (2 ^ k) <> 0 <-> Z.testbit x k = true.
Proof.
  intros Hk. rewrite land_pow2_testbit by done.
  destruct (Z.testbit x k); split; try done.
  intros _. apply Z.pow_nonzero; lia.
Qed.

Lemma testbit_small x k : 0 <= x < 2 ^ k -> Z.testbit x k = false.
Proof.
  intros Hx. destruct (decide (x = 0)) as [->|Hne]; [apply Z.bits_0|].
  apply Z.bits_above_log2; [lia|]. apply Z.log2_lt_pow2; lia.
Qed.

Lemma lor_pow2_small x k : 0 <= k -> 0 <= x < 2 ^ k -> Z.lor x (2 ^ k) = x + 2 ^ k.
Proof.
  intros Hk Hx.
  assert (Z.land x (2 ^ k) = 0) as Hd.
  { rewrite land_pow2_testbit by done. by rewrite testbit_small. }
  rewrite <- Z.lxor_lor by done. symmetry. by apply Z.add_nocarry_lxor.
Qed.

Lemma land_ones_small x k : 0 <= k -> 0 <= x < 2 ^ k -> Z.land x (Z.ones k) = x.
Proof. intros Hk Hx. rewrite Z.land_ones by done. apply Z.mod_small. lia. Qed.

(** A cell that holds a state below 2^k and the flag 2^k above it. *)
Lemma flagged_cell_decode x k :
  0 <= k -> 0 <= x < 2 ^ k ->
  Z.land (x + 2 ^ k) (Z.ones k) = x /\ Z.land (x + 2 ^ k) (2 ^ k) <> 0.
Proof.
  intros Hk Hx. split.
  - rewrite Z.land_ones by done.
    rewrite <- (Z.mul_1_l (2 ^ k)) at 1. rewrite Z.mod_add by lia.
    apply Z.mod_small. lia.
  - apply land_pow2_nonzero; [done|].
    rewrite <- lor_pow2_small by done.
    rewrite Z.lor_spec, Z.pow2_bits_eqb, Z.eqb_refl by done.
    apply orb_true_r.
Qed.

Lemma plain_cell_decode x k :
  0 <= k -> 0 <= x < 2 ^ k ->
  Z.land x (Z.ones k) = x /\ Z.land x (2 ^ k) = 0.
Proof.
  intros Hk Hx. split; [by apply land_ones_small|].
  rewrite land_pow2_testbit by done. by rewrite testbit_small.
Qed.

(** ** Output presence *)

Lemma club_cell_cell cast mask bit o state t a s' b' :
  rect t -> Z.land state mask = state ->
  (Z.to_nat state < length t)%nat -> 0 <= a < 256 ->
  cell (club_cell cast mask bit o state t a) s' b' =
    if decide (s' = Z.to_nat state /\ b' = Z.to_nat a)
    then club_value cast mask bit o (cell t s' b') else cell t s' b'.
Proof.
  intros Hr Hm Hs Ha. unfold club_cell, club_value. rewrite Hm, get2_cell.
  case_decide as Hd.
  - destruct Hd as [-> ->].
    destruct (negb _); [|done]. apply cell_set2_eq; [done..|lia].
  - destruct (negb _); [|done]. apply cell_set2_ne.
    destruct (decide (s' = Z.to_nat state)) as [Hs'|Hs']; [right|by left].
    intros Hb'. by apply Hd.
Qed.

Lemma club_cell_shape cast mask bit o state t a :
  rect t ->
  length (club_cell cast mask bit o state t a) = length t /\
  rect (club_cell cast mask bit o state t a).
Proof.
  intros Hr. unfold club_cell.
  destruct (negb _); [|done]. split; [apply length_set2|by apply rect_set2].
Qed.

Lemma club_row_cells cast mask bit o state l : forall t,
  rect t -> Z.land state mask = state -> 0 <= state ->
  (Z.to_nat state < length t)%nat ->
  NoDup l -> (forall a, a ∈ l -> 0 <= a < 256) ->
  let t' := fold_left (club_cell cast mask bit o state) l t in
  length t' = length t /\ rect t' /\
  forall s' b', (b' < 256)%nat ->
    cell t' s' b' =
      if decide (s' = Z.to_nat state /\ Z.of_nat b' ∈ l)
      then club_value cast mask bit o (cell t s' b') else cell t s' b'.
Proof.
  induction l as [|a l IH]; intros t Hr Hm H0 Hs Hnd Hl; simpl.
  - split; [done|]. split; [done|]. intros s' b' _.
    case_decide as Hd; [|done]. destruct Hd as [_ Hd].
    by apply elem_of_nil in Hd.
  - apply NoDup_cons in Hnd as [Hna Hnd].
    assert (0 <= a < 256) as Ha by (apply Hl; apply list_elem_of_here).
    destruct (club_cell_shape cast mask bit o state t a Hr) as [Hlen1 Hr1].
    destruct (IH (club_cell cast mask bit o state t a) Hr1 Hm H0
                ltac:(by rewrite Hlen1) Hnd
                ltac:(intros; apply Hl; by apply list_elem_of_further))
      as (Hlen' & Hr' & Hcell').
    split; [congruence|]. split; [exact Hr'|].
    intros s' b' Hb'. rewrite (Hcell' s' b' Hb').
    rewrite (club_cell_cell cast mask bit o state t a s' b') by done.
    pose proof (elem_of_cons l (Z.of_nat b') a) as [Hc1 Hc2].
    assert (b' = Z.to_nat a <-> Z.of_nat b' = a) as Hba by lia.
    assert (Z.of_nat b' = a -> Z.of_nat b' ∈ l -> False) as Hx
      by (by intros <-).
    clear IH Hcell'.
    repeat case_decide; try done; exfalso; tauto.
Qed.

Lemma club_row_spec cast mask bit o state t :
  rect t -> Z.land state mask = state -> 0 <= state ->
  (Z.to_nat state < length t)%nat ->
  length (club_row cast mask bit o t state) = length t /\
  rect (club_row cast mask bit o t state) /\
  forall s' b', (b' < 256)%nat ->
    cell (club_row cast mask bit o t state) s' b' =
      if decide (s' = Z.to_nat state)
      then club_value cast mask bit o (cell t s' b') else cell t s' b'.
Proof.
  intros Hr Hm H0 Hs.
  destruct (club_row_cells cast mask bit o state (seqZ 0 256) t Hr Hm H0 Hs
              (NoDup_seqZ _ _) seqZ_256_range) as (Hlen1 & Hr1 & Hcell1).
  split; [exact Hlen1|]. split; [exact Hr1|].
  intros s' b' Hb'. unfold club_row. rewrite (Hcell1 s' b' Hb').
  assert (Z.of_nat b' ∈ seqZ 0 256) as Hin by (apply elem_of_seqZ; lia).
  repeat case_decide; try done; exfalso; tauto.
Qed.

Lemma fold_left_cons {A B} (f : A -> B -> A) x l a :
  fold_left f (x :: l) a = fold_left f l (f a x).
Proof. reflexivity. Qed.

Lemma club_table_cells cast mask bit o ls : forall t,
  rect t -> NoDup ls ->
  (forall s, s ∈ ls ->
     0 <= s /\ Z.land s mask = s /\ (Z.to_nat s < length t)%nat) ->
  let t' := fold_left (club_row cast mask bit o) ls t in
  length t' = length t /\ rect t' /\
  forall s' b', (b' < 256)%nat ->
    cell t' s' b' =
      if decide (Z.of_nat s' ∈ ls)
      then club_value cast mask bit o (cell t s' b') else cell t s' b'.
Proof.
  induction ls as [|state ls IH]; intros t Hr Hnd Hls; cbv zeta.
  - split; [done|]. split; [done|]. intros s' b' _.
    rewrite decide_False; [done|]. apply not_elem_of_nil.
  - rewrite fold_left_cons.
    apply NoDup_cons in Hnd as [Hna Hnd].
    destruct (Hls state (list_elem_of_here _ _)) as (H0 & Hm & Hs).
    destruct (club_row_spec cast mask bit o state t Hr Hm H0 Hs)
      as (Hlen1 & Hr1 & Hcell1).
    assert (forall s, s ∈ ls ->
              0 <= s /\ Z.land s mask = s /\
              (Z.to_nat s < length (club_row cast mask bit o t state))%nat)
      as Hls1.
    { intros s Hin. rewrite Hlen1. apply Hls. by apply list_elem_of_further. }
    destruct (IH _ Hr1 Hnd Hls1) as (Hlen' & Hr' & Hcell').
    split; [by rewrite Hlen'|]. split; [exact Hr'|].
    intros s' b' Hb'. rewrite (Hcell' s' b' Hb'), (Hcell1 s' b' Hb').
    pose proof (elem_of_cons ls (Z.of_nat s') state) as [Hc1 Hc2].
    assert (s' = Z.to_nat state <-> Z.of_nat s' = state) as Hss by lia.
    assert (Z.of_nat s' = state -> Z.of_nat s' ∈ ls -> False) as Hx
      by (by intros <-).
    clear IH Hcell' Hcell1.
    repeat case_decide; try done; exfalso; tauto.
Qed.

Lemma club_table_spec cast mask bit o count t :
  rect t -> length t = Z.to_nat count ->
  (forall s, 0 <= s < count -> Z.land s mask = s) ->
  let t' := club_table cast mask bit o count t in
  length t' = length t /\ rect t' /\
  forall s' b', (s' < length t)%nat -> (b' < 256)%nat ->
    cell t' s' b' = club_value cast mask bit o (cell t s' b').
Proof.
  intros Hr Hlen Hmask.
  assert (forall s, s ∈ seqZ 0 count ->
            0 <= s /\ Z.land s mask = s /\ (Z.to_nat s < length t)%nat)
    as Hls.
  { intros s Hin. apply elem_of_seqZ in Hin.
    split; [lia|]. split; [apply Hmask; lia|lia]. }
  destruct (club_table_cells cast mask bit o (seqZ 0 count) t Hr
              (NoDup_seqZ _ _) Hls) as (Hlen' & Hr' & Hcell').
  split; [exact Hlen'|]. split; [exact Hr'|].
  intros s' b' Hs' Hb'. unfold club_table. rewrite (Hcell' s' b' Hb').
  rewrite decide_True; [done|]. apply elem_of_seqZ. lia.
Qed.

(** ** The compiled tables *)

Lemma decode_u16_flagged x :
  0 <= x < 32768 ->
  Z.land (u16 (Z.lor x (Z.shiftl 1 15))) 0x7FFF = x /\
  Z.land (u16 (Z.lor x (Z.shiftl 1 15))) 0x8000 <> 0.
Proof.
  intros Hx. change (Z.shiftl 1 15) with (2 ^ 15).
  rewrite lor_pow2_small by lia. rewrite u16_small by lia.
  apply (flagged_cell_decode x 15); lia.
Qed.

Lemma decode_u16_plain x :
  0 <= x < 32768 -> Z.land x 0x7FFF = x /\ Z.land x 0x8000 = 0.
Proof. intros Hx. apply (plain_cell_decode x 15); lia. Qed.

Lemma decode_u32_flagged x :
  0 <= x < 16777216 ->
  Z.land (u32 (Z.lor x (Z.shiftl 1 24))) 0x00FFFFFF = x /\
  Z.land (u32 (Z.lor x (Z.shiftl 1 24))) 0x01000000 <> 0.
Proof.
  intros Hx. change (Z.shiftl 1 24) with (2 ^ 24).
  rewrite lor_pow2_small by lia. rewrite u32_small by lia.
  apply (flagged_cell_decode x 24); lia.
Qed.

Lemma decode_u32_plain x :
  0 <= x < 16777216 -> Z.land x 0x00FFFFFF = x /\ Z.land x 0x01000000 = 0.
Proof. intros Hx. apply (plain_cell_decode x 24); lia. Qed.

(** A cell of the compiled table decodes to the state [c0] it was given
    before the presence flag was added, and carries the flag exactly when
    the output row of [c0] is not empty. *)
Lemma club_value_decode m o c0 :
  0 <= c0 < state_count m -> state_count m < 2 ^ 21 ->
  let c := club_value (cell_cast m) (state_mask m) (cell_flag m) o c0 in
  Z.land c (state_mask m) = c0 /\
  (Z.land c (output_bit m) <> 0 <-> get [] o c0 <> []).
Proof.
  intros Hc0 Hsc. unfold club_value, cell_cast, state_mask, cell_flag,
    output_bit, narrow.
  destruct (state_count m <? 32767) eqn:En.
  - apply Z.ltb_lt in En.
    destruct (decode_u16_plain c0 ltac:(lia)) as [Hp1 Hp2].
    destruct (decode_u16_flagged c0 ltac:(lia)) as [Hf1 Hf2].
    rewrite Hp1.
    destruct (get [] o c0) as [|pid row] eqn:Erow; simpl.
    + split; [exact Hp1|]. rewrite Hp2. done.
    + split; [exact Hf1|]. done.
  - destruct (decode_u32_plain c0 ltac:(lia)) as [Hp1 Hp2].
    destruct (decode_u32_flagged c0 ltac:(lia)) as [Hf1 Hf2].
    rewrite Hp1.
    destruct (get [] o c0) as [|pid row] eqn:Erow; simpl.
    + split; [exact Hp1|]. rewrite Hp2. done.
    + split; [exact Hf1|]. done.
Qed.

Lemma get_map_rows (f : Z -> Z) (o : list (list Z)) s :
  get [] (map (map f) o) s = map f (get [] o s).
Proof.
  unfold get. generalize (Z.to_nat s) as n.
  induction o as [|row o IH]; intros [|n]; simpl; auto.
Qed.

Lemma map_firstn_all {A} (f : A -> A) (l : list A) n :
  length l = n -> map f (firstn n l) ++ skipn n l = map f l.
Proof.
  intros <-. rewrite firstn_all, skipn_all. apply app_nil_r.
Qed.

Lemma SCPFACInsertCaseSensitiveEntriesForPatterns_rows m s :
  length (output_table m) = Z.to_nat (state_count m) ->
  get [] (output_table (SCPFACInsertCaseSensitiveEntriesForPatterns m)) s =
  map (stamp_case_sensitive (pid_pat_list m)) (get [] (output_table m) s).
Proof.
  intros Hlen. unfold SCPFACInsertCaseSensitiveEntriesForPatterns.
  ctx_simpl. rewrite map_firstn_all by done. apply get_map_rows.
Qed.

Lemma SCPFACCreateDeltaTable_spec fuel both m m3 :
  goto_final m -> SCPFACCreateDeltaTable fuel both m = Ok m3 ->
  state_count m3 = state_count m /\ output_table m3 = output_table m /\
  goto_table m3 = goto_table m /\ pid_pat_list m3 = pid_pat_list m /\
  delta_inv (cell_cast m) (goto_table m) (scanner_table m3).
Proof.
  intros Hf Hrun. unfold SCPFACCreateDeltaTable in Hrun.
  unfold scanner_table, cell_cast, narrow.
  apply bind_Ok in Hrun as (m1 & E1 & Hrun).
  destruct (state_count m <? 32767) eqn:En; cbn [orb negb] in *.
  - apply bind_Ok in E1 as (t & Et & E1). injection E1 as <-.
    pose proof (build_state_table_inv _ _ _ _ Hf Et) as Hinv.
    destruct both.
    + apply bind_Ok in Hrun as (t' & _ & Hrun). injection Hrun as <-.
      ctx_simpl. rewrite En. repeat (split; [done|]). exact Hinv.
    + injection Hrun as <-. ctx_simpl. rewrite En.
      repeat (split; [done|]). exact Hinv.
  - apply bind_Ok in Hrun as (t' & Et' & Hrun). injection Hrun as <-.
    destruct both.
    + apply bind_Ok in E1 as (t & Et & E1). injection E1 as <-.
      ctx_simpl. rewrite En. repeat (split; [done|]).
      by apply (build_state_table_inv fuel u32 m t' Hf).
    + injection E1 as <-. ctx_simpl. rewrite En. repeat (split; [done|]).
      by apply (build_state_table_inv fuel u32 m t' Hf).
Qed.

Lemma state_mask_covers m s :
  1 <= state_count m < 2 ^ 21 -> 0 <= s < state_count m ->
  Z.land s (state_mask m) = s.
Proof.
  intros Hsc Hs. unfold state_mask, narrow.
  destruct (state_count m <? 32767) eqn:En.
  - apply Z.ltb_lt in En. apply (decode_u16_plain s). lia.
  - apply (decode_u32_plain s). lia.
Qed.

Lemma cell_cast_small m c :
  0 <= c < state_count m -> state_count m < 2 ^ 21 -> cell_cast m c = c.
Proof.
  intros Hc Hsc. unfold cell_cast, narrow.
  destruct (state_count m <? 32767) eqn:En.
  - apply Z.ltb_lt in En. apply u16_small. lia.
  - apply u32_small. lia.
Qed.

(** The table the presence pass works on, for a context whose delta tables
    were just built. *)
Lemma SCPFACClubOutputStatePresenceWithDeltaTable_spec both m :
  let m' := SCPFACClubOutputStatePresenceWithDeltaTable both m in
  state_count m' = state_count m /\ output_table m' = output_table m /\
  goto_table m' = goto_table m /\ pid_pat_list m' = pid_pat_list m /\
  scanner_table m' =
    club_table (cell_cast m) (state_mask m) (cell_flag m) (output_table m)
      (state_count m) (scanner_table m).
Proof.
  unfold SCPFACClubOutputStatePresenceWithDeltaTable, scanner_table,
    cell_cast, state_mask, cell_flag, narrow.
  destruct (state_count m <? 32767) eqn:En; destruct both;
    cbn [orb negb]; ctx_simpl; rewrite ?En; done.
Qed.

(** The cells of the compiled table, in terms of the goto table it was
    built from. *)
Lemma SCPFACFinishStateTable_cells fuel both m m' :
  goto_final m -> SCPFACFinishStateTable fuel both m = Ok m' ->
  state_count m' = state_count m /\
  (forall s, get [] (output_table m') s =
             map (stamp_case_sensitive (pid_pat_list m))
               (get [] (output_table m) s)) /\
  forall s b, (s < Z.to_nat (state_count m))%nat -> (b < 256)%nat ->
    exists c0,
      (c0 = 0 \/
       (cell (goto_table m) s b <> SC_PFAC_FAIL /\
        c0 = cell (goto_table m) s b)) /\
      0 <= c0 < state_count m /\
      cell (scanner_table m') s b =
        club_value (cell_cast m) (state_mask m) (cell_flag m)
          (output_table m) c0.
Proof.
  intros Hf Hrun. unfold SCPFACFinishStateTable in Hrun.
  apply bind_Ok in Hrun as (m3 & E3 & Hrun). injection Hrun as <-.
  destruct (SCPFACCreateDeltaTable_spec _ _ _ _ Hf E3)
    as (Hsc3 & Ho3 & Hg3 & Hpl3 & (Hlen & Hr & Hcells)).
  pose proof (SCPFACClubOutputStatePresenceWithDeltaTable_spec both m3)
    as (Hsc4 & Ho4 & Hg4 & Hpl4 & Ht4).
  set (m4 := SCPFACClubOutputStatePresenceWithDeltaTable both m3) in *.
  cbv zeta in Hsc4, Ho4, Hg4, Hpl4, Ht4.
  assert (length (scanner_table m3) = Z.to_nat (state_count m)) as Hlen3
    by (rewrite Hlen; apply (gf_goto_len _ Hf)).
  destruct (club_table_spec (cell_cast m3) (state_mask m3) (cell_flag m3)
              (output_table m3) (state_count m3) (scanner_table m3) Hr)
    as (Hlen' & Hr' & Hcell').
  { by rewrite Hsc3. }
  { intros s Hs. apply state_mask_covers; rewrite Hsc3;
      [apply (gf_count _ Hf)|lia]. }
  assert (state_count
            (with_goto_table (SCPFACInsertCaseSensitiveEntriesForPatterns m4)
               []) = state_count m) as Hsc6
    by (ctx_simpl; cbn; congruence).
  split; [exact Hsc6|]. split.
  - intros s. ctx_simpl.
    rewrite SCPFACInsertCaseSensitiveEntriesForPatterns_rows.
    + by rewrite Hpl4, Hpl3, Ho4, Ho3.
    + rewrite Ho4, Ho3, Hsc4, Hsc3. apply (gf_out_len _ Hf).
  - intros s b Hs Hb.
    assert (scanner_table
              (with_goto_table
                 (SCPFACInsertCaseSensitiveEntriesForPatterns m4) []) =
            scanner_table m4) as -> by done.
    rewrite Ht4. rewrite Hcell' by (rewrite ?Hlen3; done).
    assert (cell_cast m3 = cell_cast m) as ->
      by (unfold cell_cast, narrow; by rewrite Hsc3).
    assert (state_mask m3 = state_mask m) as ->
      by (unfold state_mask, narrow; by rewrite Hsc3).
    assert (cell_flag m3 = cell_flag m) as ->
      by (unfold cell_flag, narrow; by rewrite Hsc3).
    rewrite Ho3.
    pose proof (gf_count _ Hf) as Hcount.
    destruct (Hcells s b ltac:(by rewrite Hlen3) Hb) as [Hz|[Hnf Hc]].
    + exists 0. split; [by left|]. split; [lia|]. by rewrite Hz.
    + destruct (gf_cells _ Hf s b
                  ltac:(by rewrite (gf_goto_len _ Hf)) Hb) as [?|Hrng];
        [done|].
      exists (cell (goto_table m) s b).
      split; [by right|]. split; [exact Hrng|].
      rewrite Hc. by rewrite cell_cast_small by lia.
Qed.

(** ** Registration leaves the tables alone *)

Lemma SCPFACAddPattern_tables m pat pid flags :
  tables_untouched m ->
  tables_untouched (add_ctx (SCPFACAddPattern m pat pid flags)).
Proof.
  intros H. unfold SCPFACAddPattern.
  destruct (_ =? 0); [exact H|].
  destruct (SCPFACInitHashLookup _ _ _ _ _); exact H.
Qed.

Lemma register_all_tables rs : forall m,
  tables_untouched m -> tables_untouched (register_all rs m).
Proof.
  induction rs as [|r rs IH]; intros m H; [exact H|].
  apply IH. by apply SCPFACAddPattern_tables.
Qed.

Lemma SCPFACInitCtx_tables : tables_untouched SCPFACInitCtx.
Proof. by repeat split. Qed.

Lemma setup_fresh m h :
  tables_untouched m -> fresh_tables (SCPFACPreparePatterns_setup m h).
Proof. intros (? & ? & ? & ? & ?). by repeat split. Qed.

(** SCPFACPreparePatterns either leaves an empty context as it is or goes
    through the two halves of SCPFACPrepareStateTable. *)
Lemma SCPFACPreparePatterns_Ok fuel both m r m' :
  SCPFACPreparePatterns fuel both m = Ok (r, m') ->
  (m' = m /\ (init_hash m = None \/ pattern_cnt m = 0)) \/
  exists h mg mf,
    init_hash m = Some h /\ pattern_cnt m <> 0 /\
    SCPFACBuildGoto (SCPFACPreparePatterns_setup m h) = Ok mg /\
    SCPFACFinishStateTable fuel both mg = Ok mf /\
    state_count m' = state_count mf /\
    state_table_u16 m' = state_table_u16 mf /\
    state_table_u32 m' = state_table_u32 mf /\
    output_table m' = output_table mf /\
    pid_pat_list m' = pid_pat_list mf.
Proof.
  unfold SCPFACPreparePatterns. intros Hrun.
  destruct (init_hash m) as [h|] eqn:Eh;
    [|injection Hrun as <- <-; left; split; [done|by left]].
  destruct (pattern_cnt m =? 0) eqn:Ec.
  - injection Hrun as <- <-. left. split; [done|right; by apply Z.eqb_eq].
  - apply bind_Ok in Hrun as (mf & Hprep & Hrun). injection Hrun as <- <-.
    unfold SCPFACPrepareStateTable in Hprep.
    apply bind_Ok in Hprep as (mg & Hg & Hfin).
    right. exists h, mg, mf. split; [done|]. split; [by apply Z.eqb_neq|].
    by repeat split.
Qed.

Lemma map_not_nil {A B} (f : A -> B) l : map f l <> [] <-> l <> [].
Proof. by destruct l. Qed.

(** C6. After prepare, every cell of the table the scanner reads, for every
    state below state_count (the states reachable from state 0 among them)
    and every byte, decodes under the mask of its width (0x7FFF or
    0x00FFFFFF) to a state below state_count, and its output-presence bit is
    set if and only if the output list of that state is not empty. *)
Theorem compiled_cells_decode fuel both rs r m :
  SCPFACPreparePatterns fuel both (register_all rs SCPFACInitCtx)
    = Ok (r, m) ->
  forall s b, 0 <= s < state_count m -> 0 <= b < 256 ->
    let c := get2 (scanner_table m) s b in
    0 <= Z.land c (state_mask m) < state_count m /\
    (Z.land c (output_bit m) <> 0 <->
     get [] (output_table m) (Z.land c (state_mask m)) <> []).
Proof.
  intros Hrun s b Hs Hb.
  pose proof (register_all_tables rs _ SCPFACInitCtx_tables) as Htab.
  destruct (SCPFACPreparePatterns_Ok _ _ _ _ _ Hrun)
    as [[-> _]|(h & mg & mf & Hh & Hcnt & Hg & Hfin & Hsc & H16 & H32 & Ho & _)].
  { destruct Htab as (Hz & _). lia. }
  destruct (SCPFACBuildGoto_final _ _ (setup_fresh _ h Htab) Hg) as [Hf _].
  destruct (SCPFACFinishStateTable_cells _ _ _ _ Hf Hfin)
    as (Hscf & Hrows & Hcells).
  pose proof (gf_count _ Hf) as Hcount.
  assert (narrow m = narrow mg) as Hn
    by (unfold narrow; by rewrite Hsc, Hscf).
  assert (scanner_table m = scanner_table mf) as Ht.
  { unfold scanner_table. rewrite Hn.
    unfold narrow. rewrite Hscf. by rewrite H16, H32. }
  assert (state_mask m = state_mask mg) as Hmask
    by (unfold state_mask; by rewrite Hn).
  assert (output_bit m = output_bit mg) as Hbit
    by (unfold output_bit; by rewrite Hn).
  cbv zeta. rewrite Ht, Hmask, Hbit, Ho, Hsc, Hscf, get2_cell.
  rewrite Hsc, Hscf in Hs.
  destruct (Hcells (Z.to_nat s) (Z.to_nat b) ltac:(lia) ltac:(lia))
    as (c0 & _ & Hc0 & ->).
  destruct (club_value_decode mg (output_table mg) c0 Hc0 ltac:(lia))
    as [Hdec Hflag].
  rewrite Hdec. split; [exact Hc0|].
  rewrite Hflag, Hrows. symmetry. apply map_not_nil.
Qed.

(** ** State 0 has no output *)

Lemma u8_tolower_byte c : 0 <= c < 256 -> 0 <= u8_tolower c < 256.
Proof.
  intros Hc. unfold u8_tolower.
  destruct (65 <=? c) eqn:E1; destruct (c <=? 90) eqn:E2; simpl; lia.
Qed.

Lemma memcpy_tolower_bytes pat : is_bytes pat -> is_bytes (memcpy_tolower pat).
Proof.
  intros H. unfold memcpy_tolower.
  induction H as [|c l Hc Hl IH]; simpl; constructor; [|exact IH].
  by apply u8_tolower_byte.
Qed.

Lemma row0_new_state m n m' :
  goto_wf m -> SCPFACInitNewState m = Ok (n, m') ->
  row0_empty m -> row0_empty m'.
Proof.
  intros Hwf Hrun H0.
  destruct (SCPFACInitNewState_spec _ _ _ Hwf Hrun)
    as (_ & _ & _ & Ho & _).
  unfold row0_empty in *. rewrite Ho. unfold get in *.
  destruct (output_table m) as [|row o]; [done|exact H0].
Qed.

Lemma row0_set_output state pid m :
  1 <= state -> row0_empty m -> row0_empty (SCPFACSetOutputState state pid m).
Proof.
  intros Hs H0. unfold SCPFACSetOutputState.
  destruct (existsb _ _); [exact H0|].
  unfold row0_empty, set, get in *. ctx_simpl.
  rewrite list_lookup_insert_ne by lia. exact H0.
Qed.

Lemma SCPFACDetermineLevel1Gap_row0 m0 m m' :
  building m0 m -> row0_empty m -> SCPFACDetermineLevel1Gap m = Ok m' ->
  row0_empty m'.
Proof.
  intros Hb H0 Hrun. unfold SCPFACDetermineLevel1Gap in Hrun.
  enough (building m0 m' /\ row0_empty m') as [_ ?] by done.
  revert Hrun. apply (foldM_inv (fun m => building m0 m /\ row0_empty m));
    [|by split].
  intros s u s' [Hs Hs0] _ Hstep.
  destruct (get 0 _ u =? 0); [by injection Hstep as <-|].
  apply bind_Ok in Hstep as ([n m1] & E & Hstep). injection Hstep as <-.
  destruct (building_new_state _ _ _ _ Hs E) as (Hb1 & _ & Hn).
  split; [apply building_set2; [exact Hb1|lia]|].
  destruct Hs as (Hwf & _). exact (row0_new_state _ _ _ Hwf E Hs0).
Qed.

Lemma enter_walk_state m pattern : forall state st' rest,
  goto_wf m -> 0 <= state < state_count m -> is_bytes pattern ->
  enter_walk (goto_table m) state pattern = (st', rest) ->
  (st' = state /\ rest = pattern) \/ 1 <= st'.
Proof.
  induction pattern as [|c pattern IH]; intros state st' rest Hwf Hs Hb Hrun;
    simpl in Hrun.
  - injection Hrun as <- <-. by left.
  - apply Forall_cons in Hb as [Hc Hb].
    destruct (get2 (goto_table m) state c =? SC_PFAC_FAIL) eqn:E;
      simpl in Hrun.
    + injection Hrun as <- <-. by left.
    + apply Z.eqb_neq in E. rewrite get2_cell in E.
      destruct (wf_cells _ Hwf (Z.to_nat state) (Z.to_nat c)
                  ltac:(rewrite (wf_goto_len _ Hwf); lia) ltac:(lia))
        as [Hf|Hrng]; [done|].
      rewrite <- get2_cell in Hrng.
      right.
      destruct (IH (get2 (goto_table m) state c) st' rest Hwf
                  ltac:(lia) Hb Hrun) as [[-> _]|?]; lia.
Qed.

Lemma enter_extend_state m0 suffix : forall m state st' m',
  building m0 m -> state < state_count m -> row0_empty m ->
  enter_extend m state suffix = Ok (st', m') ->
  row0_empty m' /\ ((suffix = [] /\ st' = state) \/ 1 <= st').
Proof.
  induction suffix as [|c rest IH]; intros m state st' m' Hb Hs H0 Hrun;
    simpl in Hrun.
  - injection Hrun as <- <-. split; [done|by left].
  - apply bind_Ok in Hrun as ([n m1] & E & Hrun).
    destruct (building_new_state _ _ _ _ Hb E) as (Hb1 & Hn0 & Hn).
    assert (row0_empty m1) as H01
      by (destruct Hb as (Hwf & _); exact (row0_new_state _ _ _ Hwf E H0)).
    assert (Z.of_nat (Z.to_nat state) < n < state_count m1) as Hn'
      by (destruct Hb as (_ & H1 & _); lia).
    destruct (IH _ n _ _ (building_set2 _ _ state c n Hb1 Hn')
                ltac:(ctx_simpl; lia) H01 Hrun)
      as [Hr0 Hst].
    split; [exact Hr0|]. right. destruct Hst as [[_ ->]|?]; lia.
Qed.

Lemma SCPFACEnter_row0 m0 p m m' :
  pat_ok p -> building m0 m -> row0_empty m ->
  SCPFACEnter (p_ci p) (p_len p) (p_id p) m = Ok m' -> row0_empty m'.
Proof.
  intros (Hlen & Hne & Hbytes) Hb H0 Hrun. unfold SCPFACEnter in Hrun.
  destruct (enter_walk _ _ _) as [state rest] eqn:Ew.
  apply bind_Ok in Hrun as ([st1 m1] & Ex & Hrun). injection Hrun as <-.
  assert (state < state_count m) as Hlt.
  { destruct Hb as (Hwf & H1 & _).
    eapply (enter_walk_lt m); [done..| |exact Ew]. lia. }
  destruct (enter_extend_state _ _ _ _ _ _ Hb Hlt H0 Ex) as [H01 Hst].
  apply row0_set_output; [|exact H01].
  destruct Hb as (Hwf & H1 & _).
  assert (firstn (Z.to_nat (p_len p)) (p_ci p) <> []) as Hne'.
  { destruct (p_ci p) as [|c l]; [done|].
    destruct (Z.to_nat (p_len p)) as [|k] eqn:Ek; [lia|done]. }
  assert (0 <= 0 < state_count m) as Hroot by lia.
  destruct (enter_walk_state m _ 0 state rest Hwf Hroot
              ltac:(by apply Forall_take) Ew) as [[-> ->]|?];
    destruct Hst as [[? ->]|?]; try lia. done.
Qed.

Lemma SCPFACBuildGoto_row0 m m' :
  fresh_tables m -> Forall pat_ok (patterns m) ->
  SCPFACBuildGoto m = Ok m' -> row0_empty m'.
Proof.
  intros Hfresh Hpats Hrun. unfold SCPFACBuildGoto in Hrun.
  apply bind_Ok in Hrun as ([n m0] & E0 & Hrun).
  apply bind_Ok in Hrun as (m1 & E1 & Hrun).
  destruct (SCPFACInitNewState_spec _ _ _ (fresh_tables_wf _ Hfresh) E0)
    as (-> & Hsc & _ & Ho0 & H16 & H32 & Hpl & Hpa & Hpc & Hwf0).
  assert (building m m0) as Hb0.
  { split; [exact Hwf0|]. destruct Hfresh as (Hz & _). split; [lia|].
    by repeat split. }
  assert (row0_empty m0) as H00.
  { destruct Hfresh as (_ & _ & Hoe & _). unfold row0_empty.
    by rewrite Ho0, Hoe. }
  pose proof (SCPFACDetermineLevel1Gap_building _ _ _ Hb0 E1) as Hb1.
  pose proof (SCPFACDetermineLevel1Gap_row0 _ _ _ Hb0 H00 E1) as H01.
  unfold SCPFACCreateGotoTable in Hrun.
  apply bind_Ok in Hrun as (m2 & E2 & Hrun). injection Hrun as <-.
  enough (building m m2 /\ row0_empty m2) as [_ ?] by done.
  assert (patterns m1 = patterns m) as Hpm.
  { destruct Hb1 as (_ & _ & (_ & _ & _ & Hpa1 & Hpc1)).
    unfold patterns. by rewrite Hpa1, Hpc1. }
  rewrite Hpm in E2. revert E2.
  apply (foldM_inv (fun m' => building m m' /\ row0_empty m'));
    [|by split].
  intros s p s' [Hs Hs0] Hin Hstep. split.
  - eapply SCPFACEnter_building; eauto.
  - eapply SCPFACEnter_row0; eauto.
    revert Hin. by apply Forall_forall.
Qed.

(** ** The pattern store *)

Lemma get_Forall {A} (P : A -> Prop) (h : list (list A)) i :
  Forall (Forall P) h -> Forall P (get [] h i).
Proof.
  intros H. unfold get.
  destruct (h !! Z.to_nat i) as [chain|] eqn:E; simpl; [|constructor].
  exact (proj1 (Forall_lookup _ _) H _ _ E).
Qed.

Lemma SCPFACAddPattern_store_ok m pat pid flags :
  is_bytes pat -> store_ok m ->
  store_ok (add_ctx (SCPFACAddPattern m pat pid flags)).
Proof.
  intros Hb (h & Hh & Hok). unfold SCPFACAddPattern.
  destruct (Z.of_nat (length pat) =? 0) eqn:Elen; [by exists h|].
  destruct (SCPFACInitHashLookup _ _ _ _ _); [by exists h|].
  cbn [add_ctx init_hash]. rewrite Hh. unfold SCPFACInitHashAdd.
  eexists. split; [reflexivity|].
  apply Forall_insert; [exact Hok|].
  apply Forall_app. split; [by apply get_Forall|].
  apply Forall_singleton. apply Z.eqb_neq in Elen.
  split; [cbn; lia|]. split; cbn.
  - destruct pat; [done|discriminate].
  - by apply memcpy_tolower_bytes.
Qed.

Lemma register_all_store_ok rs : forall m,
  Forall (fun r : Registration => is_bytes r.1.1) rs ->
  store_ok m -> store_ok (register_all rs m).
Proof.
  induction rs as [|r rs IH]; intros m Hrs Hm; [exact Hm|].
  apply Forall_cons in Hrs as [Hr Hrs].
  apply IH; [exact Hrs|]. by apply SCPFACAddPattern_store_ok.
Qed.

Lemma SCPFACInitCtx_store_ok : store_ok SCPFACInitCtx.
Proof.
  eexists. split; [reflexivity|]. apply Forall_replicate. constructor.
Qed.

Lemma setup_patterns_ok m h :
  hash_ok h -> Forall pat_ok (patterns (SCPFACPreparePatterns_setup m h)).
Proof.
  intros Hok. unfold patterns, SCPFACPreparePatterns_setup. ctx_simpl.
  apply Forall_take. apply Forall_concat. by apply Forall_take.
Qed.

(** C2, amended.  The failure transitions are not absorbed: for every state
    and byte whose goto cell was FAIL when the goto table was complete, the
    cell of the compiled table is 0 (no transition; the scanner restarts),
    whatever the row of any failure state holds. *)
Theorem fail_cells_stay_zero fuel both rs mg r m :
  Forall (fun reg : Registration => is_bytes reg.1.1) rs ->
  SCPFACPreparePatterns_goto (register_all rs SCPFACInitCtx) = Ok mg ->
  SCPFACPreparePatterns fuel both (register_all rs SCPFACInitCtx)
    = Ok (r, m) ->
  forall r_state ascii_code,
    0 <= r_state < state_count m -> 0 <= ascii_code < 256 ->
    get2 (goto_table mg) r_state ascii_code = SC_PFAC_FAIL ->
    get2 (scanner_table m) r_state ascii_code = 0.
Proof.
  intros Hrs Hgoto Hrun s b Hs Hb Hfail.
  pose proof (register_all_tables rs _ SCPFACInitCtx_tables) as Htab.
  destruct (register_all_store_ok rs _ Hrs SCPFACInitCtx_store_ok)
    as (h & Hh & Hok).
  destruct (SCPFACPreparePatterns_Ok _ _ _ _ _ Hrun)
    as [[-> _]|(h' & mg' & mf & Hh' & Hcnt & Hg & Hfin & Hsc & H16 & H32
                & Ho & _)].
  { destruct Htab as (Hz & _). lia. }
  rewrite Hh in Hh'. injection Hh' as <-.
  unfold SCPFACPreparePatterns_goto in Hgoto. rewrite Hh in Hgoto.
  apply Z.eqb_neq in Hcnt. rewrite Hcnt in Hgoto.
  rewrite Hgoto in Hg. injection Hg as <-.
  destruct (SCPFACBuildGoto_final _ _ (setup_fresh _ h Htab) Hgoto)
    as [Hf _].
  pose proof (SCPFACBuildGoto_row0 _ _ (setup_fresh _ h Htab)
                (setup_patterns_ok _ h Hok) Hgoto) as Hrow0.
  destruct (SCPFACFinishStateTable_cells _ _ _ _ Hf Hfin)
    as (Hscf & _ & Hcells).
  assert (scanner_table m = scanner_table mf) as ->.
  { unfold scanner_table, narrow. by rewrite Hsc, H16, H32. }
  rewrite Hsc, Hscf in Hs. rewrite get2_cell in *.
  destruct (Hcells (Z.to_nat s) (Z.to_nat b) ltac:(lia) ltac:(lia))
    as (c0 & [->|[Hnf _]] & _ & ->); [|done].
  unfold club_value. rewrite Z.land_0_l.
  unfold row0_empty in Hrow0. by rewrite Hrow0.
Qed.

(** ** Duplicate registrations *)

Lemma bucket_of_range pat : 0 <= bucket_of pat < INIT_HASH_SIZE.
Proof.
  unfold bucket_of, SCPFACInitHashRaw. apply Z.mod_pos_bound. done.
Qed.

Lemma get_set_eq {A} (d : A) l i x :
  (Z.to_nat i < length l)%nat -> get d (set l i x) i = x.
Proof. intros H. unfold get, set. by rewrite list_lookup_insert_eq. Qed.

Lemma get_set_ne {A} (d : A) l i j x :
  Z.to_nat i <> Z.to_nat j -> get d (set l i x) j = get d l j.
Proof. intros H. unfold get, set. by rewrite list_lookup_insert_ne. Qed.

Lemma SCPFACInitHashLookup_found m pat pid flags p :
  p ∈ bucket m (bucket_of pat) -> p_id p = pid ->
  exists t,
    SCPFACInitHashLookup m pat (Z.of_nat (length pat)) flags pid = Some t.
Proof.
  intros Hin Hid. unfold SCPFACInitHashLookup, bucket, bucket_of in *.
  destruct (init_hash m) as [h|]; [|by apply elem_of_nil in Hin].
  destruct (List.find _ _) as [t|] eqn:E; [by exists t|].
  apply list_elem_of_In in Hin.
  pose proof (find_none _ _ E p Hin) as Hn. cbv beta in Hn.
  apply Z.eqb_neq in Hn. done.
Qed.

Lemma register_registered m rs r :
  registered m rs -> registered (register m r) (rs ++ [r]).
Proof.
  destruct r as [[pat pid] flags].
  intros [(h & Hh & Hlen) Hreg]. unfold register, SCPFACAddPattern.
  cbn [fst snd].
  destruct (Z.of_nat (length pat) =? 0) eqn:Elen.
  { split; [by exists h|]. cbn [add_ctx].
    intros pat' pid' flags' Hin Hne.
    apply elem_of_app in Hin as [Hin|Hin]; [by eapply Hreg|].
    apply list_elem_of_singleton in Hin. injection Hin as -> -> ->.
    apply Z.eqb_eq in Elen. destruct pat; [done|discriminate]. }
  destruct (SCPFACInitHashLookup m pat _ flags pid) as [t|] eqn:Elook.
  { split; [by exists h|]. cbn [add_ctx].
    intros pat' pid' flags' Hin Hne.
    apply elem_of_app in Hin as [Hin|Hin]; [by eapply Hreg|].
    apply list_elem_of_singleton in Hin. injection Hin as -> -> ->.
    exists t. unfold SCPFACInitHashLookup in Elook. rewrite Hh in Elook.
    apply find_some in Elook as [Hin Hid]. split.
    - unfold bucket, bucket_of. rewrite Hh. by apply list_elem_of_In.
    - by apply Z.eqb_eq. }
  cbn [add_ctx].
  set (p := mkPattern _ _ _ _ _ _).
  assert (SCPFACInitHash p = bucket_of pat) as Hbucket by reflexivity.
  pose proof (bucket_of_range pat) as Hrange.
  set (h' := set h (bucket_of pat) (get [] h (bucket_of pat) ++ [p])).
  assert (forall i, bucket (mkMpmCtx
            (u32 (pattern_cnt m + 1))
            (if minlen m =? 0 then Z.of_nat (length pat)
             else if Z.of_nat (length pat) <? minlen m
                  then Z.of_nat (length pat) else minlen m)
            (if maxlen m <? Z.of_nat (length pat)
             then Z.of_nat (length pat) else maxlen m)
            (SCPFACInitHashAdd (init_hash m) p)
            (parray m) (state_count m) (state_table_u16 m)
            (state_table_u32 m) (goto_table m) (output_table m)
            (pid_pat_list m) (single_state_size m)
            (if max_pat_id m <? pid then pid else max_pat_id m)) i
          = get [] h' i) as Hb'.
  { intros i. unfold bucket. cbn [init_hash]. rewrite Hh.
    unfold SCPFACInitHashAdd. by rewrite Hbucket. }
  split.
  { exists h'. split;
      [cbn [init_hash]; rewrite Hh; unfold SCPFACInitHashAdd;
       by rewrite Hbucket|].
    unfold h'. by rewrite length_set. }
  intros pat' pid' flags' Hin Hne. rewrite Hb'.
  assert (forall q, q ∈ get [] h (bucket_of pat') ->
            q ∈ get [] h' (bucket_of pat')) as Hmono.
  { intros q Hq. unfold h'.
    destruct (decide (Z.to_nat (bucket_of pat) = Z.to_nat (bucket_of pat')))
      as [Heq|Hneq].
    - assert (bucket_of pat' = bucket_of pat) as Hsame
        by (pose proof (bucket_of_range pat'); lia).
      rewrite Hsame in *.
      rewrite get_set_eq by (rewrite Hlen; unfold INIT_HASH_SIZE in *; lia).
      apply elem_of_app. by left.
    - by rewrite get_set_ne. }
  apply elem_of_app in Hin as [Hin|Hin].
  - destruct (Hreg _ _ _ Hin Hne) as (q & Hq & Hid).
    exists q. split; [|done]. apply Hmono.
    unfold bucket in Hq. by rewrite Hh in Hq.
  - apply list_elem_of_singleton in Hin. injection Hin as -> -> ->.
    exists p. split; [|done]. unfold h'.
    rewrite get_set_eq by (rewrite Hlen; unfold INIT_HASH_SIZE in *; lia).
    apply elem_of_app. right. by apply list_elem_of_singleton.
Qed.

Lemma register_all_registered rs : forall m rs0,
  registered m rs0 -> registered (register_all rs m) (rs0 ++ rs).
Proof.
  induction rs as [|r rs IH]; intros m rs0 H.
  - by rewrite app_nil_r.
  - replace (rs0 ++ r :: rs) with ((rs0 ++ [r]) ++ rs)
      by (by rewrite <- app_assoc).
    apply IH. by apply register_registered.
Qed.

Lemma SCPFACInitCtx_registered : registered SCPFACInitCtx [].
Proof.
  split.
  - eexists. split; [reflexivity|]. apply length_replicate.
  - intros pat pid flags Hin. by apply elem_of_nil in Hin.
Qed.

Lemma register_all_app rs1 rs2 m :
  register_all (rs1 ++ rs2) m = register_all rs2 (register_all rs1 m).
Proof. apply fold_left_app. Qed.

(** C9. Registering a pattern of length 0 returns 0, logs one warning and
    nothing else, and leaves the context as it was: no pattern is inserted
    and pattern_cnt, minlen, maxlen and max_pat_id keep their values.  The
    entry points SCPFACAddPatternCI and SCPFACAddPatternCS behave alike. *)
Theorem register_length_zero m pid flags :
  SCPFACAddPattern m [] pid flags =
    mkAddResult 0 m [LogWarning "pattern length 0"] /\
  SCPFACAddPatternCI m [] pid flags =
    mkAddResult 0 m [LogWarning "pattern length 0"] /\
  SCPFACAddPatternCS m [] pid flags =
    mkAddResult 0 m [LogWarning "pattern length 0"] /\
  let m' := add_ctx (SCPFACAddPattern m [] pid flags) in
  init_hash m' = init_hash m /\ pattern_cnt m' = pattern_cnt m /\
  minlen m' = minlen m /\ maxlen m' = maxlen m /\
  max_pat_id m' = max_pat_id m.
Proof. by repeat split. Qed.

(** ** The sink *)

Lemma pmq_bit_is_set_testbit pmq i :
  pmq_bit_is_set pmq i =
  Z.testbit (get 0 (pattern_id_bitarray pmq) (i / 8)) (i mod 8).
Proof.
  unfold pmq_bit_is_set.
  assert (0 <= i mod 8 < 8) as Hk by (apply Z.mod_pos_bound; lia).
  rewrite Z.shiftl_1_l.
  destruct (Z.testbit _ (i mod 8)) eqn:E.
  - apply (land_pow2_nonzero _ (i mod 8)) in E; [|lia].
    apply Z.eqb_neq in E. by rewrite E.
  - rewrite land_pow2_testbit, E by lia. done.
Qed.

Lemma pmq_record_bit pmq pid i :
  0 <= pid -> 0 <= i ->
  pid / 8 < Z.of_nat (length (pattern_id_bitarray pmq)) ->
  pmq_bit_is_set pmq pid = false ->
  pmq_bit_is_set (pmq_record pmq pid) i =
    pmq_bit_is_set pmq i || bool_decide (i = pid).
Proof.
  intros Hpid Hi Hlen Hclear. unfold pmq_record. rewrite Hclear.
  rewrite !pmq_bit_is_set_testbit. cbn [pattern_id_bitarray].
  assert (0 <= i mod 8 < 8) as Hk by (apply Z.mod_pos_bound; lia).
  assert (0 <= pid mod 8 < 8) as Hk' by (apply Z.mod_pos_bound; lia).
  assert (0 <= i / 8) as Hq by (apply Z.div_pos; lia).
  assert (0 <= pid / 8) as Hq' by (apply Z.div_pos; lia).
  destruct (decide (i / 8 = pid / 8)) as [Hsame|Hdiff].
  - rewrite Hsame. rewrite get_set_eq by lia.
    unfold u8. rewrite Z.mod_pow2_bits_low by lia.
    rewrite Z.lor_spec, Z.shiftl_1_l, Z.pow2_bits_eqb by lia.
    f_equal.
    destruct (Z.eqb_spec (pid mod 8) (i mod 8)) as [Hm|Hm].
    + symmetry. apply bool_decide_eq_true.
      rewrite (Z.div_mod i 8), (Z.div_mod pid 8) by lia. lia.
    + symmetry. apply bool_decide_eq_false. intros ->. done.
  - rewrite get_set_ne by lia.
    rewrite (bool_decide_eq_false_2 (i = pid)); [by rewrite orb_false_r|].
    intros ->. done.
Qed.

Lemma pmq_record_consistent pmq pid :
  0 <= pid -> pid / 8 < Z.of_nat (length (pattern_id_bitarray pmq)) ->
  pmq_consistent pmq ->
  pmq_consistent (pmq_record pmq pid) /\
  length (pattern_id_bitarray (pmq_record pmq pid)) =
    length (pattern_id_bitarray pmq).
Proof.
  intros Hpid Hlen [Hnd Hbits].
  destruct (pmq_bit_is_set pmq pid) eqn:E.
  { unfold pmq_record. rewrite E. split; [by split|done]. }
  split.
  - split.
    + unfold pmq_record. rewrite E. cbn [pattern_id_array].
      apply NoDup_app. split; [exact Hnd|]. split; [|apply NoDup_singleton].
      intros x Hx Hx'. apply list_elem_of_singleton in Hx'. subst x.
      apply Hbits in Hx; [|done]. congruence.
    + intros i Hi. rewrite pmq_record_bit by done.
      unfold pmq_record. rewrite E. cbn [pattern_id_array].
      rewrite elem_of_app, list_elem_of_singleton, orb_true_iff,
        bool_decide_eq_true.
      by rewrite Hbits.
  - unfold pmq_record. rewrite E. cbn [pattern_id_bitarray].
    apply length_set.
Qed.

Lemma sink_inv_record m pmq row pid :
  row ∈ output_table m -> pid ∈ row -> sink_inv m pmq ->
  sink_inv m (pmq_record pmq (recorded_id pid)).
Proof.
  intros Hrow Hpid [Hc Hcov].
  destruct (Hcov row pid Hrow Hpid) as [H0 Hlen].
  destruct (pmq_record_consistent pmq _ H0 Hlen Hc) as [Hc' Hl'].
  split; [exact Hc'|]. intros row' pid' Hrow' Hpid'. rewrite Hl'.
  by apply (Hcov row' pid').
Qed.

Lemma emit_pids_u16_inv m buf i row pids : forall pmq,
  row ∈ output_table m -> (forall pid, pid ∈ pids -> pid ∈ row) ->
  sink_inv m pmq ->
  sink_inv m (emit_pids_u16 (pid_pat_list m) buf i pids pmq).
Proof.
  induction pids as [|pid rest IH]; intros pmq Hrow Hsub Hinv; simpl;
    [exact Hinv|].
  assert (pid ∈ row) as Hpid by (apply Hsub; apply list_elem_of_here).
  assert (forall pid, pid ∈ rest -> pid ∈ row) as Hsub'
    by (intros; apply Hsub; by apply list_elem_of_further).
  pose proof (sink_inv_record m pmq row pid Hrow Hpid Hinv) as Hrec.
  unfold recorded_id in Hrec.
  destruct (negb (Z.land pid 0xFFFF0000 =? 0)).
  - destruct (negb (SCMemcmp _ _ _ _ =? 0)); [exact Hinv|by apply IH].
  - by apply IH.
Qed.

Lemma emit_pids_u32_inv m buf i row pids : forall acc,
  row ∈ output_table m -> (forall pid, pid ∈ pids -> pid ∈ row) ->
  sink_inv m acc.2 ->
  sink_inv m (emit_pids_u32 (pid_pat_list m) buf i pids acc).2.
Proof.
  induction pids as [|pid rest IH]; intros acc Hrow Hsub Hinv; simpl;
    [exact Hinv|].
  assert (pid ∈ row) as Hpid by (apply Hsub; apply list_elem_of_here).
  assert (forall pid, pid ∈ rest -> pid ∈ row) as Hsub'
    by (intros; apply Hsub; by apply list_elem_of_further).
  pose proof (sink_inv_record m acc.2 row pid Hrow Hpid Hinv) as Hrec.
  unfold recorded_id in Hrec.
  destruct (negb (Z.land pid 0xFFFF0000 =? 0)).
  - destruct (negb (SCMemcmp _ _ _ _ =? 0)); [exact Hinv|by apply IH].
  - by apply IH.
Qed.

Lemma get_row_cases (o : list (list Z)) s :
  get [] o s = [] \/ get [] o s ∈ o.
Proof.
  unfold get. destruct (o !! Z.to_nat s) as [row|] eqn:E; simpl.
  - right. by eapply list_elem_of_lookup_2.
  - by left.
Qed.

Lemma search_inner_u16_inv m buf i n : forall j st,
  sink_inv m (s_pmq st) ->
  sink_inv m (s_pmq (search_inner_u16 m buf i n j st)).
Proof.
  induction n as [|n IH]; intros j st Hinv; simpl; [exact Hinv|].
  destruct (_ =? 0); [exact Hinv|].
  destruct (negb (Z.land _ 0x8000 =? 0)); apply IH; cbn [s_pmq];
    [|exact Hinv].
  destruct (get_row_cases (output_table m)
              (Z.land (get2 (state_table_u16 m) (Z.land (s_state st) 0x7FFF)
                         (u8_tolower (buf j))) 0x7FFF)) as [->|Hrow].
  - exact Hinv.
  - by eapply emit_pids_u16_inv.
Qed.

Lemma search_outer_u16_inv m buf buflen n : forall i st,
  sink_inv m (s_pmq st) ->
  sink_inv m (s_pmq (search_outer_u16 m buf buflen n i st)).
Proof.
  induction n as [|n IH]; intros i st Hinv; simpl; [exact Hinv|].
  apply IH. by apply search_inner_u16_inv.
Qed.

Lemma search_inner_u32_inv m buf i n : forall st,
  sink_inv m (s_pmq st) ->
  sink_inv m (s_pmq (search_inner_u32 m buf i n st)).
Proof.
  induction n as [|n IH]; intros st Hinv; simpl; [exact Hinv|].
  destruct (negb (Z.land _ 0xFF000000 =? 0)); apply IH; cbn [s_pmq];
    [|exact Hinv].
  destruct (get_row_cases (output_table m)
              (Z.land (get2 (state_table_u32 m)
                         (Z.land (s_state st) 0x00FFFFFF)
                         (u8_tolower (buf i))) 0x00FFFFFF)) as [->|Hrow].
  - exact Hinv.
  - by eapply (emit_pids_u32_inv m buf i _ _ (s_matches st, s_pmq st)).
Qed.

Lemma search_outer_u32_inv m buf buflen n : forall i st,
  sink_inv m (s_pmq st) ->
  sink_inv m (s_pmq (search_outer_u32 m buf buflen n i st)).
Proof.
  induction n as [|n IH]; intros i st Hinv; simpl; [exact Hinv|].
  apply IH. by apply search_inner_u32_inv.
Qed.

(** C8. Whatever the context and the buffer, a scan that starts with a sink
    whose list and bit array agree (as after its setup) ends with one: each
    pid occurs in pattern_id_array at most once, and the bit of an id is
    set in pattern_id_bitarray if and only if the id occurs in
    pattern_id_array. *)
Theorem search_sink_consistent m pmq buf buflen :
  pmq_consistent pmq -> pmq_covers m pmq ->
  let pmq' := (SCPFACSearch m pmq buf buflen).2 in
  NoDup (pattern_id_array pmq') /\
  forall i, 0 <= i ->
    (pmq_bit_is_set pmq' i = true <-> i ∈ pattern_id_array pmq').
Proof.
  intros Hc Hcov. unfold SCPFACSearch. cbn [snd].
  assert (sink_inv m (s_pmq (mkSearch 0 0 pmq))) as Hinv by (by split).
  destruct (state_count m <? 32767).
  - by destruct (search_outer_u16_inv m buf buflen (Z.to_nat buflen) 0 _ Hinv)
      as [Hc' _].
  - by destruct (search_outer_u32_inv m buf buflen (Z.to_nat buflen) 0 _ Hinv)
      as [Hc' _].
Qed.

(** ** Termination of the breadth-first loops *)

Lemma weight_pos count u : 1 <= weight count u.
Proof.
  unfold weight. pose proof (Z.pow_pos_nonneg 257 (Z.max 0 (count - u))).
  lia.
Qed.

Lemma weight_step count r u :
  r < u -> u <= count -> 257 * weight count u <= weight count r.
Proof.
  intros Hru Huc. unfold weight.
  rewrite !Z.max_r by lia.
  replace (count - r) with (Z.succ (count - u) + (u - r - 1)) by lia.
  rewrite Z.pow_add_r, Z.pow_succ_r by lia.
  pose proof (Z.pow_pos_nonneg 257 (count - u)).
  pose proof (Z.pow_pos_nonneg 257 (u - r - 1)).
  nia.
Qed.

Lemma total_app l1 l2 : total (l1 ++ l2) = total l1 + total l2.
Proof. induction l1 as [|x l1 IH]; simpl; lia. Qed.

Lemma total_weights_nonneg count l : 0 <= total (weight count <$> l).
Proof.
  induction l as [|x l IH]; [done|].
  rewrite fmap_cons. cbn [total].
  pose proof (weight_pos count x). lia.
Qed.

Lemma ring_mod x :
  0 <= x < 2 * 65536 -> x mod 65536 = if x <? 65536 then x else x - 65536.
Proof.
  intros Hx. destruct (Z.ltb_spec x 65536).
  - apply Z.mod_small. lia.
  - symmetry. apply (Z.mod_unique x 65536 1); lia.
Qed.

Lemma ring_mod_diff x :
  - 65536 < x < 65536 -> x mod 65536 = if 0 <=? x then x else x + 65536.
Proof.
  intros Hx. destruct (Z.leb_spec 0 x).
  - apply Z.mod_small. lia.
  - symmetry. apply (Z.mod_unique x 65536 (-1)); lia.
Qed.

Lemma q_head_range q :
  queue_ok q -> 0 <= q_head q < STATE_QUEUE_CONTAINER_SIZE.
Proof.
  intros (_ & _ & Hb). unfold q_head, STATE_QUEUE_CONTAINER_SIZE in *.
  destruct (Z.eqb_spec (q_bot q) 65536); lia.
Qed.

Lemma q_count_range q :
  0 <= q_count q < STATE_QUEUE_CONTAINER_SIZE.
Proof. unfold q_count. apply Z.mod_pos_bound. done. Qed.

Lemma fmap_seqZ_ext (f g : Z -> Z) m n :
  (forall k, m <= k < m + n -> f k = g k) -> f <$> seqZ m n = g <$> seqZ m n.
Proof.
  intros H. apply list_fmap_ext. intros i k Hk.
  apply lookup_seqZ in Hk as [-> Hi]. apply H. lia.
Qed.

Lemma SCPFACDequeue_pending q r q' :
  queue_ok q -> SCPFACDequeue q = Ok (r, q') ->
  queue_ok q' /\ q_pending q = r :: q_pending q'.
Proof.
  intros Hok Hrun. pose proof (q_head_range q Hok) as Hh.
  destruct Hok as (Hlen & Ht & Hb).
  unfold SCPFACDequeue in Hrun. fold (q_head q) in Hrun.
  destruct (Z.eqb_spec (q_head q) (q_top q)) as [|Hne]; [discriminate|].
  injection Hrun as <- <-.
  unfold STATE_QUEUE_CONTAINER_SIZE in *.
  split; [unfold queue_ok, STATE_QUEUE_CONTAINER_SIZE;
          cbn [q_store q_top q_bot]; lia|].
  assert (q_head (mkQueue (q_store q) (q_top q) (q_head q + 1))
          = (q_head q + 1) mod 65536) as Hh'.
  { unfold q_head at 1. cbn [q_bot]. unfold STATE_QUEUE_CONTAINER_SIZE.
    rewrite ring_mod by lia.
    destruct (Z.eqb_spec (q_head q + 1) 65536);
      destruct (Z.ltb_spec (q_head q + 1) 65536); lia. }
  assert (q_count q
          = Z.succ (q_count (mkQueue (q_store q) (q_top q) (q_head q + 1))))
    as Hc.
  { unfold q_count. rewrite Hh'. cbn [q_top].
    unfold STATE_QUEUE_CONTAINER_SIZE.
    rewrite (ring_mod (q_head q + 1)) by lia.
    rewrite !ring_mod_diff by (destruct (Z.ltb_spec (q_head q + 1) 65536); lia).
    destruct (Z.ltb_spec (q_head q + 1) 65536);
      repeat match goal with |- context [?a <=? ?b] =>
               destruct (Z.leb_spec a b) end; lia. }
  unfold q_pending. rewrite Hc.
  pose proof (q_count_range (mkQueue (q_store q) (q_top q) (q_head q + 1)))
    as Hc'.
  rewrite seqZ_cons by lia. rewrite Z.pred_succ. cbn [fmap list_fmap].
  f_equal.
  - unfold q_slot. rewrite Z.add_0_r.
    unfold STATE_QUEUE_CONTAINER_SIZE. by rewrite Z.mod_small by lia.
  - change (Z.succ 0) with (1 + 0). rewrite <- fmap_add_seqZ.
    rewrite <- list_fmap_compose. apply fmap_seqZ_ext.
    intros k Hk. unfold compose, q_slot. cbn [q_store]. rewrite Hh'.
    unfold STATE_QUEUE_CONTAINER_SIZE.
    f_equal. rewrite Zplus_mod_idemp_l. f_equal. lia.
Qed.

Ltac ring_cases :=
  repeat match goal with
         | |- context [?a <? ?b] => destruct (Z.ltb_spec a b)
         | |- context [?a <=? ?b] => destruct (Z.leb_spec a b)
         | |- context [?a =? ?b] => destruct (Z.eqb_spec a b)
         | H : context [?a <? ?b] |- _ => destruct (Z.ltb_spec a b)
         | H : context [?a <=? ?b] |- _ => destruct (Z.leb_spec a b)
         | H : context [?a =? ?b] |- _ => destruct (Z.eqb_spec a b)
         end;
  try lia.

Lemma SCPFACEnqueue_waiting q s :
  queue_ok q ->
  existsb (fun i => get 0 (q_store q) i =? s)
    (seqZ (q_bot q) (q_top q - q_bot q)) = true ->
  s ∈ q_pending q.
Proof.
  intros (Hlen & Ht & Hb) Ex.
  apply existsb_exists in Ex as (x & Hx & E). apply Z.eqb_eq in E.
  apply list_elem_of_In, elem_of_seqZ in Hx.
  unfold STATE_QUEUE_CONTAINER_SIZE in *.
  assert (q_head q = q_bot q) as Hh
    by (unfold q_head, STATE_QUEUE_CONTAINER_SIZE;
        destruct (Z.eqb_spec (q_bot q) 65536); lia).
  assert (q_count q = q_top q - q_bot q) as Hc
    by (unfold q_count, STATE_QUEUE_CONTAINER_SIZE; rewrite Hh;
        apply Z.mod_small; lia).
  unfold q_pending. apply list_elem_of_fmap. exists (x - q_bot q).
  split; [|apply elem_of_seqZ; lia].
  unfold q_slot, STATE_QUEUE_CONTAINER_SIZE. rewrite Hh, <- E. f_equal.
  rewrite Z.mod_small; lia.
Qed.

Lemma SCPFACEnqueue_pending q s q' :
  queue_ok q -> SCPFACEnqueue q s = Ok q' ->
  queue_ok q' /\
  (q' = q /\ s ∈ q_pending q \/ q_pending q' = q_pending q ++ [s] \/
   q_pending q' = [] /\ q_count q = 65535).
Proof.
  intros Hok Hrun. pose proof (q_head_range q Hok) as Hh.
  pose proof (q_count_range q) as Hc. pose proof Hok as (Hlen & Ht & Hb).
  unfold SCPFACEnqueue in Hrun.
  destruct (existsb _ _) eqn:Ex.
  { injection Hrun as <-. split; [done|]. left. split; [done|].
    by apply SCPFACEnqueue_waiting. }
  set (top' := if q_top q + 1 =? STATE_QUEUE_CONTAINER_SIZE then 0
               else q_top q + 1) in *.
  destruct (Z.eqb_spec top' (q_bot q)) as [|Hne]; [discriminate|].
  injection Hrun as <-.
  unfold STATE_QUEUE_CONTAINER_SIZE in *.
  assert (0 <= top' < 65536) as Ht' by (unfold top'; ring_cases).
  split.
  { unfold queue_ok, STATE_QUEUE_CONTAINER_SIZE. cbn [q_store q_top q_bot].
    rewrite length_set. lia. }
  set (q1 := mkQueue (set (q_store q) (q_top q) s) top' (q_bot q)).
  assert (q_head q1 = q_head q) as Hh1 by reflexivity.
  assert (q_count q = if q_head q <=? q_top q then q_top q - q_head q
                      else q_top q - q_head q + 65536) as Hcq.
  { unfold q_count, STATE_QUEUE_CONTAINER_SIZE.
    rewrite ring_mod_diff by lia. ring_cases. }
  destruct (decide (q_count q = 65535)) as [Hfull|Hroom].
  - right. right. split; [|exact Hfull]. unfold q_pending.
    assert (q_count q1 = 0) as ->; [|done].
    unfold q_count, STATE_QUEUE_CONTAINER_SIZE. rewrite Hh1.
    cbn [q_top q1]. rewrite ring_mod_diff by lia.
    unfold top'. rewrite Hcq in Hfull. ring_cases.
  - right. left. unfold q_pending.
    assert (q_count q1 = q_count q + 1) as ->.
    { unfold q_count at 1. unfold STATE_QUEUE_CONTAINER_SIZE. rewrite Hh1.
      cbn [q_top q1]. rewrite ring_mod_diff by lia.
      unfold top'. rewrite Hcq in *. ring_cases. }
    rewrite seqZ_app by lia. rewrite fmap_app. f_equal.
    + apply fmap_seqZ_ext. intros k Hk. unfold q_slot. rewrite Hh1.
      cbn [q_store q1]. apply get_set_ne.
      unfold STATE_QUEUE_CONTAINER_SIZE. rewrite ring_mod by lia.
      rewrite Hcq in *. ring_cases.
    + rewrite seqZ_cons by lia. rewrite seqZ_nil by lia.
      cbn [fmap list_fmap]. f_equal. unfold q_slot. rewrite Hh1.
      cbn [q_store q1].
      assert ((q_head q + (0 + q_count q)) mod STATE_QUEUE_CONTAINER_SIZE
              = q_top q) as ->.
      { unfold STATE_QUEUE_CONTAINER_SIZE. rewrite ring_mod by lia.
        rewrite Hcq in *. ring_cases. }
      apply get_set_eq. lia.
Qed.

Lemma SCPFACEnqueue_weight count q s q' :
  queue_ok q -> SCPFACEnqueue q s = Ok q' ->
  queue_ok q' /\
  (forall P : Z -> Prop, P s -> Forall P (q_pending q) ->
     Forall P (q_pending q')) /\
  q_weight count q' <= q_weight count q + weight count s.
Proof.
  intros Hok Hrun.
  destruct (SCPFACEnqueue_pending q s q' Hok Hrun) as [Hok' Hp].
  split; [exact Hok'|]. unfold q_weight.
  pose proof (weight_pos count s).
  pose proof (total_weights_nonneg count (q_pending q)).
  destruct Hp as [[-> _]|[->|[-> _]]].
  - split; [done|lia].
  - split.
    + intros P Hs HP. apply Forall_app. split; [done|by apply Forall_singleton].
    + rewrite fmap_app, total_app. cbn [fmap list_fmap total]. lia.
  - split; [intros; constructor|]. cbn [fmap list_fmap total]. lia.
Qed.

Lemma bind_returns {A B} (r : result A) (k : A -> result B) :
  returns r -> (forall a, r = Ok a -> returns (k a)) -> returns (r ≫= k).
Proof. destruct r as [a| |]; intros Hr Hk; [by apply Hk|done|done]. Qed.

Lemma foldM_returns {A S} (f : S -> A -> result S) l :
  (forall s a, returns (f s a)) -> forall s, returns (foldM f l s).
Proof.
  intros Hf. induction l as [|a l IH]; intros s; [done|].
  cbn [foldM]. apply bind_returns; [apply Hf|]. intros s' _. apply IH.
Qed.

Lemma SCPFACEnqueue_returns q s : returns (SCPFACEnqueue q s).
Proof.
  unfold SCPFACEnqueue. destruct (existsb _ _); [done|].
  by destruct (_ =? q_bot q).
Qed.

Lemma SCPFACDequeue_returns q : returns (SCPFACDequeue q).
Proof. unfold SCPFACDequeue. by destruct (_ =? q_top q). Qed.

Lemma delta_cell_step_returns cast g r qt a :
  returns (delta_cell_step cast g r qt a).
Proof.
  unfold delta_cell_step. destruct (negb _); [|done].
  apply bind_returns; [apply SCPFACEnqueue_returns|done].
Qed.

Lemma delta_root_step_returns cast g qt a :
  returns (delta_root_step cast g qt a).
Proof.
  unfold delta_root_step. destruct (negb _); [|done].
  apply bind_returns; [apply SCPFACEnqueue_returns|done].
Qed.

Lemma SCPFACInitNewState_returns m : returns (SCPFACInitNewState m).
Proof. unfold SCPFACInitNewState. by destruct (_ <? 0). Qed.

Lemma enter_extend_returns suffix : forall m state,
  returns (enter_extend m state suffix).
Proof.
  induction suffix as [|c rest IH]; intros m state; [done|].
  cbn [enter_extend]. apply bind_returns; [apply SCPFACInitNewState_returns|].
  intros [n m1] _. apply IH.
Qed.

Lemma SCPFACEnter_returns pattern len pid m :
  returns (SCPFACEnter pattern len pid m).
Proof.
  unfold SCPFACEnter. destruct (enter_walk _ _ _) as [state rest].
  apply bind_returns; [apply enter_extend_returns|]. by intros [st m1] _.
Qed.

Lemma SCPFACBuildGoto_returns m : returns (SCPFACBuildGoto m).
Proof.
  unfold SCPFACBuildGoto.
  apply bind_returns; [apply SCPFACInitNewState_returns|]. intros [n m0] _.
  apply bind_returns.
  - unfold SCPFACDetermineLevel1Gap. apply foldM_returns. intros s u.
    destruct (_ =? 0); [done|].
    apply bind_returns; [apply SCPFACInitNewState_returns|]. by intros [? ?] _.
  - intros m1 _. unfold SCPFACCreateGotoTable.
    apply bind_returns; [|done]. apply foldM_returns.
    intros s p. apply SCPFACEnter_returns.
Qed.

Lemma weight_mono count u v : u <= v -> weight count v <= weight count u.
Proof. intros H. unfold weight. apply Z.pow_le_mono_r; lia. Qed.

(** The inner loop over the bytes of a dequeued state adds at most its
    transitions to the queue; they lead to states created later. *)
Lemma delta_row_weight cast g count r l : forall q t q' t',
  (forall b, b ∈ l ->
     get2 g r b = SC_PFAC_FAIL \/ r < get2 g r b < count) ->
  1 <= r ->
  queue_ok q -> Forall (waiting count) (q_pending q) ->
  foldM (delta_cell_step cast g r) l (q, t) = Ok (q', t') ->
  queue_ok q' /\ Forall (waiting count) (q_pending q') /\
  257 * q_weight count q' <=
    257 * q_weight count q + Z.of_nat (length l) * weight count r.
Proof.
  induction l as [|b l IH]; intros q t q' t' Hedges Hr Hok Hw Hrun.
  - injection Hrun as <- <-. cbn [length]. split; [done|]. split; [done|lia].
  - cbn [foldM] in Hrun. apply bind_Ok in Hrun as ([q1 t1] & Hstep & Hrun).
    assert (queue_ok q1 /\ Forall (waiting count) (q_pending q1) /\
            257 * q_weight count q1 <=
              257 * q_weight count q + weight count r) as (Hok1 & Hw1 & Hle).
    { unfold delta_cell_step in Hstep. cbn [fst snd] in Hstep.
      pose proof (weight_pos count r).
      destruct (Z.eqb_spec (get2 g r b) SC_PFAC_FAIL) as [|Hnf];
        cbn [negb] in Hstep.
      - injection Hstep as <- <-. split; [done|]. split; [done|lia].
      - apply bind_Ok in Hstep as (q2 & Henq & Hstep).
        injection Hstep as <- <-.
        destruct (Hedges b (list_elem_of_here _ _)) as [?|Hup]; [done|].
        destruct (SCPFACEnqueue_weight count _ _ _ Hok Henq)
          as (Hok2 & Hall & Hle2).
        split; [done|]. split; [apply Hall; [unfold waiting; lia|done]|].
        pose proof (weight_step count r (get2 g r b)
                      ltac:(lia) ltac:(lia)). lia. }
    destruct (IH q1 t1 q' t'
                ltac:(intros; apply Hedges; by apply list_elem_of_further)
                Hr Hok1 Hw1 Hrun) as (Hok' & Hw' & Hle').
    split; [done|]. split; [done|].
    cbn [length]. rewrite Nat2Z.inj_succ. lia.
Qed.

Lemma delta_bfs_returns cast g count fuel : forall q t,
  (forall r b, 1 <= r < count -> 0 <= b < 256 ->
     get2 g r b = SC_PFAC_FAIL \/ r < get2 g r b < count) ->
  queue_ok q -> Forall (waiting count) (q_pending q) ->
  q_weight count q < Z.of_nat fuel ->
  returns (delta_bfs fuel cast g q t).
Proof.
  induction fuel as [|fuel IH]; intros q t Hedges Hok Hw Hfuel.
  - pose proof (total_weights_nonneg count (q_pending q)).
    unfold q_weight in Hfuel. lia.
  - rewrite delta_bfs_S. destruct (SCPFACStateQueueIsEmpty q); [done|].
    apply bind_returns; [apply SCPFACDequeue_returns|].
    intros [r q1] Hdeq.
    destruct (SCPFACDequeue_pending _ _ _ Hok Hdeq) as [Hok1 Hp].
    rewrite Hp in Hw. apply Forall_cons in Hw as [Hr Hw1].
    apply bind_returns;
      [apply foldM_returns; intros; apply delta_cell_step_returns|].
    intros [q2 t2] Hrow.
    destruct (delta_row_weight cast g count r (seqZ 0 256) q1 t q2 t2)
      as (Hok2 & Hw2 & Hle); try done.
    { intros b Hb. apply Hedges; [exact Hr|by apply seqZ_256_range]. }
    { unfold waiting in Hr. lia. }
    apply IH; try done.
    rewrite length_seqZ in Hle.
    assert (q_weight count q = weight count r + q_weight count q1) as Hq.
    { unfold q_weight. rewrite Hp. by rewrite fmap_cons. }
    pose proof (weight_pos count r). lia.
Qed.

Lemma cast_ok_u16 : cast_ok u16.
Proof.
  intros v Hv. unfold u16. split; [apply Z.mod_pos_bound; lia|].
  apply Z.mod_le; lia.
Qed.

Lemma cast_ok_u32 : cast_ok u32.
Proof.
  intros v Hv. unfold u32. split; [apply Z.mod_pos_bound; lia|].
  apply Z.mod_le; lia.
Qed.

Lemma StateQueue_zero_ok count :
  queue_ok StateQueue_zero /\ q_pending StateQueue_zero = [] /\
  q_weight count StateQueue_zero = 0.
Proof.
  split; [|by split].
  unfold queue_ok, StateQueue_zero, STATE_QUEUE_CONTAINER_SIZE.
  cbn [q_store q_top q_bot]. rewrite length_replicate. lia.
Qed.

Lemma delta_root_weight cast g count l : forall q t q' t',
  cast_ok cast -> 1 <= count < 2 ^ 31 ->
  (forall b, b ∈ l -> 0 <= get2 g 0 b < count) ->
  queue_ok q -> Forall (waiting count) (q_pending q) ->
  foldM (delta_root_step cast g) l (q, t) = Ok (q', t') ->
  queue_ok q' /\ Forall (waiting count) (q_pending q') /\
  q_weight count q' <=
    q_weight count q + Z.of_nat (length l) * weight count 1.
Proof.
  intros q t q' t' Hcast Hcount. revert q t.
  induction l as [|b l IH]; intros q t Hcells Hok Hw Hrun.
  - injection Hrun as <- <-. cbn [length]. split; [done|]. split; [done|lia].
  - cbn [foldM] in Hrun. apply bind_Ok in Hrun as ([q1 t1] & Hstep & Hrun).
    assert (queue_ok q1 /\ Forall (waiting count) (q_pending q1) /\
            q_weight count q1 <= q_weight count q + weight count 1)
      as (Hok1 & Hw1 & Hle).
    { unfold delta_root_step in Hstep. cbn [fst snd] in Hstep.
      pose proof (weight_pos count 1).
      pose proof (Hcells b (list_elem_of_here _ _)) as Hb.
      pose proof (Hcast (get2 g 0 b) ltac:(lia)) as Hcb.
      destruct (Z.eqb_spec (cast (get2 g 0 b)) 0) as [|Hnz];
        cbn [negb] in Hstep.
      - injection Hstep as <- _. split; [done|]. split; [done|lia].
      - apply bind_Ok in Hstep as (q2 & Henq & Hstep).
        injection Hstep as <- _.
        rewrite i32_small in Henq by lia.
        destruct (SCPFACEnqueue_weight count _ _ _ Hok Henq)
          as (Hok2 & Hall & Hle2).
        split; [done|]. split; [apply Hall; [unfold waiting; lia|done]|].
        pose proof (weight_mono count 1 (cast (get2 g 0 b)) ltac:(lia)).
        lia. }
    destruct (IH q1 t1
                ltac:(intros; apply Hcells; by apply list_elem_of_further)
                Hok1 Hw1 Hrun) as (Hok' & Hw' & Hle').
    split; [done|]. split; [done|].
    cbn [length]. rewrite Nat2Z.inj_succ. lia.
Qed.

(** The goto table of a context read at C integers. *)
Lemma goto_final_edges m r b :
  goto_final m -> 1 <= r < state_count m -> 0 <= b < 256 ->
  get2 (goto_table m) r b = SC_PFAC_FAIL \/
  r < get2 (goto_table m) r b < state_count m.
Proof.
  intros Hf Hr Hb. rewrite get2_cell.
  destruct (gf_inner _ Hf (Z.to_nat r) (Z.to_nat b)
              ltac:(rewrite (gf_goto_len _ Hf); lia) ltac:(lia)) as [?|?];
    [by left|right; lia].
Qed.

Lemma goto_final_root m b :
  goto_final m -> 0 <= b < 256 ->
  0 <= get2 (goto_table m) 0 b < state_count m.
Proof.
  intros Hf Hb. rewrite get2_cell. pose proof (gf_count _ Hf).
  destruct (gf_cells _ Hf (Z.to_nat 0) (Z.to_nat b)
              ltac:(rewrite (gf_goto_len _ Hf); lia) ltac:(lia)) as [Hfail|?];
    [|done].
  exfalso. revert Hfail. apply (gf_root _ Hf). lia.
Qed.

(** With fuel above 257 ^ state_count the breadth-first construction of a
    state table ends. *)
Lemma build_state_table_returns fuel cast m :
  goto_final m -> cast_ok cast ->
  weight (state_count m) 0 <= Z.of_nat fuel ->
  returns (build_state_table fuel cast m).
Proof.
  intros Hf Hcast Hfuel. unfold build_state_table.
  pose proof (gf_count _ Hf) as Hcount.
  destruct (StateQueue_zero_ok (state_count m)) as (Hok0 & Hp0 & Hw0).
  apply bind_returns;
    [apply foldM_returns; intros; apply delta_root_step_returns|].
  intros [q t] Hroot.
  assert (forall b, b ∈ seqZ 0 256 ->
            0 <= get2 (goto_table m) 0 b < state_count m) as Hcells
    by (intros b Hb; apply goto_final_root; [done|by apply seqZ_256_range]).
  assert (Forall (waiting (state_count m)) (q_pending StateQueue_zero))
    as Hwait0 by (rewrite Hp0; constructor).
  destruct (delta_root_weight cast (goto_table m) (state_count m)
              (seqZ 0 256) StateQueue_zero _ q t Hcast ltac:(lia)
              Hcells Hok0 Hwait0 Hroot) as (Hok & Hw & Hle).
  apply (delta_bfs_returns cast (goto_table m) (state_count m)); try done.
  - intros r b. by apply goto_final_edges.
  - rewrite length_seqZ, Hw0 in Hle.
    pose proof (weight_step (state_count m) 0 1 ltac:(lia) ltac:(lia)).
    pose proof (weight_pos (state_count m) 1). lia.
Qed.

Lemma SCPFACFinishStateTable_returns fuel both m :
  goto_final m -> weight (state_count m) 0 <= Z.of_nat fuel ->
  returns (SCPFACFinishStateTable fuel both m).
Proof.
  intros Hf Hfuel. unfold SCPFACFinishStateTable.
  apply bind_returns; [|done]. unfold SCPFACCreateDeltaTable.
  apply bind_returns.
  - destruct (_ || both); [|done]. apply bind_returns; [|done].
    by apply build_state_table_returns; [|apply cast_ok_u16|].
  - intros m1 Hm1.
    destruct (negb (state_count m <? 32767) || both); [|by unfold returns].
    apply bind_returns; [|done].
    assert (build_state_table fuel u32 m1 = build_state_table fuel u32 m)
      as ->.
    { destruct ((state_count m <? 32767) || both); [|by injection Hm1 as <-].
      apply bind_Ok in Hm1 as (t & _ & Hm1). by injection Hm1 as <-. }
    by apply build_state_table_returns; [|apply cast_ok_u32|].
Qed.

(** X10. Prepare terminates: for every list of registrations there is an
    amount of fuel from which on the model of SCPFACPreparePatterns ends,
    with a compiled context or with exit(). *)
Theorem SCPFACPreparePatterns_returns both rs :
  exists fuel0, forall fuel, (fuel0 <= fuel)%nat ->
    returns (SCPFACPreparePatterns fuel both (register_all rs SCPFACInitCtx)).
Proof.
  pose proof (register_all_tables rs _ SCPFACInitCtx_tables) as Htab.
  unfold SCPFACPreparePatterns.
  destruct (init_hash (register_all rs SCPFACInitCtx)) as [h|];
    [|by exists 0%nat].
  destruct (_ =? 0); [by exists 0%nat|].
  unfold SCPFACPrepareStateTable.
  destruct (SCPFACBuildGoto
              (SCPFACPreparePatterns_setup (register_all rs SCPFACInitCtx) h))
    as [mg| |] eqn:Hg.
  - destruct (SCPFACBuildGoto_final _ _ (setup_fresh _ h Htab) Hg) as [Hf _].
    exists (Z.to_nat (weight (state_count mg) 0)). intros fuel Hfuel.
    apply bind_returns; [|done]. cbn [mbind result_bind].
    apply SCPFACFinishStateTable_returns; [done|].
    pose proof (weight_pos (state_count mg) 0). lia.
  - by exists 0%nat.
  - by destruct (SCPFACBuildGoto_returns
                   (SCPFACPreparePatterns_setup
                      (register_all rs SCPFACInitCtx) h)).
Qed.

(** ** Transitions have one origin *)

Lemma SCPFACInitNewState_inj m n m' :
  goto_wf m -> SCPFACInitNewState m = Ok (n, m') ->
  goto_inj (goto_table m) ->
  goto_inj (goto_table m') /\ unused (goto_table m') n.
Proof.
  intros Hwf Hrun Hinj.
  destruct (SCPFACInitNewState_spec _ _ _ Hwf Hrun)
    as (-> & Hsc & Hg & _ & _ & _ & _ & _ & _ & Hwf').
  pose proof (wf_count _ Hwf) as Hc.
  assert (forall s b, (s < length (goto_table m'))%nat -> (b < 256)%nat ->
            0 < cell (goto_table m') s b ->
            (s < length (goto_table m))%nat /\
            cell (goto_table m') s b = cell (goto_table m) s b) as Hold.
  { intros s b Hs Hb Hpos. rewrite Hg in *. rewrite length_app in Hs.
    cbn [length] in Hs.
    destruct (decide (s < length (goto_table m))%nat) as [Hlt|Hge].
    - split; [exact Hlt|]. by apply cell_app_l.
    - rewrite cell_app_new in Hpos by (done || lia). done. }
  split.
  - intros s b s' b' Hs Hb Hs' Hb' Hpos Heq.
    destruct (Hold s b Hs Hb Hpos) as [Hlt E].
    destruct (Hold s' b' Hs' Hb' ltac:(by rewrite <- Heq)) as [Hlt' E'].
    rewrite E in Hpos. rewrite E, E' in Heq. by apply Hinj.
  - intros s b Hs Hb Heq. rewrite Hg in *. rewrite length_app in Hs.
    cbn [length] in Hs.
    destruct (decide (s < length (goto_table m))%nat) as [Hlt|Hge].
    + rewrite cell_app_l in Heq by exact Hlt.
      destruct (wf_cells _ Hwf s b Hlt Hb) as [Hf|?]; [|lia].
      rewrite Hf in Heq. unfold SC_PFAC_FAIL in Heq. lia.
    + rewrite cell_app_new in Heq by (done || lia).
      unfold SC_PFAC_FAIL in Heq. lia.
Qed.

Lemma goto_inj_set2 g s c v :
  goto_inj g -> unused g v -> goto_inj (set2 g s c v).
Proof.
  intros Hinj Hun s1 b1 s2 b2 Hs1 Hb1 Hs2 Hb2 Hpos Heq.
  rewrite length_set2 in Hs1, Hs2.
  destruct (cell_set2_cases g s c v s1 b1) as [E1|(-> & -> & E1 & _)];
    destruct (cell_set2_cases g s c v s2 b2) as [E2|(-> & -> & E2 & _)];
    rewrite ?E1, ?E2 in Heq; rewrite ?E1 in Hpos.
  - by apply Hinj.
  - by destruct (Hun s1 b1 Hs1 Hb1).
  - by destruct (Hun s2 b2 Hs2 Hb2).
  - done.
Qed.

Lemma enter_extend_inj m0 suffix : forall m state st' m',
  building m0 m -> state < state_count m -> goto_inj (goto_table m) ->
  enter_extend m state suffix = Ok (st', m') ->
  goto_inj (goto_table m').
Proof.
  induction suffix as [|c rest IH]; intros m state st' m' Hb Hs Hinj Hrun;
    simpl in Hrun.
  - by injection Hrun as <- <-.
  - destruct (SCPFACInitNewState m) as [[n m1]| |] eqn:E; simpl in Hrun;
      try discriminate.
    destruct (building_new_state _ _ _ _ Hb E) as (Hb1 & Hn0 & Hn).
    destruct (SCPFACInitNewState_inj _ _ _ (proj1 Hb) E Hinj) as [Hinj1 Hun].
    eapply IH; [| | |exact Hrun].
    + apply building_set2; [exact Hb1|]. destruct Hb as (_ & H1 & _). lia.
    + ctx_simpl. lia.
    + ctx_simpl. by apply goto_inj_set2.
Qed.

Lemma SCPFACEnter_inj m0 pattern len pid m m' :
  building m0 m -> goto_inj (goto_table m) ->
  SCPFACEnter pattern len pid m = Ok m' -> goto_inj (goto_table m').
Proof.
  intros Hb Hinj Hrun. unfold SCPFACEnter in Hrun.
  destruct (enter_walk _ _ _) as [state rest] eqn:Ew.
  destruct (enter_extend m state rest) as [[st1 m1]| |] eqn:E; simpl in Hrun;
    try discriminate.
  injection Hrun as <-.
  assert (state < state_count m) as Hlt.
  { destruct Hb as (Hwf & H1 & _).
    eapply (enter_walk_lt m); [done..| |exact Ew]. lia. }
  destruct (SCPFACSetOutputState_fields st1 pid m1) as (_ & -> & _).
  eapply enter_extend_inj; eauto.
Qed.

Lemma SCPFACDetermineLevel1Gap_inj m0 m m' :
  building m0 m -> goto_inj (goto_table m) ->
  SCPFACDetermineLevel1Gap m = Ok m' -> goto_inj (goto_table m').
Proof.
  intros Hb Hinj Hrun. unfold SCPFACDetermineLevel1Gap in Hrun.
  enough (building m0 m' /\ goto_inj (goto_table m')) as [_ ?] by done.
  revert Hrun.
  apply (foldM_inv (fun m => building m0 m /\ goto_inj (goto_table m)));
    [|by split].
  intros s u s' [Hs Hi] _ Hstep.
  destruct (get 0 _ u =? 0); [by injection Hstep as <-|].
  destruct (SCPFACInitNewState s) as [[n m1]| |] eqn:E; simpl in Hstep;
    try discriminate.
  injection Hstep as <-.
  destruct (building_new_state _ _ _ _ Hs E) as (Hb1 & _ & Hn).
  destruct (SCPFACInitNewState_inj _ _ _ (proj1 Hs) E Hi) as [Hinj1 Hun].
  split; [apply building_set2; [exact Hb1|lia]|].
  ctx_simpl. by apply goto_inj_set2.
Qed.

Lemma SCPFACBuildGoto_inj m m' :
  fresh_tables m -> SCPFACBuildGoto m = Ok m' -> goto_inj (goto_table m').
Proof.
  intros Hfresh Hrun. unfold SCPFACBuildGoto in Hrun.
  destruct (SCPFACInitNewState m) as [[n m0]| |] eqn:E0; simpl in Hrun;
    try discriminate.
  destruct (SCPFACDetermineLevel1Gap m0) as [m1| |] eqn:E1; simpl in Hrun;
    try discriminate.
  pose proof (fresh_tables_wf _ Hfresh) as Hwf.
  destruct (SCPFACInitNewState_spec _ _ _ Hwf E0)
    as (-> & Hsc & _ & _ & H16 & H32 & Hpl & Hpa & Hpc & Hwf0).
  assert (building m m0) as Hb0.
  { split; [exact Hwf0|]. destruct Hfresh as (Hz & _). split; [lia|].
    by repeat split. }
  assert (goto_inj (goto_table m)) as Hinj.
  { destruct Hfresh as (_ & -> & _). intros s b s' b' Hs. simpl in Hs. lia. }
  destruct (SCPFACInitNewState_inj _ _ _ Hwf E0 Hinj) as [Hinj0 _].
  pose proof (SCPFACDetermineLevel1Gap_building _ _ _ Hb0 E1) as Hb1.
  pose proof (SCPFACDetermineLevel1Gap_inj _ _ _ Hb0 Hinj0 E1) as Hinj1.
  unfold SCPFACCreateGotoTable in Hrun.
  destruct (foldM _ _ m1) as [m2| |] eqn:E; simpl in Hrun; try discriminate.
  injection Hrun as <-. ctx_simpl.
  assert (building m m2 /\ goto_inj (goto_table m2)) as [Hb2 Hinj2].
  { revert E.
    apply (foldM_inv (fun m' => building m m' /\ goto_inj (goto_table m')));
      [|by split].
    intros s p s' [Hs Hi] _ Hstep.
    split; [eapply SCPFACEnter_building|eapply SCPFACEnter_inj]; eauto. }
  destruct Hb2 as (Hwf2 & H12 & _).
  destruct (root_fail_to_zero_cells (seqZ 0 256) (goto_table m2)
              (wf_rect _ Hwf2)
              ltac:(rewrite (wf_goto_len _ Hwf2); lia) seqZ_256_range)
    as (Hlen' & _ & Hcell').
  unfold root_fail_to_zero.
  intros s b s' b' Hs Hb Hs' Hb' Hpos Heq.
  rewrite Hlen' in Hs, Hs'. rewrite Hcell' in Hpos, Heq by done.
  rewrite (Hcell' s' b') in Heq by done.
  destruct (decide (s = 0%nat /\ _)) as [?|_]; [lia|].
  destruct (decide (s' = 0%nat /\ _)) as [?|_]; [lia|].
  by apply Hinj2.
Qed.

(** ** The queue of a context with fewer than 65536 states *)

Lemma waiting_length count l :
  NoDup l -> Forall (waiting count) l -> Z.of_nat (length l) <= Z.max 0 (count - 1).
Proof.
  intros Hnd Hall.
  assert (l ⊆+ seqZ 1 (count - 1)) as Hsub.
  { apply NoDup_submseteq; [exact Hnd|]. intros x Hx.
    rewrite Forall_forall in Hall. apply Hall in Hx. unfold waiting in Hx.
    apply elem_of_seqZ. lia. }
  apply submseteq_length in Hsub. rewrite length_seqZ in Hsub. lia.
Qed.

Lemma q_done_seen count q x : line_ok count q -> x ∈ q_done q -> x ∈ q_seen q.
Proof.
  intros (_ & Hb & _) Hx. unfold q_done, q_seen in *.
  apply elem_of_take in Hx as (i & Hi & Hlt). apply elem_of_take.
  exists i. split; [done|lia].
Qed.

Lemma StateQueue_zero_line count : line_ok count StateQueue_zero.
Proof.
  unfold line_ok, q_seen, StateQueue_zero, STATE_QUEUE_CONTAINER_SIZE.
  cbn [q_store q_top q_bot]. rewrite length_replicate.
  split; [done|]. split; [lia|]. split; [lia|].
  change (Z.to_nat 0) with 0%nat. rewrite take_0. split; constructor.
Qed.

Lemma SCPFACEnqueue_line count q u :
  line_ok count q -> count <= 65535 -> waiting count u -> u ∉ q_done q ->
  exists q', SCPFACEnqueue q u = Ok q' /\ line_ok count q' /\
    q_bot q' = q_bot q /\ q_done q' = q_done q /\
    (q_seen q' = q_seen q /\ u ∈ q_seen q \/ q_seen q' = q_seen q ++ [u]).
Proof.
  intros Hline Hcount Hu Hdone. pose proof Hline as (Hlen & Hb & Ht & Hnd & Hall).
  unfold SCPFACEnqueue, STATE_QUEUE_CONTAINER_SIZE in *.
  destruct (existsb _ _) eqn:Ex.
  { exists q. do 4 (split; [done|]). left. split; [done|].
    apply existsb_exists in Ex as (x & Hx & E). apply Z.eqb_eq in E.
    apply list_elem_of_In, elem_of_seqZ in Hx.
    unfold q_seen. apply elem_of_take. exists (Z.to_nat x). split; [|lia].
    unfold get in E.
    destruct (q_store q !! Z.to_nat x) as [y|] eqn:Ey;
      [change (y = u) in E; congruence|].
    apply lookup_ge_None in Ey. lia. }
  assert (u ∉ q_seen q) as Hnew.
  { intros Hin. unfold q_seen in Hin.
    apply elem_of_take in Hin as (i & Hi & Hlt).
    destruct (decide (i < Z.to_nat (q_bot q))%nat) as [Hlo|Hhi].
    - apply Hdone. unfold q_done. apply elem_of_take. by exists i.
    - apply Bool.not_true_iff_false in Ex. apply Ex.
      apply existsb_exists. exists (Z.of_nat i). split.
      + apply list_elem_of_In, elem_of_seqZ. lia.
      + unfold get. rewrite Nat2Z.id, Hi. apply Z.eqb_refl. }
  set (store := set (q_store q) (q_top q) u).
  assert (take (Z.to_nat (q_top q + 1)) store = q_seen q ++ [u]) as Hseen.
  { replace (Z.to_nat (q_top q + 1)) with (S (Z.to_nat (q_top q))) by lia.
    unfold store, set, q_seen.
    rewrite (take_S_r _ _ u) by (apply list_lookup_insert_eq; lia).
    by rewrite take_insert_ge by lia. }
  assert (NoDup (q_seen q ++ [u])) as Hnd'.
  { apply NoDup_app. split; [exact Hnd|]. split; [|apply NoDup_singleton].
    intros x Hx Hxu. apply list_elem_of_singleton in Hxu as ->. done. }
  assert (Forall (waiting count) (q_seen q ++ [u])) as Hall'.
  { apply Forall_app. split; [exact Hall|by apply Forall_singleton]. }
  pose proof (waiting_length count _ Hnd' Hall') as Hlen'.
  rewrite length_app in Hlen'. cbn [length] in Hlen'.
  assert (length (q_seen q) = Z.to_nat (q_top q)) as Hls
    by (unfold q_seen; rewrite length_take; lia).
  destruct (Z.eqb_spec (q_top q + 1) 65536) as [|_]; [lia|].
  destruct (Z.eqb_spec (q_top q + 1) (q_bot q)) as [|_]; [lia|].
  eexists. split; [reflexivity|].
  unfold line_ok, q_seen, q_done, STATE_QUEUE_CONTAINER_SIZE.
  cbn [q_store q_top q_bot]. fold store. rewrite Hseen.
  split.
  { split; [unfold store; by rewrite length_set|].
    split; [lia|]. split; [lia|]. by split. }
  split; [done|]. split; [|by right].
  unfold store, set. by rewrite take_insert_ge by lia.
Qed.

Lemma SCPFACDequeue_line count q :
  line_ok count q -> q_top q <> q_bot q ->
  exists r q', SCPFACDequeue q = Ok (r, q') /\ line_ok count q' /\
    waiting count r /\ (r ∉ q_done q) /\
    q_done q' = q_done q ++ [r] /\ q_seen q' = q_seen q.
Proof.
  intros (Hlen & Hb & Ht & Hnd & Hall) Hne.
  unfold SCPFACDequeue, STATE_QUEUE_CONTAINER_SIZE in *.
  destruct (Z.eqb_spec (q_bot q) 65536) as [|_]; [lia|].
  destruct (Z.eqb_spec (q_bot q) (q_top q)) as [|_]; [lia|].
  destruct (lookup_lt_is_Some_2 (q_store q) (Z.to_nat (q_bot q))
              ltac:(lia)) as [r Hr].
  assert (get 0 (q_store q) (q_bot q) = r) as Hget
    by (unfold get; by rewrite Hr).
  rewrite Hget. exists r. eexists. split; [reflexivity|].
  assert (q_seen q !! Z.to_nat (q_bot q) = Some r) as Hin.
  { unfold q_seen. rewrite lookup_take_lt by lia. exact Hr. }
  unfold line_ok, q_seen, q_done, STATE_QUEUE_CONTAINER_SIZE.
  cbn [q_store q_top q_bot].
  split; [split; [done|]; split; [lia|]; split; [lia|by split]|].
  split.
  { rewrite Forall_forall in Hall. apply Hall.
    eapply list_elem_of_lookup_2. exact Hin. }
  split.
  { intros Hd. apply elem_of_take in Hd as (i & Hi & Hlt).
    assert (q_seen q !! i = Some r) as Hin'
      by (unfold q_seen; rewrite lookup_take_lt by lia; exact Hi).
    pose proof (NoDup_lookup _ _ _ _ Hnd Hin Hin'). lia. }
  split; [|done].
  replace (Z.to_nat (q_bot q + 1)) with (S (Z.to_nat (q_bot q))) by lia.
  by apply take_S_r.
Qed.

(** ** The breadth-first loops do not exit *)

Lemma foldM_Ok_inv {A S} (J : list A -> S -> Prop) (f : S -> A -> result S) :
  (forall a l s, J (a :: l) s -> exists s', f s a = Ok s' /\ J l s') ->
  forall l s, J l s -> exists s', foldM f l s = Ok s' /\ J [] s'.
Proof.
  intros Hstep. induction l as [|a l IH]; intros s Hs.
  - by exists s.
  - destruct (Hstep a l s Hs) as (s1 & E & Hs1).
    destruct (IH s1 Hs1) as (s' & E' & Hs').
    exists s'. split; [|done]. cbn [foldM]. by rewrite E.
Qed.

Lemma delta_cell_step_row cast g count r b l qt :
  edges_ok g count -> count <= 65535 -> 1 <= r < count ->
  row_ok g count r (b :: l) qt ->
  exists qt', delta_cell_step cast g r qt b = Ok qt' /\ row_ok g count r l qt'.
Proof.
  intros (Hedges & _ & Hinj) Hcount Hr (Hnd & Hl & Hline & Hrd & Hcl).
  apply NoDup_cons in Hnd as [Hbl Hnd]. apply Forall_cons in Hl as [Hb Hl].
  destruct qt as [q t]. cbn [fst snd] in *. unfold delta_cell_step.
  cbn [fst snd].
  destruct (Z.eqb_spec (get2 g r b) SC_PFAC_FAIL) as [Hf|Hnf]; cbn [negb].
  - eexists. split; [reflexivity|]. split; [done|]. split; [done|].
    cbn [fst]. split; [done|]. split; [done|].
    intros r' b' Hr' Hb' Hin. destruct (Hcl r' b' Hr' Hb' Hin) as [Hd Hnew].
    split; [done|]. intros ->. specialize (Hnew eq_refl).
    intros Hin'. apply Hnew. by apply list_elem_of_further.
  - destruct (Hedges r b Hr Hb) as [?|Hu]; [done|].
    assert (get2 g r b ∉ q_done q) as Hnd'.
    { intros Hin. apply (q_done_seen count) in Hin; [|done].
      destruct (Hcl r b Hr Hb Hin) as [_ Hnew].
      apply (Hnew eq_refl). apply list_elem_of_here. }
    destruct (SCPFACEnqueue_line count q (get2 g r b) Hline Hcount
                ltac:(unfold waiting; lia) Hnd')
      as (q' & -> & Hline' & Hbot & Hdone & Hseen).
    eexists. split; [reflexivity|]. split; [done|]. split; [done|].
    cbn [fst]. split; [done|]. rewrite Hdone. split; [done|].
    intros r' b' Hr' Hb' Hin.
    assert (get2 g r' b' ∈ q_seen q \/ get2 g r' b' = get2 g r b) as [Hold|Heq].
    { destruct Hseen as [[E _]|E]; rewrite E in Hin; [by left|].
      apply elem_of_app in Hin as [?|Hin]; [by left|].
      right. by apply list_elem_of_singleton in Hin. }
    + destruct (Hcl r' b' Hr' Hb' Hold) as [Hd Hnew].
      split; [done|]. intros ->. specialize (Hnew eq_refl).
      intros Hin'. apply Hnew. by apply list_elem_of_further.
    + destruct (Hinj r' b' r b ltac:(lia) Hb' ltac:(lia) Hb
                  ltac:(rewrite Heq; lia) Heq) as [-> ->].
      by split.
Qed.

Lemma delta_root_step_root cast g count b l qt :
  edges_ok g count -> count <= 65535 ->
  (forall v, 0 <= v < count -> cast v = v) ->
  root_ok g count (b :: l) qt ->
  exists qt', delta_root_step cast g qt b = Ok qt' /\ root_ok g count l qt'.
Proof.
  intros (_ & Hroot & _) Hcount Hcast (Hl & Hline & Hbot & Hcl).
  apply Forall_cons in Hl as [Hb Hl].
  destruct qt as [q t]. cbn [fst snd] in *. unfold delta_root_step.
  cbn [fst snd]. pose proof (Hroot b Hb) as Hu.
  rewrite (Hcast _ Hu).
  destruct (Z.eqb_spec (get2 g 0 b) 0) as [Hz|Hnz]; cbn [negb].
  - eexists. split; [reflexivity|]. by split.
  - rewrite i32_small by lia.
    assert (get2 g 0 b ∉ q_done q) as Hnd'.
    { unfold q_done. rewrite Hbot. change (Z.to_nat 0) with 0%nat.
      rewrite take_0. apply not_elem_of_nil. }
    destruct (SCPFACEnqueue_line count q (get2 g 0 b) Hline Hcount
                ltac:(unfold waiting; lia) Hnd')
      as (q' & -> & Hline' & Hbot' & Hdone & Hseen).
    eexists. split; [reflexivity|]. split; [done|]. cbn [fst].
    split; [done|]. split; [congruence|].
    intros u Hin. destruct Hseen as [[E _]|E]; rewrite E in Hin;
      [by apply Hcl|].
    apply elem_of_app in Hin as [?|Hin]; [by apply Hcl|].
    apply list_elem_of_singleton in Hin as ->. by exists b.
Qed.

Lemma seqZ_256_bytes : Forall (fun b => 0 <= b < 256) (seqZ 0 256).
Proof. apply Forall_forall. intros b Hb. by apply seqZ_256_range. Qed.

Lemma delta_bfs_no_exit cast g count fuel : forall q t,
  edges_ok g count -> count <= 65535 -> bfs_ok g count q ->
  delta_bfs fuel cast g q t <> Exit.
Proof.
  induction fuel as [|fuel IH]; intros q t Hedges Hcount [Hline Hcl]; [done|].
  rewrite delta_bfs_S. unfold SCPFACStateQueueIsEmpty.
  destruct (Z.eqb_spec (q_top q) (q_bot q)) as [|Hne]; [done|].
  destruct (SCPFACDequeue_line count q Hline Hne)
    as (r & q1 & -> & Hline1 & Hr & Hrd & Hdone1 & Hseen1).
  cbn [mbind result_bind].
  destruct (foldM_Ok_inv (row_ok g count r) (delta_cell_step cast g r))
    with (l := seqZ 0 256) (s := (q1, t)) as ([q2 t2] & -> & Hrow).
  - intros b l qt. apply delta_cell_step_row; try done.
  - split; [apply NoDup_seqZ|]. split; [apply seqZ_256_bytes|].
    cbn [fst]. split; [done|]. rewrite Hdone1, Hseen1.
    split; [apply elem_of_app; right; apply list_elem_of_here|].
    intros r' b' Hr' Hb' Hin. pose proof (Hcl r' b' Hr' Hb' Hin) as Hd.
    split; [apply elem_of_app; by left|]. intros ->. done.
  - cbn [mbind result_bind]. apply IH; try done.
    destruct Hrow as (_ & _ & Hline2 & _ & Hcl2). cbn [fst] in *.
    split; [done|]. intros r' b' Hr' Hb' Hin.
    by destruct (Hcl2 r' b' Hr' Hb' Hin).
Qed.

Lemma build_state_table_no_exit fuel cast g count t0 :
  edges_ok g count -> count <= 65535 ->
  (forall v, 0 <= v < count -> cast v = v) ->
  ('(q, t) ← foldM (delta_root_step cast g) (seqZ 0 256) (StateQueue_zero, t0);
   delta_bfs fuel cast g q t) <> Exit.
Proof.
  intros Hedges Hcount Hcast.
  destruct (foldM_Ok_inv (root_ok g count) (delta_root_step cast g))
    with (l := seqZ 0 256) (s := (StateQueue_zero, t0))
    as ([q t] & -> & Hroot).
  - intros b l qt. by apply delta_root_step_root.
  - split; [apply seqZ_256_bytes|]. cbn [fst].
    split; [apply StateQueue_zero_line|]. split; [done|].
    intros u Hu. unfold q_seen, StateQueue_zero in Hu. cbn [q_top] in Hu.
    change (Z.to_nat 0) with 0%nat in Hu. rewrite take_0 in Hu.
    by apply elem_of_nil in Hu.
  - cbn [mbind result_bind]. apply delta_bfs_no_exit with (count := count);
      try done.
    destruct Hroot as (_ & Hline & Hbot & Hcl). cbn [fst] in *.
    split; [done|]. intros r b Hr Hb Hin. exfalso.
    destruct (Hcl _ Hin) as (b0 & Hb0 & Heq).
    destruct Hline as (_ & _ & _ & _ & Hall).
    rewrite Forall_forall in Hall. apply Hall in Hin. unfold waiting in Hin.
    destruct Hedges as (_ & _ & Hinj).
    destruct (Hinj r b 0 b0 ltac:(lia) Hb ltac:(lia) Hb0 ltac:(lia)
                ltac:(by rewrite Heq)) as [-> _].
    lia.
Qed.

Lemma goto_final_edges_ok m :
  goto_final m -> goto_inj (goto_table m) ->
  edges_ok (goto_table m) (state_count m).
Proof.
  intros Hf Hinj. split; [|split].
  - intros r b. by apply goto_final_edges.
  - intros b. by apply goto_final_root.
  - intros r b r' b' Hr Hb Hr' Hb' Hpos Heq. rewrite !get2_cell in *.
    pose proof (gf_goto_len _ Hf) as Hlen.
    destruct (Hinj (Z.to_nat r) (Z.to_nat b) (Z.to_nat r') (Z.to_nat b'))
      as [E1 E2]; try done; lia.
Qed.

Lemma result_cases {A} (r : result A) :
  returns r -> r <> Exit -> exists a, r = Ok a.
Proof. destruct r as [a| |]; intros H1 H2; [by exists a|done|done]. Qed.

(** The construction of a state table for fewer than 65536 states ends
    with the table: the queue does not run out of space. *)
Lemma build_state_table_Ok fuel cast m :
  goto_final m -> goto_inj (goto_table m) -> state_count m <= 65535 ->
  cast_ok cast -> (forall v, 0 <= v < state_count m -> cast v = v) ->
  weight (state_count m) 0 <= Z.of_nat fuel ->
  exists t, build_state_table fuel cast m = Ok t.
Proof.
  intros Hf Hinj Hcount Hcast Hid Hfuel. apply result_cases.
  - by apply build_state_table_returns.
  - unfold build_state_table.
    apply build_state_table_no_exit with (count := state_count m); try done.
    by apply goto_final_edges_ok.
Qed.

Lemma SCPFACFinishStateTable_Ok fuel both m :
  goto_final m -> goto_inj (goto_table m) -> state_count m <= 65535 ->
  weight (state_count m) 0 <= Z.of_nat fuel ->
  exists m', SCPFACFinishStateTable fuel both m = Ok m'.
Proof.
  intros Hf Hinj Hcount Hfuel. pose proof (gf_count _ Hf) as Hc.
  destruct (build_state_table_Ok fuel u16 m Hf Hinj Hcount cast_ok_u16
              ltac:(intros; apply u16_small; lia) Hfuel) as [t16 H16].
  destruct (build_state_table_Ok fuel u32 m Hf Hinj Hcount cast_ok_u32
              ltac:(intros; apply u32_small; lia) Hfuel) as [t32 H32].
  assert (forall t, build_state_table fuel u32 (with_state_table_u16 m t)
                    = Ok t32) as H32' by (intros; exact H32).
  unfold SCPFACFinishStateTable, SCPFACCreateDeltaTable.
  destruct ((state_count m <? 32767) || both);
    destruct (negb (state_count m <? 32767) || both);
    rewrite ?H16; cbn [mbind result_bind]; rewrite ?H32', ?H32;
    cbn [mbind result_bind]; by eexists.
Qed.

(** X11. Prepare compiles: when the goto table has at most 65535 states, the
    model of SCPFACPreparePatterns ends with a compiled context, and with
    the value 0, for every amount of fuel above a bound. *)
Theorem SCPFACPreparePatterns_compiles both rs mg :
  SCPFACPreparePatterns_goto (register_all rs SCPFACInitCtx) = Ok mg ->
  state_count mg <= 65535 ->
  exists fuel0, forall fuel, (fuel0 <= fuel)%nat ->
    exists m,
      SCPFACPreparePatterns fuel both (register_all rs SCPFACInitCtx)
        = Ok (0, m).
Proof.
  pose proof (register_all_tables rs _ SCPFACInitCtx_tables) as Htab.
  unfold SCPFACPreparePatterns_goto, SCPFACPreparePatterns.
  destruct (init_hash (register_all rs SCPFACInitCtx)) as [h|];
    [|intros _ _; exists 0%nat; intros; by eexists].
  destruct (_ =? 0); [intros _ _; exists 0%nat; intros; by eexists|].
  intros Hg Hcount. unfold SCPFACPrepareStateTable. rewrite Hg.
  cbn [mbind result_bind].
  destruct (SCPFACBuildGoto_final _ _ (setup_fresh _ h Htab) Hg) as [Hf _].
  pose proof (SCPFACBuildGoto_inj _ _ (setup_fresh _ h Htab) Hg) as Hinj.
  exists (Z.to_nat (weight (state_count mg) 0)). intros fuel Hfuel.
  pose proof (weight_pos (state_count mg) 0).
  destruct (SCPFACFinishStateTable_Ok fuel both mg Hf Hinj Hcount
              ltac:(lia)) as [m' ->].
  cbn [mbind result_bind]. by eexists.
Qed.

(** ** The pattern store, as a whole *)

Lemma SCPFACInitHash_pattern_of pat pid flags :
  SCPFACInitHash (pattern_of pat pid flags) = bucket_of pat.
Proof. reflexivity. Qed.

Lemma concat_insert_chain {A} (h : list (list A)) (i : nat) (x : A) chain :
  h !! i = Some chain ->
  (forall y, y ∈ concat (<[i := chain ++ [x]]> h) <-> y ∈ concat h \/ y = x) /\
  length (concat (<[i := chain ++ [x]]> h)) = S (length (concat h)).
Proof.
  intros Hi. pose proof (lookup_lt_Some _ _ _ Hi) as Hlt.
  assert (concat h = concat (take i h) ++ chain ++ concat (drop (S i) h))
    as E.
  { rewrite <- (take_drop_middle h i chain Hi) at 1.
    by rewrite concat_app, concat_cons. }
  rewrite insert_take_drop by exact Hlt.
  rewrite E, !concat_app, !concat_cons. split.
  - intros y. rewrite !elem_of_app, list_elem_of_singleton. tauto.
  - rewrite !length_app. cbn [length]. lia.
Qed.

(** Registering a non-empty pattern under an id that is not yet in the
    bucket of its bytes. *)
Lemma SCPFACAddPattern_new m pat pid flags :
  hash_allocated m -> pat <> [] ->
  SCPFACInitHashLookup m pat (Z.of_nat (length pat)) flags pid = None ->
  let m' := add_ctx (SCPFACAddPattern m pat pid flags) in
  hash_allocated m' /\
  (forall p, p ∈ stored_patterns m' <->
             p ∈ stored_patterns m \/ p = pattern_of pat pid flags) /\
  length (stored_patterns m') = S (length (stored_patterns m)) /\
  (forall i p, p ∈ bucket m' i <->
               p ∈ bucket m i \/
               (Z.to_nat i = Z.to_nat (bucket_of pat) /\
                p = pattern_of pat pid flags)) /\
  pattern_cnt m' = u32 (pattern_cnt m + 1) /\
  minlen m' = (if minlen m =? 0 then Z.of_nat (length pat)
               else Z.min (minlen m) (Z.of_nat (length pat))) /\
  maxlen m' = Z.max (maxlen m) (Z.of_nat (length pat)) /\
  max_pat_id m' = Z.max (max_pat_id m) pid.
Proof.
  intros (h & Hh & Hlen) Hne Hlook. cbv zeta. unfold SCPFACAddPattern.
  destruct (Z.eqb_spec (Z.of_nat (length pat)) 0) as [E|_];
    [destruct pat; [done|cbn in E; lia]|].
  rewrite Hlook. cbn [add_ctx]. fold (pattern_of pat pid flags).
  unfold hash_allocated, stored_patterns, bucket. ctx_simpl. rewrite Hh.
  unfold SCPFACInitHashAdd. rewrite SCPFACInitHash_pattern_of.
  pose proof (bucket_of_range pat) as Hb. unfold INIT_HASH_SIZE in *.
  destruct (lookup_lt_is_Some_2 h (Z.to_nat (bucket_of pat)) ltac:(lia))
    as [chain Hchain].
  assert (get [] h (bucket_of pat) = chain) as Hget
    by (unfold get; by rewrite Hchain).
  rewrite Hget. unfold set.
  destruct (concat_insert_chain h _ (pattern_of pat pid flags) chain Hchain)
    as [Hmem Hcnt].
  split; [eexists; split; [reflexivity|by rewrite length_insert]|].
  split; [exact Hmem|]. split; [exact Hcnt|]. split.
  { intros i p. unfold get.
    destruct (decide (Z.to_nat i = Z.to_nat (bucket_of pat))) as [->|Hi].
    - rewrite list_lookup_insert_eq by lia. rewrite Hchain.
      change (default [] (Some ?x)) with x.
      rewrite elem_of_app, list_elem_of_singleton. tauto.
    - rewrite list_lookup_insert_ne by done. tauto. }
  split; [done|]. split; [|split].
  - destruct (minlen m =? 0); [done|].
    destruct (Z.ltb_spec (Z.of_nat (length pat)) (minlen m)); lia.
  - destruct (Z.ltb_spec (maxlen m) (Z.of_nat (length pat))); lia.
  - destruct (Z.ltb_spec (max_pat_id m) pid); lia.
Qed.

Lemma SCPFACAddPattern_cases m pat pid flags :
  add_ctx (SCPFACAddPattern m pat pid flags) = m \/
  (pat <> [] /\
   SCPFACInitHashLookup m pat (Z.of_nat (length pat)) flags pid = None).
Proof.
  unfold SCPFACAddPattern.
  destruct (Z.eqb_spec (Z.of_nat (length pat)) 0) as [|Hn]; [by left|].
  destruct (SCPFACInitHashLookup _ _ _ _ _) eqn:E; [by left|].
  right. split; [|done]. intros ->. by apply Hn.
Qed.

Lemma SCPFACAddPattern_counts m pat pid flags :
  store_counts m -> store_counts (add_ctx (SCPFACAddPattern m pat pid flags)).
Proof.
  intros Hs. destruct (SCPFACAddPattern_cases m pat pid flags)
    as [->|[Hne Hlook]]; [exact Hs|].
  destruct Hs as [Hh Hcnt Hmin0 Hlen Hid Hmade Hbuck].
  destruct (SCPFACAddPattern_new m pat pid flags Hh Hne Hlook)
    as (Hh' & Hmem & Hn & Hb & Hc & Hmin & Hmax & Hmid).
  set (m' := add_ctx (SCPFACAddPattern m pat pid flags)) in *.
  assert (1 <= Z.of_nat (length pat)) as Hl
    by (destruct pat; [done|cbn [length]; lia]).
  split.
  - exact Hh'.
  - rewrite Hc, Hcnt, Hn. unfold u32. rewrite Nat2Z.inj_succ.
    rewrite Zplus_mod_idemp_l. f_equal; lia.
  - rewrite Hmin. destruct (Z.eqb_spec (minlen m) 0); lia.
  - intros p Hp. apply Hmem in Hp as [Hp| ->].
    + specialize (Hlen p Hp). rewrite Hmin, Hmax.
      destruct (Z.eqb_spec (minlen m) 0); lia.
    + rewrite Hmin, Hmax. cbn [p_len pattern_of].
      destruct (Z.eqb_spec (minlen m) 0); lia.
  - intros p Hp. apply Hmem in Hp as [Hp| ->]; rewrite Hmid.
    + specialize (Hid p Hp). lia.
    + cbn [p_id pattern_of]. lia.
  - intros p Hp. apply Hmem in Hp as [Hp| ->]; [by apply Hmade|].
    by exists pat.
  - intros p Hp. apply Hb. apply Hmem in Hp as [Hp| ->]; [left; by apply Hbuck|].
    right. by rewrite SCPFACInitHash_pattern_of.
Qed.

Lemma stored_patterns_init : stored_patterns SCPFACInitCtx = [].
Proof.
  unfold stored_patterns, SCPFACInitCtx. cbn [init_hash].
  induction (Z.to_nat INIT_HASH_SIZE) as [|n IH]; [done|].
  rewrite replicate_S. cbn [concat app]. exact IH.
Qed.

Lemma SCPFACInitCtx_counts : store_counts SCPFACInitCtx.
Proof.
  pose proof stored_patterns_init as E.
  constructor.
  - exists (replicate (Z.to_nat INIT_HASH_SIZE) []).
    split; [reflexivity|apply length_replicate].
  - rewrite E. reflexivity.
  - unfold SCPFACInitCtx. cbn [minlen]. lia.
  - intros p Hp. rewrite E in Hp. destruct (proj1 (elem_of_nil p) Hp).
  - intros p Hp. rewrite E in Hp. destruct (proj1 (elem_of_nil p) Hp).
  - intros p Hp. rewrite E in Hp. destruct (proj1 (elem_of_nil p) Hp).
  - intros p Hp. rewrite E in Hp. destruct (proj1 (elem_of_nil p) Hp).
Qed.

Lemma register_all_counts rs : forall m,
  store_counts m -> store_counts (register_all rs m).
Proof.
  induction rs as [|r rs IH]; intros m Hm; [exact Hm|].
  apply IH. by apply SCPFACAddPattern_counts.
Qed.

Lemma stored_patterns_length rs : forall m,
  store_counts m ->
  (length (stored_patterns (register_all rs m)) <=
   length (stored_patterns m) + length rs)%nat.
Proof.
  induction rs as [|r rs IH]; intros m Hm;
    cbn [register_all fold_left length]; [lia|].
  fold (register_all rs (register m r)).
  specialize (IH (register m r) (SCPFACAddPattern_counts _ _ _ _ Hm)).
  enough (length (stored_patterns (register m r))
          <= S (length (stored_patterns m)))%nat by lia.
  unfold register.
  destruct (SCPFACAddPattern_cases m r.1.1 r.1.2 r.2) as [->|[Hne Hlook]];
    [lia|].
  destruct (SCPFACAddPattern_new m _ _ _ (sc_hash _ Hm) Hne Hlook)
    as (_ & _ & -> & _). lia.
Qed.

(** The contexts reached from SCPFACInitCtx by registrations. *)
Lemma registered_counts rs :
  store_counts (register_all rs SCPFACInitCtx).
Proof. apply register_all_counts, SCPFACInitCtx_counts. Qed.

Lemma registered_pattern_cnt rs :
  Z.of_nat (length rs) < 2 ^ 32 ->
  pattern_cnt (register_all rs SCPFACInitCtx)
  = Z.of_nat (length (stored_patterns (register_all rs SCPFACInitCtx))).
Proof.
  intros Hlen. rewrite (sc_cnt _ (registered_counts rs)).
  pose proof (stored_patterns_length rs _ SCPFACInitCtx_counts) as Hle.
  rewrite stored_patterns_init in Hle. cbn [length] in Hle. apply u32_small. lia.
Qed.

(** C5, amended.  Registering a pattern whose id equals the id of an
    already-registered pattern that lies in the same bucket of the insertion
    hash (which holds whenever the two have the same bytes) is a no-op:
    the call returns 0, the context is unchanged, and the context compiled
    from any sequence that contains the duplicate is the one compiled from
    the sequence without it.  A registration of non-empty bytes with the
    already-used id is stored as a further pattern when the bucket of its
    bytes holds no pattern with that id: the call returns 0, pattern_cnt
    grows by one, and the insertion hash holds the patterns it held and the
    new one, in the bucket of its bytes. *)
Theorem register_duplicate_same_bucket rs rs' pat0 flags0 pat pid flags :
  (pat0, pid, flags0) ∈ rs -> pat0 <> [] ->
  bucket_of pat = bucket_of pat0 ->
  let m := register_all rs SCPFACInitCtx in
  add_ret (SCPFACAddPattern m pat pid flags) = 0 /\
  add_ctx (SCPFACAddPattern m pat pid flags) = m /\
  (forall fuel both,
     SCPFACPreparePatterns fuel both
       (register_all (rs ++ (pat, pid, flags) :: rs') SCPFACInitCtx) =
     SCPFACPreparePatterns fuel both
       (register_all (rs ++ rs') SCPFACInitCtx)) /\
  forall pat2 flags2, pat2 <> [] ->
    (forall p, p ∈ bucket m (bucket_of pat2) -> p_id p <> pid) ->
    let m2 := add_ctx (SCPFACAddPattern m pat2 pid flags2) in
    add_ret (SCPFACAddPattern m pat2 pid flags2) = 0 /\
    pattern_cnt m2 = u32 (pattern_cnt m + 1) /\
    length (stored_patterns m2) = S (length (stored_patterns m)) /\
    (forall p, p ∈ stored_patterns m2 <->
               p ∈ stored_patterns m \/ p = pattern_of pat2 pid flags2) /\
    pattern_of pat2 pid flags2 ∈ bucket m2 (bucket_of pat2).
Proof.
  intros Hin Hne Hbucket. cbv zeta.
  assert (SCPFACAddPattern (register_all rs SCPFACInitCtx) pat pid flags
            = mkAddResult 0 (register_all rs SCPFACInitCtx) [] \/
          SCPFACAddPattern (register_all rs SCPFACInitCtx) pat pid flags
            = mkAddResult 0 (register_all rs SCPFACInitCtx)
                [LogWarning "pattern length 0"]) as Hadd.
  { unfold SCPFACAddPattern.
    destruct (Z.of_nat (length pat) =? 0); [by right|]. left.
    destruct (register_all_registered rs _ [] SCPFACInitCtx_registered)
      as [_ Hreg].
    destruct (Hreg _ _ _ Hin Hne) as (p & Hp & Hid).
    rewrite <- Hbucket in Hp.
    by destruct (SCPFACInitHashLookup_found _ _ _ flags _ Hp Hid) as (t & ->). }
  assert (add_ret (SCPFACAddPattern (register_all rs SCPFACInitCtx)
                     pat pid flags) = 0 /\
          add_ctx (SCPFACAddPattern (register_all rs SCPFACInitCtx)
                     pat pid flags) = register_all rs SCPFACInitCtx)
    as [Hret Hctx] by (by destruct Hadd as [-> | ->]).
  split; [exact Hret|]. split; [exact Hctx|]. split.
  { intros fuel both. rewrite !register_all_app.
    change (register_all ((pat, pid, flags) :: rs')
              (register_all rs SCPFACInitCtx))
      with (register_all rs' (register (register_all rs SCPFACInitCtx)
                                (pat, pid, flags))).
    unfold register at 1. cbn [fst snd]. by rewrite Hctx. }
  intros pat2 flags2 Hne2 Hfree.
  set (m := register_all rs SCPFACInitCtx) in *.
  assert (SCPFACInitHashLookup m pat2 (Z.of_nat (length pat2)) flags2 pid
          = None) as Hlook.
  { unfold SCPFACInitHashLookup.
    destruct (init_hash m) as [h|] eqn:Hh; [|done].
    destruct (find _ _) as [t|] eqn:F; [|done].
    apply find_some in F as [Ht Hid]. apply Z.eqb_eq in Hid.
    exfalso. apply (Hfree t); [|exact Hid].
    unfold bucket, bucket_of. rewrite Hh. by apply list_elem_of_In. }
  destruct (SCPFACAddPattern_new m pat2 pid flags2
              (sc_hash _ (registered_counts rs)) Hne2 Hlook)
    as (_ & Hmem & Hlen & Hbuck & Hcnt & _).
  split.
  { unfold SCPFACAddPattern.
    destruct (Z.eqb_spec (Z.of_nat (length pat2)) 0) as [E|_];
      [destruct pat2; [done|cbn [length] in E; lia]|].
    by rewrite Hlook. }
  split; [exact Hcnt|]. split; [exact Hlen|]. split; [exact Hmem|].
  apply Hbuck. by right.
Qed.

Lemma find_snoc {A} (f : A -> bool) l x :
  List.find f (l ++ [x]) =
  match List.find f l with
  | Some y => Some y
  | None => if f x then Some x else None
  end.
Proof.
  induction l as [|a l IH]; cbn [List.find app]; [done|].
  by destruct (f a).
Qed.

Lemma setup_patterns_stored rs h :
  Z.of_nat (length rs) < 2 ^ 32 ->
  init_hash (register_all rs SCPFACInitCtx) = Some h ->
  parray (SCPFACPreparePatterns_setup (register_all rs SCPFACInitCtx) h)
  = stored_patterns (register_all rs SCPFACInitCtx) /\
  patterns (SCPFACPreparePatterns_setup (register_all rs SCPFACInitCtx) h)
  = stored_patterns (register_all rs SCPFACInitCtx).
Proof.
  intros Hlen Hh. pose proof (registered_pattern_cnt rs Hlen) as Hcnt.
  destruct (sc_hash _ (registered_counts rs)) as (h' & Hh' & Hl).
  rewrite Hh in Hh'. injection Hh' as <-.
  unfold patterns, SCPFACPreparePatterns_setup. ctx_simpl.
  rewrite Hcnt. unfold stored_patterns. rewrite Hh.
  rewrite (firstn_all2 h) by (rewrite <- Hl; lia).
  split; [done|]. apply firstn_all2. rewrite Nat2Z.id. lia.
Qed.

(** X1. A pattern that was registered is found again: after
    SCPFACAddPattern was called on a context with an allocated hash with
    a non-empty pattern, SCPFACInitHashLookup for the same bytes and id
    yields a stored pattern with that id; when the id was not in the
    bucket before, it is the pattern made from the arguments. *)
Theorem lookup_after_register m pat pid flags :
  hash_allocated m -> pat <> [] ->
  exists t,
    SCPFACInitHashLookup (add_ctx (SCPFACAddPattern m pat pid flags)) pat
      (Z.of_nat (length pat)) flags pid = Some t /\
    p_id t = pid /\
    (SCPFACInitHashLookup m pat (Z.of_nat (length pat)) flags pid = None ->
     t = pattern_of pat pid flags).
Proof.
  intros Hh Hne.
  destruct (SCPFACInitHashLookup m pat (Z.of_nat (length pat)) flags pid)
    as [t0|] eqn:Hlook.
  - exists t0. unfold SCPFACAddPattern.
    destruct (Z.eqb_spec (Z.of_nat (length pat)) 0) as [E|_];
      [destruct pat; [done|cbn in E; lia]|].
    rewrite Hlook. cbn [add_ctx]. split; [exact Hlook|]. split; [|done].
    unfold SCPFACInitHashLookup in Hlook.
    destruct (init_hash m); [|done].
    apply find_some in Hlook as [_ Hid]. by apply Z.eqb_eq in Hid.
  - exists (pattern_of pat pid flags).
    destruct (SCPFACAddPattern_new m pat pid flags Hh Hne Hlook)
      as ((h' & Hh' & _) & _ & _ & _).
    split; [|by split].
    destruct Hh as (h & Hh & Hlen).
    unfold SCPFACAddPattern in *.
    destruct (Z.eqb_spec (Z.of_nat (length pat)) 0) as [E|_];
      [destruct pat; [done|cbn in E; lia]|].
    rewrite Hlook in *. cbn [add_ctx] in *.
    unfold SCPFACInitHashLookup in *. ctx_simpl. rewrite Hh in *.
    cbn [SCPFACInitHashAdd]. fold (pattern_of pat pid flags).
    rewrite SCPFACInitHash_pattern_of. fold (bucket_of pat) in *.
    pose proof (bucket_of_range pat) as Hb. unfold INIT_HASH_SIZE in *.
    rewrite get_set_eq by lia. rewrite find_snoc, Hlook.
    cbn [p_id pattern_of]. by rewrite Z.eqb_refl.
Qed.

(** X2. The counter of the context counts the stored patterns: after
    fewer than 2^32 registrations on a fresh context, pattern_cnt is the
    number of patterns in the insertion hash, that number is at most the
    number of registrations, and the pattern array that
    SCPFACPreparePatterns fills from the hash holds all of them, bucket
    after bucket. *)
Theorem pattern_cnt_counts_stored rs :
  Z.of_nat (length rs) < 2 ^ 32 ->
  pattern_cnt (register_all rs SCPFACInitCtx)
  = Z.of_nat (length (stored_patterns (register_all rs SCPFACInitCtx))) /\
  (length (stored_patterns (register_all rs SCPFACInitCtx)) <= length rs)%nat
  /\
  exists h, init_hash (register_all rs SCPFACInitCtx) = Some h /\
    patterns (SCPFACPreparePatterns_setup (register_all rs SCPFACInitCtx) h)
    = concat h.
Proof.
  intros Hlen. split; [by apply registered_pattern_cnt|]. split.
  - pose proof (stored_patterns_length rs _ SCPFACInitCtx_counts) as Hle.
    rewrite stored_patterns_init in Hle. exact Hle.
  - destruct (sc_hash _ (registered_counts rs)) as (h & Hh & _).
    exists h. split; [exact Hh|].
    destruct (setup_patterns_stored rs h Hlen Hh) as [_ ->].
    unfold stored_patterns. by rewrite Hh.
Qed.

(** X3. The bounds of the context hold for every stored pattern: after
    any registrations on a fresh context, the length of each stored
    pattern lies between minlen and maxlen, minlen is at least 1 once a
    pattern is stored, and no stored id exceeds max_pat_id (the size of the
    case-sensitive index minus one). *)
Theorem stored_patterns_within_bounds rs p :
  p ∈ stored_patterns (register_all rs SCPFACInitCtx) ->
  1 <= minlen (register_all rs SCPFACInitCtx) <= p_len p /\
  p_len p <= maxlen (register_all rs SCPFACInitCtx) /\
  p_id p <= max_pat_id (register_all rs SCPFACInitCtx).
Proof.
  intros Hp. pose proof (registered_counts rs) as Hs.
  destruct (sc_len _ Hs p Hp) as [H1 H2]. split; [exact H1|].
  split; [exact H2|]. by apply (sc_id _ Hs).
Qed.

(** X4. What is stored: every pattern in the insertion hash was made by
    SCPFACAddPattern from a non-empty string; its length is the length of
    the original bytes, its case-insensitive form is the lowercase image,
    its case-sensitive form is the lowercase image for a NOCASE pattern and
    the original bytes otherwise, and it lies in the bucket of its hash. *)
Theorem stored_patterns_shape rs p :
  p ∈ stored_patterns (register_all rs SCPFACInitCtx) ->
  p_original_pat p <> [] /\
  p_len p = Z.of_nat (length (p_original_pat p)) /\
  p_ci p = memcpy_tolower (p_original_pat p) /\
  p_cs p = (if Z.land (p_flags p) MPM_PATTERN_FLAG_NOCASE =? 0
            then p_original_pat p else p_ci p) /\
  p ∈ bucket (register_all rs SCPFACInitCtx)
        (SCPFACInitHashRaw (p_original_pat p) (p_len p)).
Proof.
  intros Hp. pose proof (registered_counts rs) as Hs.
  pose proof (sc_bucket _ Hs p Hp) as Hb.
  destruct (sc_made _ Hs p Hp) as (pat & Hne & E).
  rewrite E in *. cbn [p_original_pat p_len p_ci p_cs p_flags pattern_of] in *.
  split; [done|]. split; [done|]. split; [done|]. split; [|exact Hb].
  destruct (Z.land _ MPM_PATTERN_FLAG_NOCASE =? 0); cbn [negb]; [|done].
  destruct (bytes_eqb (memcpy_tolower pat) pat) eqn:Eb; [|done].
  clear - Eb. revert Eb. generalize (memcpy_tolower pat) as l.
  induction pat as [|c pat IH]; intros [|x l] Eb; try done.
  cbn [bytes_eqb] in Eb. apply andb_true_iff in Eb as [Ex El].
  apply Z.eqb_eq in Ex as ->. f_equal. by apply IH.
Qed.

Lemma register_all_snoc rs r m :
  register_all (rs ++ [r]) m = register (register_all rs m) r.
Proof. by rewrite register_all_app. Qed.

Lemma bucket_stored m i p : p ∈ bucket m i -> p ∈ stored_patterns m.
Proof.
  unfold bucket, stored_patterns. destruct (init_hash m) as [h|];
    [|intros H; by apply elem_of_nil in H].
  unfold get. destruct (h !! Z.to_nat i) as [chain|] eqn:E;
    [|intros H; by apply elem_of_nil in H].
  intros Hp. apply list_elem_of_In, in_concat. exists chain.
  split; apply list_elem_of_In; [|done]. by eapply list_elem_of_lookup_2.
Qed.

Lemma register_stored m r p :
  store_counts m ->
  (p ∈ stored_patterns (register m r) <->
   p ∈ stored_patterns m \/
   (r.1.1 <> [] /\
    SCPFACInitHashLookup m r.1.1 (Z.of_nat (length r.1.1)) r.2 r.1.2 = None /\
    p = pattern_of r.1.1 r.1.2 r.2)).
Proof.
  intros Hs. unfold register.
  destruct (SCPFACAddPattern_cases m r.1.1 r.1.2 r.2) as [E|[Hne Hlook]].
  - rewrite E. split; [by left|]. intros [?|(Hne & Hlook & ->)]; [done|].
    exfalso. revert E. unfold SCPFACAddPattern.
    destruct (Z.eqb_spec (Z.of_nat (length r.1.1)) 0) as [E0|_];
      [destruct r.1.1; [done|cbn in E0; lia]|].
    rewrite Hlook. cbn [add_ctx]. intros E.
    pose proof (f_equal pattern_cnt E) as Ec. cbn [pattern_cnt] in Ec.
    destruct (SCPFACAddPattern_new m _ _ _ (sc_hash _ Hs) Hne Hlook)
      as (_ & _ & Hn & _).
    unfold SCPFACAddPattern in Hn.
    destruct (Z.eqb_spec (Z.of_nat (length r.1.1)) 0) as [E0|_];
      [destruct r.1.1; [done|cbn in E0; lia]|].
    rewrite Hlook in Hn. cbn [add_ctx] in Hn. rewrite E in Hn. lia.
  - destruct (SCPFACAddPattern_new m _ _ _ (sc_hash _ Hs) Hne Hlook)
      as (_ & Hmem & _).
    rewrite Hmem. split; intros [?|H]; try (by left); right; [done|].
    by destruct H as (_ & _ & ->).
Qed.

(** Every stored pattern was made from a registration. *)
Lemma stored_from_registrations rs : forall p,
  p ∈ stored_patterns (register_all rs SCPFACInitCtx) ->
  exists pat pid flags,
    (pat, pid, flags) ∈ rs /\ pat <> [] /\ p = pattern_of pat pid flags.
Proof.
  induction rs as [|r rs IH] using rev_ind; intros p Hp.
  - change (register_all [] SCPFACInitCtx) with SCPFACInitCtx in Hp.
    rewrite stored_patterns_init in Hp. by apply elem_of_nil in Hp.
  - rewrite register_all_snoc in Hp.
    apply (register_stored _ _ _ (registered_counts rs)) in Hp
      as [Hp|(Hne & _ & ->)].
    + destruct (IH p Hp) as (pat & pid & flags & Hin & Hne & E).
      exists pat, pid, flags. split; [apply elem_of_app; by left|by split].
    + exists r.1.1, r.1.2, r.2. split; [|by split].
      apply elem_of_app. right. destruct r as [[pat pid] flags].
      apply list_elem_of_here.
Qed.

(** With pairwise distinct ids no registration is dropped. *)
Lemma registrations_stored rs :
  NoDup (map (fun r : Registration => r.1.2) rs) ->
  forall pat pid flags, (pat, pid, flags) ∈ rs -> pat <> [] ->
    pattern_of pat pid flags ∈ stored_patterns (register_all rs SCPFACInitCtx).
Proof.
  induction rs as [|r rs IH] using rev_ind; intros Hnd pat pid flags Hin Hne.
  - by apply elem_of_nil in Hin.
  - rewrite map_app in Hnd. apply NoDup_app in Hnd as (Hnd & Hfresh & _).
    rewrite register_all_snoc.
    apply (register_stored _ _ _ (registered_counts rs)).
    apply elem_of_app in Hin as [Hin|Hin]; [left; by apply IH|].
    apply list_elem_of_singleton in Hin as <-. cbn [fst snd].
    right. split; [done|]. split; [|done].
    destruct (SCPFACInitHashLookup _ _ _ _ _) as [t|] eqn:Hlook; [|done].
    exfalso. unfold SCPFACInitHashLookup in Hlook.
    destruct (init_hash (register_all rs SCPFACInitCtx)) as [h|] eqn:Hh;
      [|done].
    apply find_some in Hlook as [Ht Hid]. apply Z.eqb_eq in Hid.
    assert (t ∈ stored_patterns (register_all rs SCPFACInitCtx)) as Hst.
    { apply (bucket_stored _ (SCPFACInitHashRaw pat (Z.of_nat (length pat)))).
      unfold bucket. rewrite Hh. by apply list_elem_of_In. }
    destruct (stored_from_registrations rs t Hst)
      as (pat' & pid' & flags' & Hin' & _ & ->).
    cbn [p_id pattern_of] in Hid. subst pid'.
    apply (Hfresh pid).
    + apply list_elem_of_In, in_map_iff. exists (pat', pid, flags').
      split; [done|]. by apply list_elem_of_In.
    + cbn. apply list_elem_of_here.
Qed.

(** X5. What is stored is what was registered: when the registrations
    carry pairwise distinct ids, the insertion hash holds exactly the
    patterns made from the registrations with a non-empty string; none is
    dropped and nothing else is stored. *)
Theorem stored_patterns_are_registrations rs p :
  NoDup (map (fun r : Registration => r.1.2) rs) ->
  p ∈ stored_patterns (register_all rs SCPFACInitCtx) <->
  exists pat pid flags,
    (pat, pid, flags) ∈ rs /\ pat <> [] /\ p = pattern_of pat pid flags.
Proof.
  intros Hnd. split; [apply stored_from_registrations|].
  intros (pat & pid & flags & Hin & Hne & ->).
  by apply registrations_stored.
Qed.

(** ** The goto table is a trie of the patterns *)

Lemma grows_refl g : grows g g.
Proof. by intros s b _. Qed.

Lemma grows_trans g1 g2 g3 : grows g1 g2 -> grows g2 g3 -> grows g1 g3.
Proof.
  intros H12 H23 s b Hr. rewrite <- (H12 s b Hr). apply H23.
  unfold real. by rewrite (H12 s b Hr).
Qed.

Lemma trie_state_grows g g' w : forall s t,
  grows g g' -> trie_state g s w = Some t -> trie_state g' s w = Some t.
Proof.
  induction w as [|c w IH]; intros s t Hg Hw; cbn [trie_state] in *; [done|].
  destruct (Z.eqb_spec (get2 g s c) SC_PFAC_FAIL) as [|Hf]; [done|].
  destruct (Z.eqb_spec (get2 g s c) 0) as [|Hz]; [done|].
  cbn [orb] in Hw. rewrite (Hg s c) by done.
  destruct (Z.eqb_spec (get2 g s c) SC_PFAC_FAIL) as [|_]; [done|].
  destruct (Z.eqb_spec (get2 g s c) 0) as [|_]; [done|].
  cbn [orb]. by apply IH.
Qed.

Lemma trie_state_app g w1 : forall w2 s,
  trie_state g s (w1 ++ w2) =
  match trie_state g s w1 with
  | Some t => trie_state g t w2
  | None => None
  end.
Proof.
  induction w1 as [|c w1 IH]; intros w2 s; cbn [trie_state app]; [done|].
  destruct (_ || _); [done|]. apply IH.
Qed.

Lemma get2_app_row g row s b :
  (Z.to_nat s < length g)%nat -> get2 (g ++ [row]) s b = get2 g s b.
Proof. intros H. rewrite !get2_cell. by apply cell_app_l. Qed.

Lemma get2_beyond g s b : (length g <= Z.to_nat s)%nat -> get2 g s b = 0.
Proof.
  intros H. unfold get2, get.
  by rewrite (proj2 (lookup_ge_None g (Z.to_nat s))).
Qed.

Lemma grows_new_row g : grows g (g ++ [replicate 256 SC_PFAC_FAIL]).
Proof.
  intros s b [_ Hz].
  destruct (decide (Z.to_nat s < length g)%nat) as [Hlt|Hge];
    [by apply get2_app_row|].
  rewrite get2_beyond in Hz by lia. done.
Qed.

Lemma get2_set2_ne g s c v s' b' :
  Z.to_nat s' <> Z.to_nat s \/ Z.to_nat b' <> Z.to_nat c ->
  get2 (set2 g s c v) s' b' = get2 g s' b'.
Proof. intros H. rewrite !get2_cell. by apply cell_set2_ne. Qed.

Lemma grows_set2 g s c v : ~ real g s c -> grows g (set2 g s c v).
Proof.
  intros Hn s' b' Hr.
  destruct (decide (Z.to_nat s' = Z.to_nat s)) as [Es|Hs];
    [destruct (decide (Z.to_nat b' = Z.to_nat c)) as [Eb|Hb]|].
  - exfalso. apply Hn. unfold real in *. rewrite !get2_cell in *.
    by rewrite <- Es, <- Eb.
  - apply get2_set2_ne. by right.
  - apply get2_set2_ne. by left.
Qed.

Lemma get_app_row {A} (o : list (list A)) s :
  get [] (o ++ [[]]) s = get [] o s.
Proof.
  unfold get. destruct (decide (Z.to_nat s < length o)%nat) as [Hlt|Hge].
  - by rewrite lookup_app_l.
  - rewrite (proj2 (lookup_ge_None o (Z.to_nat s))) by lia.
    rewrite lookup_app_r by lia.
    by destruct (Z.to_nat s - length o)%nat as [|[|k]].
Qed.

(** A new state that is entered from [state] on the byte [c]. *)
Lemma trie_ok_link m0 ps m state c n m1 w :
  building m0 m -> trie_ok ps m ->
  0 <= state < state_count m -> 0 <= c < 256 ->
  is_bytes w -> trie_state (goto_table m) 0 w = Some state ->
  ~ real (goto_table m) state c ->
  SCPFACInitNewState m = Ok (n, m1) ->
  let m2 := with_goto_table m1 (set2 (goto_table m1) state c n) in
  trie_ok ps m2 /\ grows (goto_table m) (goto_table m2) /\
  n = state_count m /\ state_count m2 = state_count m + 1 /\
  trie_state (goto_table m2) 0 (w ++ [c]) = Some n /\
  get2 (goto_table m2) state c = n.
Proof.
  intros Hb [Hreach Hspell Hsound Hnd] Hs Hc Hw Hpath Hnr Hnew. cbv zeta.
  pose proof Hb as (Hwf & H1 & _).
  destruct (SCPFACInitNewState_spec _ _ _ Hwf Hnew)
    as (-> & Hsc & Hg & Ho & _ & _ & _ & _ & _ & Hwf1).
  ctx_simpl.
  pose proof (wf_goto_len _ Hwf) as Hlen. pose proof (wf_rect _ Hwf1) as Hr1.
  assert (grows (goto_table m) (set2 (goto_table m1) state c (state_count m)))
    as Hgrow.
  { rewrite Hg. eapply grows_trans; [apply grows_new_row|].
    apply grows_set2. intros [Hf Hz]. apply Hnr.
    rewrite get2_app_row in Hf, Hz by lia. by split. }
  assert (get2 (set2 (goto_table m1) state c (state_count m)) state c
          = state_count m) as Hcell.
  { rewrite get2_cell. apply cell_set2_eq; [exact Hr1| |lia].
    rewrite Hg, length_app. cbn [length]. lia. }
  assert (trie_state (set2 (goto_table m1) state c (state_count m)) 0
            (w ++ [c]) = Some (state_count m)) as Hnewpath.
  { rewrite trie_state_app, (trie_state_grows _ _ _ _ _ Hgrow Hpath).
    cbn [trie_state]. rewrite Hcell.
    destruct (Z.eqb_spec (state_count m) SC_PFAC_FAIL) as [E|_];
      [unfold SC_PFAC_FAIL in E; lia|].
    destruct (Z.eqb_spec (state_count m) 0) as [E|_]; [lia|]. done. }
  split; [|by repeat split].
  split; ctx_simpl.
  - intros n Hn. rewrite Hsc in Hn.
    destruct (decide (n = state_count m)) as [->|Hne].
    + exists (w ++ [c]). split; [|exact Hnewpath].
      apply Forall_app. split; [exact Hw|by apply Forall_singleton].
    + destruct (Hreach n ltac:(lia)) as (w' & Hw' & Hp').
      exists w'. split; [exact Hw'|]. by eapply trie_state_grows.
  - intros p Hp. destruct (Hspell p Hp) as (s & Hs' & Hp' & Hid).
    exists s. split; [lia|]. split; [by eapply trie_state_grows|].
    by rewrite Ho, get_app_row.
  - intros s pid Hs0 Hpid. rewrite Ho, get_app_row in Hpid.
    destruct (Hsound s pid Hs0 Hpid) as (p & Hp & Hid & Hp').
    exists p. split; [done|]. split; [done|]. by eapply trie_state_grows.
  - intros s. rewrite Ho, get_app_row. apply Hnd.
Qed.

Lemma foldM_inv_rem {A S} (J : list A -> S -> Prop) (f : S -> A -> result S) :
  (forall a l s s', J (a :: l) s -> f s a = Ok s' -> J l s') ->
  forall l s s', J l s -> foldM f l s = Ok s' -> J [] s'.
Proof.
  intros Hstep. induction l as [|a l IH]; intros s s' Hs Hrun.
  - by injection Hrun as <-.
  - cbn [foldM] in Hrun. apply bind_Ok in Hrun as (s1 & E & Hrun).
    eapply IH; [|exact Hrun]. by eapply Hstep.
Qed.

Lemma get_set_row {A} (o : list (list A)) st row s :
  get [] (set o st row) s =
  if decide (Z.to_nat s = Z.to_nat st /\ (Z.to_nat st < length o)%nat)
  then row else get [] o s.
Proof.
  unfold get, set. destruct (decide _) as [[-> Hlt]|Hn].
  - by rewrite list_lookup_insert_eq.
  - destruct (decide (Z.to_nat s = Z.to_nat st)) as [E|Hne].
    + rewrite list_insert_ge by lia. done.
    + by rewrite list_lookup_insert_ne.
Qed.

(** The id of a pattern whose bytes lead to [st] is added to the output
    row of [st]. *)
Lemma trie_ok_output ps m p st :
  goto_wf m -> trie_ok ps m -> 0 <= st < state_count m ->
  trie_state (goto_table m) 0 (label p) = Some st ->
  trie_ok (ps ++ [p]) (SCPFACSetOutputState st (p_id p) m).
Proof.
  intros Hwf [Hreach Hspell Hsound Hnd] Hst Hpath.
  destruct (SCPFACSetOutputState_fields st (p_id p) m) as (Hsc & Hg & _).
  pose proof (wf_out_len _ Hwf) as Hlen.
  assert (forall s pid,
            pid ∈ get [] (output_table (SCPFACSetOutputState st (p_id p) m)) s
            <-> pid ∈ get [] (output_table m) s \/
                (Z.to_nat s = Z.to_nat st /\ pid = p_id p)) as Hrows.
  { intros s pid. unfold SCPFACSetOutputState.
    destruct (existsb _ _) eqn:Ex.
    - split; [by left|]. intros [?|[Es ->]]; [done|].
      apply existsb_exists in Ex as (x & Hx & E). apply Z.eqb_eq in E as ->.
      apply list_elem_of_In in Hx. unfold get in *. by rewrite Es.
    - ctx_simpl. rewrite get_set_row.
      destruct (decide _) as [[Es _]|Hn].
      + rewrite elem_of_app, list_elem_of_singleton.
        unfold get. rewrite Es. tauto.
      + split; [by left|]. intros [?|[Es _]]; [done|].
        exfalso. apply Hn. split; [done|lia]. }
  split; rewrite ?Hsc, ?Hg.
  - exact Hreach.
  - intros q Hq. apply elem_of_app in Hq as [Hq|Hq].
    + destruct (Hspell q Hq) as (s & Hs & Hp & Hid).
      exists s. split; [done|]. split; [done|]. apply Hrows. by left.
    + apply list_elem_of_singleton in Hq as ->.
      exists st. split; [done|]. split; [done|]. apply Hrows. by right.
  - intros s pid Hs Hpid. apply Hrows in Hpid as [Hpid|[Es ->]].
    + destruct (Hsound s pid Hs Hpid) as (q & Hq & Hid & Hp).
      exists q. split; [apply elem_of_app; by left|]. by split.
    + exists p. split; [apply elem_of_app; right; apply list_elem_of_here|].
      split; [done|]. by replace s with st by lia.
  - intros s. unfold SCPFACSetOutputState.
    destruct (existsb _ _) eqn:Ex; [apply Hnd|].
    ctx_simpl. rewrite get_set_row. destruct (decide _); [|apply Hnd].
    apply NoDup_app. split; [apply Hnd|]. split; [|apply NoDup_singleton].
    intros x Hx Hxp. apply list_elem_of_singleton in Hxp as ->.
    apply Bool.not_true_iff_false in Ex. apply Ex. apply existsb_exists.
    exists (p_id p). split; [by apply list_elem_of_In|apply Z.eqb_refl].
Qed.

(** The first loop of SCPFACEnter follows the transitions of the trie. *)
Lemma enter_walk_path m pattern : forall state st' rest,
  goto_wf m -> 0 <= state < state_count m -> is_bytes pattern ->
  enter_walk (goto_table m) state pattern = (st', rest) ->
  exists consumed,
    pattern = consumed ++ rest /\
    trie_state (goto_table m) state consumed = Some st' /\
    0 <= st' < state_count m /\
    (forall c rest', rest = c :: rest' -> get2 (goto_table m) st' c = SC_PFAC_FAIL).
Proof.
  induction pattern as [|c pattern IH]; intros state st' rest Hwf Hs Hb Hrun;
    cbn [enter_walk] in Hrun.
  - injection Hrun as <- <-. exists []. repeat split; try done; lia.
  - apply Forall_cons in Hb as [Hc Hb].
    destruct (Z.eqb_spec (get2 (goto_table m) state c) SC_PFAC_FAIL)
      as [Hf|Hnf]; cbn [negb] in Hrun.
    + injection Hrun as <- <-. exists []. repeat split; try done; try lia.
      intros c' rest' E. by injection E as <- <-.
    + assert (state < get2 (goto_table m) state c < state_count m) as Hn.
      { rewrite get2_cell in Hnf |- *.
        assert (Z.to_nat state < length (goto_table m))%nat as Hs'
          by (rewrite (wf_goto_len _ Hwf); lia).
        destruct (wf_cells _ Hwf (Z.to_nat state) (Z.to_nat c) Hs'
                    ltac:(lia)) as [?|?]; [done|lia]. }
      destruct (IH (get2 (goto_table m) state c) st' rest Hwf ltac:(lia) Hb
                  Hrun) as (w & -> & Hp & Hst & Hfail).
      exists (c :: w). split; [done|]. split; [|by split].
      cbn [trie_state].
      destruct (Z.eqb_spec (get2 (goto_table m) state c) SC_PFAC_FAIL)
        as [|_]; [done|].
      destruct (Z.eqb_spec (get2 (goto_table m) state c) 0) as [|_]; [lia|].
      exact Hp.
Qed.

(** The second loop of SCPFACEnter adds a path for the remaining bytes. *)
Lemma enter_extend_trie m0 ps suffix : forall m state w st' m',
  building m0 m -> trie_ok ps m -> 0 <= state < state_count m ->
  is_bytes suffix -> is_bytes w ->
  trie_state (goto_table m) 0 w = Some state ->
  (forall c rest, suffix = c :: rest -> ~ real (goto_table m) state c) ->
  enter_extend m state suffix = Ok (st', m') ->
  trie_ok ps m' /\ trie_state (goto_table m') 0 (w ++ suffix) = Some st' /\
  0 <= st' < state_count m'.
Proof.
  induction suffix as [|c rest IH];
    intros m state w st' m' Hb Hok Hs Hsuf Hw Hpath Hfree Hrun;
    cbn [enter_extend] in Hrun.
  - injection Hrun as <- <-. by rewrite app_nil_r.
  - apply bind_Ok in Hrun as ([n m1] & Hnew & Hrun).
    apply Forall_cons in Hsuf as [Hc Hsuf].
    destruct (trie_ok_link m0 ps m state c n m1 w Hb Hok Hs Hc Hw Hpath
                (Hfree c rest eq_refl) Hnew)
      as (Hok2 & Hgrow & -> & Hsc2 & Hpath2 & Hcell).
    destruct (building_new_state _ _ _ _ Hb Hnew) as (Hb1 & _ & Hn).
    pose proof (building_set2 m0 m1 state c (state_count m) Hb1 ltac:(lia))
      as Hb2.
    destruct (SCPFACInitNewState_spec _ _ _ (proj1 Hb) Hnew)
      as (_ & _ & Hg1 & _).
    pose proof (wf_goto_len _ (proj1 Hb)) as Hlen.
    replace (w ++ c :: rest) with ((w ++ [c]) ++ rest)
      by (by rewrite <- app_assoc).
    eapply (IH _ (state_count m) (w ++ [c])); try done.
    + ctx_simpl. lia.
    + apply Forall_app. split; [done|by apply Forall_singleton].
    + intros c' rest' -> [Hf _]. apply Hf. ctx_simpl.
      apply Forall_cons in Hsuf as [Hc' _].
      rewrite get2_set2_ne by (left; lia). rewrite Hg1, get2_cell.
      apply cell_app_new; lia.
Qed.

Lemma SCPFACEnter_trie m0 ps p m m' :
  building m0 m -> trie_ok ps m -> is_bytes (p_ci p) ->
  SCPFACEnter (p_ci p) (p_len p) (p_id p) m = Ok m' ->
  trie_ok (ps ++ [p]) m'.
Proof.
  intros Hb Hok Hbytes Hrun. unfold SCPFACEnter in Hrun.
  fold (label p) in Hrun.
  destruct (enter_walk _ _ _) as [state rest] eqn:Ew.
  apply bind_Ok in Hrun as ([st1 m1] & Hext & Hrun). injection Hrun as <-.
  pose proof Hb as (Hwf & H1 & _).
  assert (is_bytes (label p)) as Hlab by (by apply Forall_take).
  destruct (enter_walk_path m (label p) 0 state rest Hwf ltac:(lia) Hlab Ew)
    as (w & Elab & Hpath & Hst & Hfail).
  assert (is_bytes w /\ is_bytes rest) as [Hw Hrest]
    by (rewrite Elab in Hlab; by apply Forall_app in Hlab).
  destruct (enter_extend_trie m0 ps rest m state w st1 m1 Hb Hok Hst Hrest Hw
              Hpath) as (Hok1 & Hpath1 & Hst1); [|exact Hext|].
  { intros c rest' E [Hf _]. by apply Hf, (Hfail c rest'). }
  rewrite <- Elab in Hpath1.
  pose proof (enter_extend_building m0 rest m state st1 m1 Hb ltac:(lia) Hext)
    as (Hwf1 & _ & _).
  by apply trie_ok_output.
Qed.

Lemma same_frame_patterns m m' : same_frame m m' -> patterns m' = patterns m.
Proof. intros (_ & _ & _ & Hpa & Hpc). unfold patterns. by rewrite Hpa, Hpc. Qed.

Lemma SCPFACDetermineLevel1Gap_trie m0 m m' :
  building m0 m -> trie_ok [] m ->
  (forall u, 0 <= u < 256 -> get2 (goto_table m) 0 u = SC_PFAC_FAIL) ->
  SCPFACDetermineLevel1Gap m = Ok m' -> trie_ok [] m'.
Proof.
  intros Hb Hok Hrow Hrun. unfold SCPFACDetermineLevel1Gap in Hrun.
  set (J := fun (l : list Z) (m : MpmCtx) =>
              building m0 m /\ trie_ok [] m /\ NoDup l /\
              Forall (fun b => 0 <= b < 256) l /\
              forall u, u ∈ l -> get2 (goto_table m) 0 u = SC_PFAC_FAIL).
  enough (J [] m') as (_ & ? & _) by done.
  revert Hrun. apply (foldM_inv_rem J).
  - intros u l s s' (Hbs & Hoks & Hnd & Hl & Hfail) Hstep.
    apply NoDup_cons in Hnd as [Hul Hnd]. apply Forall_cons in Hl as [Hu Hl].
    destruct (get 0 _ u =? 0).
    { injection Hstep as <-. do 4 (split; [done|]).
      intros u' Hu'. apply Hfail. by apply list_elem_of_further. }
    apply bind_Ok in Hstep as ([n m1] & Hnew & Hstep). injection Hstep as <-.
    pose proof Hbs as (Hwf & H1 & _).
    destruct (trie_ok_link m0 [] s 0 u n m1 [] Hbs Hoks ltac:(lia) Hu
                ltac:(constructor) eq_refl) as (Hok2 & _ & -> & _);
      [|exact Hnew|].
    { intros [Hf _]. apply Hf, Hfail, list_elem_of_here. }
    destruct (building_new_state _ _ _ _ Hbs Hnew) as (Hb1 & _ & Hn).
    destruct (SCPFACInitNewState_spec _ _ _ Hwf Hnew) as (_ & _ & Hg1 & _).
    split; [apply building_set2; [exact Hb1|lia]|].
    split; [exact Hok2|]. split; [exact Hnd|]. split; [exact Hl|].
    intros u' Hu'. ctx_simpl.
    rewrite Forall_forall in Hl. pose proof (Hl u' Hu').
    rewrite get2_set2_ne by (right; intros E; apply Hul;
                             by replace u with u' by lia).
    rewrite Hg1, get2_app_row by (rewrite (wf_goto_len _ Hwf); lia).
    apply Hfail. by apply list_elem_of_further.
  - split; [exact Hb|]. split; [exact Hok|]. split; [apply NoDup_seqZ|].
    split; [apply seqZ_256_bytes|].
    intros u Hu. apply Hrow. by apply seqZ_256_range.
Qed.

(** The loop that replaces the FAIL cells of row 0 adds no transition. *)
Lemma trie_state_root_fix g w : forall s,
  rect g -> (0 < length g)%nat ->
  trie_state (root_fail_to_zero g) s w = trie_state g s w.
Proof.
  intros s Hr Hlen. revert s.
  destruct (root_fail_to_zero_cells (seqZ 0 256) g Hr Hlen seqZ_256_range)
    as (Hlen' & Hr' & Hcell').
  assert (forall s c,
            get2 (root_fail_to_zero g) s c = get2 g s c \/
            (get2 g s c = SC_PFAC_FAIL /\ get2 (root_fail_to_zero g) s c = 0))
    as Hcases.
  { intros s c. rewrite !get2_cell. unfold root_fail_to_zero.
    destruct (decide (Z.to_nat c < 256)%nat) as [Hc|Hc].
    - rewrite Hcell' by exact Hc.
      destruct (decide _) as [(_ & _ & Hf)|_]; [by right|by left].
    - left. rewrite !cell_out_of_range; try done; right; lia. }
  induction w as [|c w IH]; intros s; cbn [trie_state]; [done|].
  destruct (Hcases s c) as [->|[-> ->]].
  - destruct (_ || _); [done|apply IH].
  - done.
Qed.

Lemma SCPFACBuildGoto_trie m mg :
  fresh_tables m -> Forall (fun p => is_bytes (p_ci p)) (patterns m) ->
  SCPFACBuildGoto m = Ok mg -> trie_ok (patterns m) mg.
Proof.
  intros Hfresh Hbytes Hrun. unfold SCPFACBuildGoto in Hrun.
  apply bind_Ok in Hrun as ([n m0] & E0 & Hrun).
  apply bind_Ok in Hrun as (m1 & E1 & Hrun).
  pose proof (fresh_tables_wf _ Hfresh) as Hwf.
  destruct (SCPFACInitNewState_spec _ _ _ Hwf E0)
    as (-> & Hsc & Hg0 & Ho0 & H16 & H32 & Hpl & Hpa & Hpc & Hwf0).
  destruct Hfresh as (Hz & Hg & Ho & _).
  assert (building m m0) as Hb0.
  { split; [exact Hwf0|]. split; [lia|]. by repeat split. }
  assert (trie_ok [] m0) as Hok0.
  { split.
    - intros k Hk. lia.
    - intros p Hp. by apply elem_of_nil in Hp.
    - intros s pid _ Hpid. rewrite Ho0, Ho in Hpid. cbn [app] in Hpid.
      unfold get in Hpid.
      destruct (Z.to_nat s) as [|[|k]]; cbn in Hpid;
        by apply elem_of_nil in Hpid.
    - intros s. rewrite Ho0, Ho. cbn [app]. unfold get.
      destruct (Z.to_nat s) as [|[|k]]; cbn; constructor. }
  assert (forall u, 0 <= u < 256 -> get2 (goto_table m0) 0 u = SC_PFAC_FAIL)
    as Hrow0.
  { intros u Hu. rewrite Hg0, Hg, get2_cell. cbn [app].
    apply (cell_app_new [] _ _ eq_refl). lia. }
  pose proof (SCPFACDetermineLevel1Gap_building _ _ _ Hb0 E1) as Hb1.
  pose proof (SCPFACDetermineLevel1Gap_trie _ _ _ Hb0 Hok0 Hrow0 E1) as Hok1.
  assert (patterns m1 = patterns m) as Hpat
    by (apply same_frame_patterns; apply Hb1).
  unfold SCPFACCreateGotoTable in Hrun.
  apply bind_Ok in Hrun as (m2 & E2 & Hrun). injection Hrun as <-.
  rewrite Hpat in E2.
  set (J := fun (l : list SCPFACPattern) (m' : MpmCtx) =>
              building m m' /\
              exists done, done ++ l = patterns m /\ trie_ok done m').
  assert (J [] m2) as (Hb2 & done & Edone & Hok2).
  { revert E2. apply (foldM_inv_rem J).
    - intros p l s s' (Hbs & done & Edone & Hoks) Hstep.
      split; [eapply SCPFACEnter_building; eauto|].
      exists (done ++ [p]). split; [by rewrite <- app_assoc|].
      eapply SCPFACEnter_trie; eauto.
      rewrite Forall_forall in Hbytes. apply Hbytes.
      rewrite <- Edone. apply elem_of_app. right. apply list_elem_of_here.
    - split; [exact Hb1|]. exists []. by split. }
  rewrite app_nil_r in Edone. subst done.
  destruct Hok2 as [Hreach Hspell Hsound Hnd].
  pose proof Hb2 as (Hwf2 & H12 & _).
  assert (forall w s, trie_state (root_fail_to_zero (goto_table m2)) s w
                      = trie_state (goto_table m2) s w) as Hfix.
  { intros w s. apply trie_state_root_fix; [apply (wf_rect _ Hwf2)|].
    rewrite (wf_goto_len _ Hwf2). lia. }
  split; ctx_simpl.
  - intros k Hk. destruct (Hreach k Hk) as (w & Hw & Hp).
    exists w. by rewrite Hfix.
  - intros p Hp. destruct (Hspell p Hp) as (s & Hs & Hp' & Hid).
    exists s. by rewrite Hfix.
  - intros s pid Hs Hpid. destruct (Hsound s pid Hs Hpid) as (p & ? & ? & ?).
    exists p. by rewrite Hfix.
  - exact Hnd.
Qed.

Lemma trie_state_snoc g w c s :
  trie_state g 0 (w ++ [c]) = Some s ->
  exists t, trie_state g 0 w = Some t /\ get2 g t c = s /\
            s <> SC_PFAC_FAIL /\ s <> 0.
Proof.
  rewrite trie_state_app. destruct (trie_state g 0 w) as [t|]; [|done].
  cbn [trie_state].
  destruct (Z.eqb_spec (get2 g t c) SC_PFAC_FAIL) as [|Hf]; [done|].
  destruct (Z.eqb_spec (get2 g t c) 0) as [|Hz]; [done|].
  cbn [orb]. intros [= <-]. by exists t.
Qed.

Lemma trie_state_range g count w :
  edges_ok g count -> 1 <= count -> is_bytes w ->
  forall s, trie_state g 0 w = Some s -> 0 <= s < count.
Proof.
  intros (Hedges & Hroot & _) Hcount.
  induction w as [|c w IH] using rev_ind; intros Hw s Hp.
  - injection Hp as <-. lia.
  - apply Forall_app in Hw as [Hw Hc]. rewrite Forall_singleton in Hc.
    apply trie_state_snoc in Hp as (t & Ht & <- & Hf & Hz).
    specialize (IH Hw t Ht).
    destruct (decide (t = 0)) as [->|Hne]; [by apply Hroot|].
    destruct (Hedges t c ltac:(lia) Hc) as [?|?]; [done|lia].
Qed.

(** No two strings of bytes lead from state 0 to the same state. *)
Lemma trie_state_unique g count :
  edges_ok g count -> 1 <= count ->
  forall w1 w2 s, is_bytes w1 -> is_bytes w2 ->
    trie_state g 0 w1 = Some s -> trie_state g 0 w2 = Some s -> w1 = w2.
Proof.
  intros Hedges Hcount. pose proof Hedges as (_ & _ & Hinj).
  induction w1 as [|c1 w1 IH] using rev_ind; intros w2 s Hw1 Hw2 Hp1 Hp2.
  - injection Hp1 as <-.
    destruct w2 as [|c2 w2 _] using rev_ind; [done|].
    apply trie_state_snoc in Hp2 as (_ & _ & _ & _ & Hz). done.
  - apply trie_state_snoc in Hp1 as (t1 & Ht1 & E1 & Hf & Hz).
    destruct w2 as [|c2 w2 _] using rev_ind.
    { injection Hp2 as <-. done. }
    apply trie_state_snoc in Hp2 as (t2 & Ht2 & E2 & _ & _).
    apply Forall_app in Hw1 as [Hw1 Hc1]. rewrite Forall_singleton in Hc1.
    apply Forall_app in Hw2 as [Hw2 Hc2]. rewrite Forall_singleton in Hc2.
    pose proof (trie_state_range g count w1 Hedges Hcount Hw1 t1 Ht1) as Hr1.
    pose proof (trie_state_range g count w2 Hedges Hcount Hw2 t2 Ht2) as Hr2.
    assert (0 <= s < count) as Hs.
    { apply (trie_state_range g count (w1 ++ [c1])); try done.
      - apply Forall_app. split; [done|by apply Forall_singleton].
      - rewrite trie_state_app, Ht1. cbn [trie_state]. rewrite E1.
        destruct (Z.eqb_spec s SC_PFAC_FAIL) as [|_]; [done|].
        by destruct (Z.eqb_spec s 0) as [|_]. }
    destruct (Hinj t1 c1 t2 c2 Hr1 Hc1 Hr2 Hc2 ltac:(lia) ltac:(congruence))
      as [-> ->].
    f_equal. by apply (IH w2 t2).
Qed.

(** The contexts SCPFACPreparePatterns builds the goto table for. *)
Lemma prepared_goto rs mg :
  Forall (fun reg : Registration => is_bytes reg.1.1) rs ->
  Z.of_nat (length rs) < 2 ^ 32 ->
  SCPFACPreparePatterns_goto (register_all rs SCPFACInitCtx) = Ok mg ->
  (stored_patterns (register_all rs SCPFACInitCtx) = [] /\
   mg = register_all rs SCPFACInitCtx) \/
  (goto_final mg /\ goto_inj (goto_table mg) /\
   trie_ok (stored_patterns (register_all rs SCPFACInitCtx)) mg).
Proof.
  intros Hbytes Hlen Hrun.
  pose proof (register_all_tables rs _ SCPFACInitCtx_tables) as Htab.
  pose proof (registered_pattern_cnt rs Hlen) as Hcnt.
  destruct (register_all_store_ok rs _ Hbytes SCPFACInitCtx_store_ok)
    as (h & Hh & Hok).
  unfold SCPFACPreparePatterns_goto in Hrun. rewrite Hh in Hrun.
  destruct (Z.eqb_spec (pattern_cnt (register_all rs SCPFACInitCtx)) 0)
    as [Ez|Hnz].
  - left. injection Hrun as <-. split; [|done].
    rewrite Hcnt in Ez. by destruct (stored_patterns _).
  - right.
    pose proof (setup_fresh _ h Htab) as Hfresh.
    destruct (SCPFACBuildGoto_final _ _ Hfresh Hrun) as [Hf _].
    split; [exact Hf|]. split; [by eapply SCPFACBuildGoto_inj|].
    destruct (setup_patterns_stored rs h Hlen Hh) as [_ Hpat].
    rewrite <- Hpat. apply SCPFACBuildGoto_trie; [exact Hfresh| |exact Hrun].
    pose proof (setup_patterns_ok (register_all rs SCPFACInitCtx) h Hok)
      as Hpok.
    eapply Forall_impl; [exact Hpok|]. by intros p (_ & _ & ?).
Qed.

Lemma stored_label rs p :
  p ∈ stored_patterns (register_all rs SCPFACInitCtx) -> label p = p_ci p.
Proof.
  intros Hp. destruct (sc_made _ (registered_counts rs) p Hp) as (pat & _ & ->).
  unfold label, pattern_of, memcpy_tolower. cbn [p_len p_ci].
  apply firstn_all2. rewrite length_map, Nat2Z.id. lia.
Qed.

Lemma output_rows_goto rs mg s :
  Forall (fun reg : Registration => is_bytes reg.1.1) rs ->
  Z.of_nat (length rs) < 2 ^ 32 ->
  SCPFACPreparePatterns_goto (register_all rs SCPFACInitCtx) = Ok mg ->
  0 <= s ->
  NoDup (get [] (output_table mg) s) /\
  forall pid, pid ∈ get [] (output_table mg) s ->
    exists p, p ∈ stored_patterns (register_all rs SCPFACInitCtx) /\
      p_id p = pid /\ trie_state (goto_table mg) 0 (p_ci p) = Some s.
Proof.
  intros Hbytes Hlen Hrun Hs.
  destruct (prepared_goto rs mg Hbytes Hlen Hrun) as [[_ ->]|(_ & _ & Hok)].
  - destruct (register_all_tables rs _ SCPFACInitCtx_tables)
      as (_ & _ & -> & _).
    unfold get. rewrite lookup_nil. cbn [default].
    split; [constructor|]. intros pid Hpid. by apply elem_of_nil in Hpid.
  - split; [apply (to_nodup _ _ Hok)|]. intros pid Hpid.
    destruct (to_sound _ _ Hok s pid Hs Hpid) as (p & Hp & Hid & Hpath).
    exists p. split; [done|]. split; [done|].
    by rewrite <- (stored_label rs p Hp).
Qed.

(** X6. The goto table spells every stored pattern: when
    SCPFACPreparePatterns has built the goto table, following the lowercase
    bytes of any stored pattern from state 0 never meets a FAIL cell and
    ends in a state whose output row holds the id of the pattern. *)
Theorem goto_table_spells_patterns rs mg p :
  Forall (fun reg : Registration => is_bytes reg.1.1) rs ->
  Z.of_nat (length rs) < 2 ^ 32 ->
  SCPFACPreparePatterns_goto (register_all rs SCPFACInitCtx) = Ok mg ->
  p ∈ stored_patterns (register_all rs SCPFACInitCtx) ->
  exists s, 0 <= s < state_count mg /\
    trie_state (goto_table mg) 0 (p_ci p) = Some s /\
    p_id p ∈ get [] (output_table mg) s.
Proof.
  intros Hbytes Hlen Hrun Hp.
  destruct (prepared_goto rs mg Hbytes Hlen Hrun) as [[E _]|(_ & _ & Hok)].
  - rewrite E in Hp. by apply elem_of_nil in Hp.
  - rewrite <- (stored_label rs p Hp). by apply (to_spell _ _ Hok).
Qed.

(** X7. The output table names only patterns that end there: an id in the
    output row of a state is the id of a stored pattern whose lowercase
    bytes lead from state 0 to that state, and no row holds an id twice. *)
Theorem output_rows_name_patterns rs mg s :
  Forall (fun reg : Registration => is_bytes reg.1.1) rs ->
  Z.of_nat (length rs) < 2 ^ 32 ->
  SCPFACPreparePatterns_goto (register_all rs SCPFACInitCtx) = Ok mg ->
  0 <= s ->
  NoDup (get [] (output_table mg) s) /\
  forall pid, pid ∈ get [] (output_table mg) s ->
    exists p, p ∈ stored_patterns (register_all rs SCPFACInitCtx) /\
      p_id p = pid /\ trie_state (goto_table mg) 0 (p_ci p) = Some s.
Proof. apply output_rows_goto. Qed.

(** X8. The goto table is a tree: every state other than 0 is reached
    from state 0 by a string of bytes, and no two strings of bytes reach
    the same state. *)
Theorem goto_table_is_a_tree rs mg :
  Forall (fun reg : Registration => is_bytes reg.1.1) rs ->
  Z.of_nat (length rs) < 2 ^ 32 ->
  SCPFACPreparePatterns_goto (register_all rs SCPFACInitCtx) = Ok mg ->
  (forall n, 1 <= n < state_count mg ->
     exists w, is_bytes w /\ trie_state (goto_table mg) 0 w = Some n) /\
  (forall w1 w2 s, is_bytes w1 -> is_bytes w2 ->
     trie_state (goto_table mg) 0 w1 = Some s ->
     trie_state (goto_table mg) 0 w2 = Some s -> w1 = w2).
Proof.
  intros Hbytes Hlen Hrun.
  destruct (prepared_goto rs mg Hbytes Hlen Hrun)
    as [[_ ->]|(Hf & Hinj & Hok)].
  - destruct (register_all_tables rs _ SCPFACInitCtx_tables)
      as (-> & -> & _).
    split; [intros n Hn; lia|].
    assert (forall w s, trie_state [] 0 w = Some s -> w = []) as Hnil.
    { intros [|c w] s Hw; [done|]. cbn [trie_state] in Hw.
      rewrite get2_beyond in Hw by (cbn [length]; lia). done. }
    intros w1 w2 s _ _ H1 H2. by rewrite (Hnil _ _ H1), (Hnil _ _ H2).
  - split; [apply (to_reach _ _ Hok)|].
    apply (trie_state_unique _ (state_count mg)).
    + by apply goto_final_edges_ok.
    + pose proof (gf_count _ Hf). lia.
Qed.

(** ** The state queue is first in, first out *)




(** ** The breadth-first loops copy every transition *)

Lemma copied_set2 cast g t r' b' r b :
  copied cast g t r b ->
  copied cast g (set2 t r' b' (cast (get2 g r' b'))) r b.
Proof.
  unfold copied. rewrite !get2_cell. intros H.
  destruct (cell_set2_cases t r' b' (cast (cell g (Z.to_nat r') (Z.to_nat b')))
              (Z.to_nat r) (Z.to_nat b)) as [->|(-> & -> & -> & _)]; done.
Qed.

Lemma copied_new cast g t r b :
  rect t -> (Z.to_nat r < length t)%nat -> 0 <= b < 256 ->
  copied cast g (set2 t r b (cast (get2 g r b))) r b.
Proof.
  intros Hr Hlt Hb. unfold copied. rewrite (get2_cell (set2 _ _ _ _)).
  apply cell_set2_eq; [done|done|lia].
Qed.

Lemma root_copied_step cast g q t q' r' b' b :
  (forall x, x ∈ q_seen q -> x ∈ q_seen q') ->
  root_copied cast g q t b ->
  root_copied cast g q' (set2 t r' b' (cast (get2 g r' b'))) b.
Proof.
  intros Hsub [Hc Hs]. split; [by apply copied_set2|].
  intros Hnz. by apply Hsub, Hs.
Qed.

Lemma row_copied_step cast g q t q' r' b' r b :
  (forall x, x ∈ q_seen q -> x ∈ q_seen q') ->
  row_copied cast g q t r b ->
  row_copied cast g q' (set2 t r' b' (cast (get2 g r' b'))) r b.
Proof.
  intros Hsub H Hnf. destruct (H Hnf) as [Hc Hs].
  split; [by apply copied_set2|by apply Hsub].
Qed.

Lemma delta_cell_step_full cast g count r b l qt qt' :
  edges_ok g count -> count <= 65535 -> 1 <= r < count ->
  length g = Z.to_nat count ->
  full_row cast g count r (b :: l) qt ->
  delta_cell_step cast g r qt b = Ok qt' ->
  full_row cast g count r l qt'.
Proof.
  intros Hedges Hcount Hr Hlen (Hrow & Hinv & Hroot & Hrows) Hstep.
  destruct (delta_cell_step_row cast g count r b l qt Hedges Hcount Hr Hrow)
    as (qt'' & E & Hrow').
  rewrite Hstep in E. injection E as <-.
  pose proof (delta_cell_step_inv cast g r qt b qt' Hinv Hstep) as Hinv'.
  split; [exact Hrow'|]. split; [exact Hinv'|].
  pose proof Hrow as (Hnd & Hl & Hline & Hrd & Hcl).
  apply Forall_cons in Hl as [Hb Hl]. apply NoDup_cons in Hnd as [Hbl _].
  destruct qt as [q t]. unfold delta_cell_step in Hstep. cbn [fst snd] in *.
  destruct (Z.eqb_spec (get2 g r b) SC_PFAC_FAIL) as [Hf|Hnf];
    cbn [negb] in Hstep.
  - injection Hstep as <-. cbn [fst snd]. split; [exact Hroot|].
    intros r' b' Hr' Hb' Hnew.
    destruct (decide (r' = r /\ b' = b)) as [[-> ->]|Hne];
      [by intros ?|].
    apply Hrows; try done. intros ->. specialize (Hnew eq_refl).
    intros Hin. apply elem_of_cons in Hin as [->|Hin]; [by apply Hne|done].
  - apply bind_Ok in Hstep as (q' & Henq & Hstep). injection Hstep as <-.
    cbn [fst snd] in *.
    destruct Hedges as (Hedge & _). destruct (Hedge r b Hr Hb) as [?|Hu];
      [done|].
    assert (get2 g r b ∉ q_done q) as Hnd'.
    { intros Hin. apply (q_done_seen count) in Hin; [|done].
      destruct (Hcl r b Hr Hb Hin) as [_ Hnew].
      apply (Hnew eq_refl). apply list_elem_of_here. }
    destruct (SCPFACEnqueue_line count q (get2 g r b) Hline Hcount
                ltac:(unfold waiting; lia) Hnd')
      as (q'' & E & _ & _ & Hdone & Hseen).
    rewrite Henq in E. injection E as <-.
    assert (forall x, x ∈ q_seen q -> x ∈ q_seen q') as Hsub.
    { intros x Hx. destruct Hseen as [[-> _]| ->]; [done|].
      apply elem_of_app. by left. }
    assert (get2 g r b ∈ q_seen q') as Hin.
    { destruct Hseen as [[-> ?]| ->]; [done|].
      apply elem_of_app. right. apply list_elem_of_here. }
    split.
    { intros b' Hb'.
      apply (root_copied_step cast g q t q'); [exact Hsub|by apply Hroot]. }
    intros r' b' Hr' Hb' Hnew. rewrite Hdone in Hr'.
    destruct (decide (r' = r /\ b' = b)) as [[-> ->]|Hne].
    + intros _. split; [|exact Hin].
      destruct Hinv as (Hlt & Hrect & _).
      apply copied_new; [done|lia|done].
    + apply (row_copied_step cast g q t q'); [exact Hsub|].
      apply Hrows; try done. intros ->. specialize (Hnew eq_refl).
      intros Hin'. apply elem_of_cons in Hin' as [->|Hin']; [by apply Hne|done].
Qed.

Lemma delta_root_step_full cast g count b l qt qt' :
  edges_ok g count -> count <= 65535 -> 1 <= count ->
  (forall v, 0 <= v < count -> cast v = v) ->
  length g = Z.to_nat count ->
  full_root cast g count (b :: l) qt ->
  delta_root_step cast g qt b = Ok qt' ->
  full_root cast g count l qt'.
Proof.
  intros Hedges Hcount H1 Hcast Hlen (Hroot & Hnd & Hinv & Hdone) Hstep.
  destruct (delta_root_step_root cast g count b l qt Hedges Hcount Hcast Hroot)
    as (qt'' & E & Hroot').
  rewrite Hstep in E. injection E as <-.
  pose proof Hroot as (Hl & Hline & Hbot & Hcl).
  apply Forall_cons in Hl as [Hb Hl]. apply NoDup_cons in Hnd as [Hbl Hnd].
  destruct Hedges as (_ & Hrow0 & _). pose proof (Hrow0 b Hb) as Hu.
  assert (delta_inv cast g qt'.2) as Hinv'.
  { eapply delta_root_step_inv; [|exact Hb|exact Hinv|exact Hstep].
    intros b' Hb' Hf. specialize (Hrow0 (Z.of_nat b') ltac:(lia)).
    rewrite get2_cell, Nat2Z.id in Hrow0.
    change (Z.to_nat 0) with 0%nat in Hrow0. rewrite Hf in Hrow0.
    unfold SC_PFAC_FAIL in Hrow0. lia. }
  split; [exact Hroot'|]. split; [exact Hnd|]. split; [exact Hinv'|].
  destruct qt as [q t]. unfold delta_root_step in Hstep. cbn [fst snd] in *.
  assert (exists q',
            qt' = (q', set2 t 0 b (cast (get2 g 0 b))) /\
            (forall x, x ∈ q_seen q -> x ∈ q_seen q') /\
            (get2 g 0 b <> 0 -> get2 g 0 b ∈ q_seen q'))
    as (q' & -> & Hsub & Hin).
  { rewrite (Hcast _ Hu) in Hstep |- *.
    destruct (Z.eqb_spec (get2 g 0 b) 0) as [Hz|Hnz]; cbn [negb] in Hstep.
    - injection Hstep as <-. exists q. by split.
    - apply bind_Ok in Hstep as (q' & Henq & Hstep). injection Hstep as <-.
      rewrite i32_small in Henq by lia.
      assert (get2 g 0 b ∉ q_done q) as Hnd'.
      { unfold q_done. rewrite Hbot. change (Z.to_nat 0) with 0%nat.
        rewrite take_0. apply not_elem_of_nil. }
      destruct (SCPFACEnqueue_line count q (get2 g 0 b) Hline Hcount
                  ltac:(unfold waiting; lia) Hnd')
        as (q'' & E & _ & _ & _ & Hseen).
      rewrite Henq in E. injection E as <-.
      exists q'. split; [done|]. split.
      + intros x Hx. destruct Hseen as [[-> _]| ->]; [done|].
        apply elem_of_app. by left.
      + intros _. destruct Hseen as [[-> ?]| ->]; [done|].
        apply elem_of_app. right. apply list_elem_of_here. }
  cbn [fst snd] in *. intros b' Hb' Hnl.
  destruct (decide (b' = b)) as [->|Hne].
  - split; [|exact Hin]. destruct Hinv as (Hlt & Hrect & _).
    apply copied_new; [done| |done]. rewrite Hlt, Hlen.
    change (Z.to_nat 0) with 0%nat. lia.
  - apply (root_copied_step cast g q t q'); [exact Hsub|].
    apply Hdone; [done|]. intros Hin'.
    apply elem_of_cons in Hin' as [?|?]; done.
Qed.

Lemma delta_bfs_full cast g count fuel : forall q t t',
  edges_ok g count -> count <= 65535 -> length g = Z.to_nat count ->
  full_bfs cast g count q t -> delta_bfs fuel cast g q t = Ok t' ->
  exists q', full_bfs cast g count q' t' /\ q_top q' = q_bot q'.
Proof.
  induction fuel as [|fuel IH];
    intros q t t' Hedges Hcount Hlen Hfull Hrun; [done|].
  rewrite delta_bfs_S in Hrun. unfold SCPFACStateQueueIsEmpty in Hrun.
  destruct (Z.eqb_spec (q_top q) (q_bot q)) as [Heq|Hne].
  { injection Hrun as <-. by exists q. }
  destruct Hfull as ([Hline Hcl] & Hinv & Hroot & Hrows).
  destruct (SCPFACDequeue_line count q Hline Hne)
    as (r & q1 & E & Hline1 & Hr & Hrd & Hdone1 & Hseen1).
  rewrite E in Hrun. cbn [mbind result_bind] in Hrun.
  apply bind_Ok in Hrun as ([q2 t2] & Hfold & Hrun).
  assert (full_row cast g count r [] (q2, t2)) as Hrow2.
  { revert Hfold. apply (foldM_inv_rem (full_row cast g count r)).
    - intros b l qt qt'. by apply delta_cell_step_full.
    - split; [|split; [exact Hinv|split]]; cbn [fst snd].
      + split; [apply NoDup_seqZ|]. split; [apply seqZ_256_bytes|].
        cbn [fst]. split; [done|]. rewrite Hdone1, Hseen1.
        split; [apply elem_of_app; right; apply list_elem_of_here|].
        intros r' b' Hr' Hb' Hin. pose proof (Hcl r' b' Hr' Hb' Hin) as Hd.
        split; [apply elem_of_app; by left|]. intros ->. done.
      + intros b Hb. unfold root_copied. rewrite Hseen1. by apply Hroot.
      + intros r' b Hr' Hb Hnew. unfold row_copied. rewrite Hseen1.
        apply Hrows; [|done]. rewrite Hdone1 in Hr'.
        apply elem_of_app in Hr' as [?|Hr']; [done|].
        apply list_elem_of_singleton in Hr' as ->.
        exfalso. apply (Hnew eq_refl). apply elem_of_seqZ. lia. }
  eapply IH; [done..| |exact Hrun].
  destruct Hrow2 as ((_ & _ & Hline2 & _ & Hcl2) & Hinv2 & Hroot2 & Hrows2).
  cbn [fst snd] in *. split; [|split; [exact Hinv2|split; [exact Hroot2|]]].
  - split; [done|]. intros r' b' Hr' Hb' Hin.
    by destruct (Hcl2 r' b' Hr' Hb' Hin).
  - intros r' b Hr' Hb. apply Hrows2; [done|done|]. intros _.
    apply not_elem_of_nil.
Qed.

(** Every state that a string of bytes leads to has been dequeued when the
    queue is empty. *)
Lemma full_bfs_path_done cast g count q t w :
  full_bfs cast g count q t -> q_top q = q_bot q -> is_bytes w ->
  forall s, trie_state g 0 w = Some s -> s = 0 \/ s ∈ q_done q.
Proof.
  intros (_ & _ & Hroot & Hrows) Hempty.
  assert (q_seen q = q_done q) as Hsd
    by (unfold q_seen, q_done; by rewrite Hempty).
  induction w as [|c w IH] using rev_ind; intros Hw s Hp.
  - injection Hp as <-. by left.
  - apply Forall_app in Hw as [Hw Hc]. rewrite Forall_singleton in Hc.
    apply trie_state_snoc in Hp as (t0 & Ht0 & <- & Hf & Hz).
    right. rewrite <- Hsd.
    destruct (IH Hw t0 Ht0) as [->|Hd].
    + by apply (Hroot c Hc).
    + by apply (Hrows t0 c Hd Hc).
Qed.

(** The state table of a context with at most 65535 states is the goto
    table with its FAIL cells replaced by 0. *)
Lemma build_state_table_exact fuel cast m t :
  goto_final m -> goto_inj (goto_table m) ->
  (forall n, 1 <= n < state_count m ->
     exists w, is_bytes w /\ trie_state (goto_table m) 0 w = Some n) ->
  state_count m <= 65535 ->
  (forall v, 0 <= v < state_count m -> cast v = v) ->
  build_state_table fuel cast m = Ok t ->
  forall r b, 0 <= r < state_count m -> 0 <= b < 256 ->
    get2 t r b =
      if get2 (goto_table m) r b =? SC_PFAC_FAIL then 0
      else get2 (goto_table m) r b.
Proof.
  intros Hf Hinj Hreach Hcount Hcast Hrun r b Hr Hb.
  pose proof (goto_final_edges_ok m Hf Hinj) as Hedges.
  pose proof (gf_count _ Hf) as Hc. pose proof (gf_goto_len _ Hf) as Hlen.
  pose proof (build_state_table_inv _ _ _ _ Hf Hrun) as Hinv.
  unfold build_state_table in Hrun.
  apply bind_Ok in Hrun as ([q1 t1] & Hfold & Hrun).
  assert (full_root cast (goto_table m) (state_count m) [] (q1, t1)) as Hroot1.
  { revert Hfold.
    apply (foldM_inv_rem (full_root cast (goto_table m) (state_count m))).
    - intros a l qt qt'. apply delta_root_step_full; try done; lia.
    - split; [|split; [apply NoDup_seqZ|split]]; cbn [fst snd].
      + split; [apply seqZ_256_bytes|]. cbn [fst].
        split; [apply StateQueue_zero_line|]. split; [done|].
        intros u Hu. unfold q_seen, StateQueue_zero in Hu. cbn [q_top] in Hu.
        change (Z.to_nat 0) with 0%nat in Hu. rewrite take_0 in Hu.
        by apply elem_of_nil in Hu.
      + split; [by rewrite length_replicate|]. split.
        * apply Forall_replicate. apply length_replicate.
        * intros s' b' _ _. left. apply cell_replicate_zero.
      + intros b' Hb' Hnl. exfalso. apply Hnl, elem_of_seqZ. lia. }
  destruct Hroot1 as ((_ & Hline & Hbot & Hcl) & _ & Hinv1 & Hdone1).
  cbn [fst snd] in *.
  assert (full_bfs cast (goto_table m) (state_count m) q1 t1) as Hfull.
  { split; [|split; [exact Hinv1|split]].
    - split; [done|]. intros r' b' Hr' Hb' Hin. exfalso.
      destruct (Hcl _ Hin) as (b0 & Hb0 & Heq).
      destruct Hline as (_ & _ & _ & _ & Hall).
      rewrite Forall_forall in Hall. apply Hall in Hin. unfold waiting in Hin.
      destruct Hedges as (_ & _ & Hi).
      destruct (Hi r' b' 0 b0 ltac:(lia) Hb' ltac:(lia) Hb0 ltac:(lia)
                  ltac:(by rewrite Heq)) as [-> _].
      lia.
    - intros b' Hb'. apply Hdone1; [done|apply not_elem_of_nil].
    - intros r' b' Hr'. unfold q_done in Hr'. rewrite Hbot in Hr'.
      change (Z.to_nat 0) with 0%nat in Hr'. rewrite take_0 in Hr'.
      by apply elem_of_nil in Hr'. }
  destruct (delta_bfs_full cast (goto_table m) (state_count m) fuel q1 t1 t
              Hedges Hcount Hlen Hfull Hrun) as (q' & Hfull' & Hempty).
  destruct (Z.eqb_spec (get2 (goto_table m) r b) SC_PFAC_FAIL) as [Hfail|Hnf].
  - destruct Hinv as (Hlt & _ & Hcells). rewrite !get2_cell in *.
    destruct (Hcells (Z.to_nat r) (Z.to_nat b)) as [?|[? _]]; try done; lia.
  - pose proof Hfull' as (_ & _ & Hroot' & Hrows').
    destruct (decide (r = 0)) as [->|Hr0].
    + destruct (Hroot' b Hb) as [-> _]. apply Hcast.
      destruct Hedges as (_ & H0 & _). by apply H0.
    + destruct (Hreach r ltac:(lia)) as (w & Hw & Hp).
      destruct (full_bfs_path_done _ _ _ _ _ w Hfull' Hempty Hw r Hp)
        as [?|Hd]; [done|].
      destruct (Hrows' r b Hd Hb Hnf) as [-> _]. apply Hcast.
      destruct Hedges as (He & _).
      destruct (He r b ltac:(lia) Hb) as [?|?]; [done|lia].
Qed.

(** ** The compiled table, cell by cell *)

Lemma SCPFACCreateDeltaTable_table fuel both m m3 :
  SCPFACCreateDeltaTable fuel both m = Ok m3 ->
  build_state_table fuel (cell_cast m) m = Ok (scanner_table m3).
Proof.
  intros Hrun. unfold SCPFACCreateDeltaTable in Hrun.
  unfold scanner_table, cell_cast, narrow.
  apply bind_Ok in Hrun as (m1 & E1 & Hrun).
  destruct (state_count m <? 32767) eqn:En; cbn [orb negb] in *.
  - apply bind_Ok in E1 as (t & Et & E1). injection E1 as <-.
    destruct both.
    + apply bind_Ok in Hrun as (t' & _ & Hrun). injection Hrun as <-.
      ctx_simpl. by rewrite En.
    + injection Hrun as <-. ctx_simpl. by rewrite En.
  - apply bind_Ok in Hrun as (t' & Et' & Hrun). injection Hrun as <-.
    destruct both.
    + apply bind_Ok in E1 as (t & Et & E1). injection E1 as <-.
      unfold with_state_table_u32, with_state_table_u16.
      cbn [state_count state_table_u16 state_table_u32]. rewrite En.
      exact Et'.
    + injection E1 as <-. unfold with_state_table_u32.
      cbn [state_count state_table_u16 state_table_u32]. by rewrite En.
Qed.

Lemma SCPFACFinishStateTable_exact fuel both m m' :
  goto_final m -> goto_inj (goto_table m) ->
  (forall n, 1 <= n < state_count m ->
     exists w, is_bytes w /\ trie_state (goto_table m) 0 w = Some n) ->
  state_count m <= 65535 ->
  SCPFACFinishStateTable fuel both m = Ok m' ->
  forall s b, 0 <= s < state_count m -> 0 <= b < 256 ->
    0 <= goto_or_zero (goto_table m) s b < state_count m /\
    get2 (scanner_table m') s b =
      club_value (cell_cast m) (state_mask m) (cell_flag m) (output_table m)
        (goto_or_zero (goto_table m) s b).
Proof.
  intros Hf Hinj Hreach Hcount Hrun s b Hs Hb.
  pose proof (gf_count _ Hf) as Hc.
  assert (0 <= goto_or_zero (goto_table m) s b < state_count m) as Hrng.
  { unfold goto_or_zero.
    destruct (Z.eqb_spec (get2 (goto_table m) s b) SC_PFAC_FAIL) as [|Hnf];
      [lia|].
    rewrite get2_cell in *.
    destruct (gf_cells _ Hf (Z.to_nat s) (Z.to_nat b)
                ltac:(rewrite (gf_goto_len _ Hf); lia) ltac:(lia)); done. }
  split; [exact Hrng|].
  unfold SCPFACFinishStateTable in Hrun.
  apply bind_Ok in Hrun as (m3 & E3 & Hrun). injection Hrun as <-.
  destruct (SCPFACCreateDeltaTable_spec _ _ _ _ Hf E3)
    as (Hsc3 & Ho3 & Hg3 & Hpl3 & (Hlen & Hr & _)).
  pose proof (SCPFACCreateDeltaTable_table _ _ _ _ E3) as Htab.
  pose proof (build_state_table_exact fuel (cell_cast m) m _ Hf Hinj Hreach
                Hcount ltac:(intros; apply cell_cast_small; lia) Htab s b
                Hs Hb) as Hcell3.
  fold (goto_or_zero (goto_table m) s b) in Hcell3.
  pose proof (SCPFACClubOutputStatePresenceWithDeltaTable_spec both m3)
    as (Hsc4 & Ho4 & Hg4 & Hpl4 & Ht4).
  set (m4 := SCPFACClubOutputStatePresenceWithDeltaTable both m3) in *.
  cbv zeta in Hsc4, Ho4, Hg4, Hpl4, Ht4.
  assert (length (scanner_table m3) = Z.to_nat (state_count m)) as Hlen3
    by (rewrite Hlen; apply (gf_goto_len _ Hf)).
  destruct (club_table_spec (cell_cast m3) (state_mask m3) (cell_flag m3)
              (output_table m3) (state_count m3) (scanner_table m3) Hr)
    as (Hlen' & Hr' & Hcell').
  { by rewrite Hsc3. }
  { intros s' Hs'. apply state_mask_covers; rewrite Hsc3; [exact Hc|lia]. }
  assert (scanner_table
            (with_goto_table
               (SCPFACInsertCaseSensitiveEntriesForPatterns m4) []) =
          scanner_table m4) as -> by done.
  rewrite Ht4, get2_cell.
  rewrite Hcell' by (rewrite ?Hlen3; lia).
  rewrite <- get2_cell, Hcell3, Ho3.
  unfold cell_cast, state_mask, cell_flag, narrow. by rewrite Hsc3.
Qed.

Lemma setup_pid_pat_list rs h :
  Z.of_nat (length rs) < 2 ^ 32 ->
  init_hash (register_all rs SCPFACInitCtx) = Some h ->
  pid_pat_list (SCPFACPreparePatterns_setup (register_all rs SCPFACInitCtx) h)
  = fill_pid_pat_list (stored_patterns (register_all rs SCPFACInitCtx))
      (replicate (Z.to_nat (max_pat_id (register_all rs SCPFACInitCtx) + 1))
         PatternList_zero).
Proof.
  intros Hlen Hh. pose proof (registered_pattern_cnt rs Hlen) as Hcnt.
  destruct (sc_hash _ (registered_counts rs)) as (h' & Hh' & Hl).
  rewrite Hh in Hh'. injection Hh' as <-.
  unfold SCPFACPreparePatterns_setup. ctx_simpl.
  rewrite Hcnt. unfold stored_patterns. rewrite Hh.
  rewrite (firstn_all2 h) by (rewrite <- Hl; lia).
  f_equal. apply firstn_all2. rewrite Nat2Z.id. lia.
Qed.

Lemma SCPFACFinishStateTable_pid_pat_list fuel both m m' :
  goto_final m -> SCPFACFinishStateTable fuel both m = Ok m' ->
  pid_pat_list m' = pid_pat_list m.
Proof.
  intros Hf Hfin. unfold SCPFACFinishStateTable in Hfin.
  apply bind_Ok in Hfin as (m3 & E3 & Hfin). injection Hfin as <-.
  destruct (SCPFACCreateDeltaTable_spec _ _ _ _ Hf E3)
    as (_ & _ & _ & Hpl3 & _).
  pose proof (SCPFACClubOutputStatePresenceWithDeltaTable_spec both m3)
    as (_ & _ & _ & Hpl4 & _).
  cbv zeta in Hpl4. rewrite <- Hpl3, <- Hpl4. reflexivity.
Qed.

(** The parts of SCPFACPreparePatterns on a context with patterns. *)
Lemma prepared_ctx fuel both rs mg r m :
  Forall (fun reg : Registration => is_bytes reg.1.1) rs ->
  Z.of_nat (length rs) < 2 ^ 32 ->
  SCPFACPreparePatterns_goto (register_all rs SCPFACInitCtx) = Ok mg ->
  SCPFACPreparePatterns fuel both (register_all rs SCPFACInitCtx)
    = Ok (r, m) ->
  (state_count m = 0 /\ output_table m = [] /\
   stored_patterns (register_all rs SCPFACInitCtx) = []) \/
  (exists mf,
     goto_final mg /\ goto_inj (goto_table mg) /\
     trie_ok (stored_patterns (register_all rs SCPFACInitCtx)) mg /\
     pid_pat_list mg =
       fill_pid_pat_list (stored_patterns (register_all rs SCPFACInitCtx))
         (replicate
            (Z.to_nat (max_pat_id (register_all rs SCPFACInitCtx) + 1))
            PatternList_zero) /\
     SCPFACFinishStateTable fuel both mg = Ok mf /\
     state_count m = state_count mg /\
     scanner_table m = scanner_table mf /\
     output_table m = output_table mf /\
     pid_pat_list m = pid_pat_list mg).
Proof.
  intros Hrs Hlen Hgoto Hrun.
  pose proof (register_all_tables rs _ SCPFACInitCtx_tables) as Htab.
  destruct (prepared_goto rs mg Hrs Hlen Hgoto) as [[E ->]|(Hf & Hinj & Hok)].
  - left. pose proof (registered_pattern_cnt rs Hlen) as Hcnt.
    rewrite E in Hcnt. unfold SCPFACPreparePatterns in Hrun.
    rewrite Hcnt in Hrun. destruct Htab as (Hz & _ & Ho & _).
    destruct (init_hash _); injection Hrun as <- <-; by split.
  - right.
    destruct (SCPFACPreparePatterns_Ok _ _ _ _ _ Hrun)
      as [[-> Hnone]|(h & mg' & mf & Hh & Hcnt & Hg & Hfin & Hsc & H16 & H32
                      & Ho & Hpl)].
    { exfalso. unfold SCPFACPreparePatterns_goto in Hgoto.
      destruct Htab as (Hz & _). pose proof (gf_count _ Hf) as Hc.
      destruct Hnone as [Hn|Hn]; rewrite Hn in Hgoto.
      - injection Hgoto as <-. lia.
      - destruct (init_hash _); injection Hgoto as <-; lia. }
    unfold SCPFACPreparePatterns_goto in Hgoto. rewrite Hh in Hgoto.
    apply Z.eqb_neq in Hcnt. rewrite Hcnt in Hgoto.
    rewrite Hgoto in Hg. injection Hg as <-.
    destruct (SCPFACBuildGoto_final _ _ (setup_fresh _ h Htab) Hgoto)
      as [_ (_ & _ & Hplg & _)].
    destruct (SCPFACFinishStateTable_cells _ _ _ _ Hf Hfin) as (Hscf & _).
    exists mf. split; [exact Hf|]. split; [exact Hinj|]. split; [exact Hok|].
    split; [rewrite Hplg; by apply setup_pid_pat_list|].
    split; [exact Hfin|]. split; [congruence|]. split.
    { unfold scanner_table, narrow. by rewrite Hsc, H16, H32. }
    split; [exact Ho|].
    rewrite Hpl. by eapply SCPFACFinishStateTable_pid_pat_list.
Qed.

(** ** The output rows of a compiled context *)

Lemma land_high_small x : 0 <= x < 65536 -> Z.land x 0xFFFF0000 = 0.
Proof.
  intros Hx. rewrite <- (Z.mod_small x (2 ^ 16)) by lia.
  rewrite <- Z.land_ones by lia. rewrite <- Z.land_assoc.
  change (Z.land (Z.ones 16) 0xFFFF0000) with 0. apply Z.land_0_r.
Qed.

Lemma land_low_small x : 0 <= x < 65536 -> Z.land x 0x0000FFFF = x.
Proof.
  intros Hx. change 0x0000FFFF with (Z.ones 16).
  rewrite Z.land_ones by lia. apply Z.mod_small. lia.
Qed.

Lemma stamped_value x :
  0 <= x < 65536 ->
  u32 (Z.lor (Z.land x 0x0000FFFF) (Z.shiftl 1 16)) = x + 65536 /\
  Z.land (x + 65536) 0xFFFF0000 = 65536 /\
  Z.land (x + 65536) 0x0000FFFF = x.
Proof.
  intros Hx. rewrite land_low_small by exact Hx.
  change (Z.shiftl 1 16) with (2 ^ 16).
  rewrite lor_pow2_small by lia. change (2 ^ 16) with 65536.
  split; [apply u32_small; lia|].
  assert (x + 65536 = Z.lor x 65536) as ->
    by (symmetry; apply (lor_pow2_small x 16); lia).
  rewrite !Z.land_lor_distr_l, land_high_small, land_low_small by exact Hx.
  split; [reflexivity|]. change (Z.land 65536 65535) with 0.
  apply Z.lor_0_r.
Qed.

(** A stored id is recorded under itself, stamped or not; the stamp is
    what the scanner tests. *)
Lemma recorded_id_stamp l pid :
  0 <= pid < 65536 ->
  recorded_id (stamp_case_sensitive l pid) = pid /\
  (Z.land (stamp_case_sensitive l pid) 0xFFFF0000 <> 0 <->
   pl_cs (get PatternList_zero l pid) <> None).
Proof.
  intros Hp. unfold stamp_case_sensitive, recorded_id.
  destruct (stamped_value pid Hp) as (Hu & Hh & Hl).
  destruct (pl_cs (get PatternList_zero l pid)) as [cs|].
  - rewrite Hu, Hh, Hl. cbn. split; [done|]. split; [done|]. by intros _.
  - rewrite land_high_small by exact Hp. cbn. split; [done|]. by split.
Qed.

Lemma length_fill_pid_pat_list ps : forall l,
  length (fill_pid_pat_list ps l) = length l.
Proof.
  unfold fill_pid_pat_list.
  induction ps as [|p ps IH]; intros l; cbn [fold_left]; [done|].
  rewrite IH. destruct (_ =? 0); [apply length_set|done].
Qed.

(** The case-sensitive index holds bytes for exactly the ids of the
    patterns that are not NOCASE. *)
Lemma fill_pid_pat_list_spec ps : forall l pid,
  0 <= pid < Z.of_nat (length l) ->
  Forall (fun p => 0 <= p_id p) ps ->
  (pl_cs (get PatternList_zero (fill_pid_pat_list ps l) pid) <> None <->
   pl_cs (get PatternList_zero l pid) <> None \/
   exists p, p ∈ ps /\ Z.land (p_flags p) MPM_PATTERN_FLAG_NOCASE = 0 /\
             p_id p = pid).
Proof.
  unfold fill_pid_pat_list.
  induction ps as [|p ps IH]; intros l pid Hpid Hids; cbn [fold_left].
  - split; [by left|]. intros [?|(p & Hp & _)]; [done|].
    by apply elem_of_nil in Hp.
  - apply Forall_cons in Hids as [Hid Hids].
    set (l1 := if Z.land (p_flags p) MPM_PATTERN_FLAG_NOCASE =? 0
               then set l (p_id p)
                      (mkPatternList (Some (p_original_pat p)) (p_len p))
               else l).
    assert (length l1 = length l) as Hlen
      by (unfold l1; destruct (_ =? 0); [apply length_set|done]).
    rewrite (IH l1 pid) by (rewrite ?Hlen; done).
    assert (pl_cs (get PatternList_zero l1 pid) <> None <->
            pl_cs (get PatternList_zero l pid) <> None \/
            (Z.land (p_flags p) MPM_PATTERN_FLAG_NOCASE = 0 /\ p_id p = pid))
      as ->.
    { unfold l1.
      destruct (Z.eqb_spec (Z.land (p_flags p) MPM_PATTERN_FLAG_NOCASE) 0)
        as [E|E]; [|tauto].
      destruct (decide (p_id p = pid)) as [->|Hne].
      - rewrite get_set_eq by lia. cbn [pl_cs]. split; [by right|done].
      - rewrite get_set_ne by lia. tauto. }
    split.
    + intros [[?|[? ?]]|(q & Hq & ? & ?)].
      * by left.
      * right. exists p. split; [apply list_elem_of_here|done].
      * right. exists q. split; [by apply list_elem_of_further|done].
    + intros [?|(q & Hq & ? & ?)]; [by left; left|].
      apply elem_of_cons in Hq as [->|Hq]; [left; by right|].
      right. by exists q.
Qed.

Lemma prepared_has_goto fuel both m0 r m :
  SCPFACPreparePatterns fuel both m0 = Ok (r, m) ->
  exists mg, SCPFACPreparePatterns_goto m0 = Ok mg.
Proof.
  intros Hrun. unfold SCPFACPreparePatterns_goto.
  destruct (SCPFACPreparePatterns_Ok _ _ _ _ _ Hrun)
    as [[-> [Hn|Hn]]|(h & mg & mf & Hh & Hcnt & Hg & _)].
  - rewrite Hn. by eexists.
  - rewrite Hn. destruct (init_hash m0); by eexists.
  - rewrite Hh. apply Z.eqb_neq in Hcnt. rewrite Hcnt. by exists mg.
Qed.

Lemma stored_id_range rs p :
  ids_ok rs -> p ∈ stored_patterns (register_all rs SCPFACInitCtx) ->
  0 <= p_id p < 65536.
Proof.
  intros Hids Hp.
  destruct (stored_from_registrations rs p Hp)
    as (pat & pid & flags & Hin & _ & ->).
  unfold ids_ok in Hids. rewrite Forall_forall in Hids.
  exact (Hids _ Hin).
Qed.

(** The rows of the final output table: the rows of the goto stage, each
    pid stamped. *)
Lemma prepared_rows fuel both rs mg r m :
  Forall (fun reg : Registration => is_bytes reg.1.1) rs ->
  Z.of_nat (length rs) < 2 ^ 32 ->
  SCPFACPreparePatterns_goto (register_all rs SCPFACInitCtx) = Ok mg ->
  SCPFACPreparePatterns fuel both (register_all rs SCPFACInitCtx)
    = Ok (r, m) ->
  forall s, get [] (output_table m) s =
            map (stamp_case_sensitive (pid_pat_list mg))
              (get [] (output_table mg) s).
Proof.
  intros Hrs Hlen Hgoto Hrun s.
  destruct (prepared_ctx fuel both rs mg r m Hrs Hlen Hgoto Hrun)
    as [(_ & Ho & E)|(mf & Hf & _ & _ & _ & Hfin & _ & _ & Ho & _)].
  - pose proof (registered_pattern_cnt rs Hlen) as Hc. rewrite E in Hc.
    change (Z.of_nat (length (@nil SCPFACPattern))) with 0 in Hc.
    unfold SCPFACPreparePatterns_goto in Hgoto. rewrite Hc in Hgoto.
    assert (mg = register_all rs SCPFACInitCtx) as ->
      by (destruct (init_hash _); by injection Hgoto as <-).
    destruct (register_all_tables rs _ SCPFACInitCtx_tables)
      as (_ & _ & -> & _).
    rewrite Ho. unfold get. by rewrite lookup_nil.
  - rewrite Ho.
    by destruct (SCPFACFinishStateTable_cells _ _ _ _ Hf Hfin) as (_ & -> & _).
Qed.

Lemma stored_cs_index rs mg fuel both r m p :
  Forall (fun reg : Registration => is_bytes reg.1.1) rs ->
  ids_ok rs -> Z.of_nat (length rs) < 2 ^ 32 ->
  SCPFACPreparePatterns_goto (register_all rs SCPFACInitCtx) = Ok mg ->
  SCPFACPreparePatterns fuel both (register_all rs SCPFACInitCtx)
    = Ok (r, m) ->
  p ∈ stored_patterns (register_all rs SCPFACInitCtx) ->
  (pl_cs (get PatternList_zero (pid_pat_list mg) (p_id p)) <> None <->
   exists q, q ∈ stored_patterns (register_all rs SCPFACInitCtx) /\
     Z.land (p_flags q) MPM_PATTERN_FLAG_NOCASE = 0 /\ p_id q = p_id p).
Proof.
  intros Hrs Hids Hlen Hgoto Hrun Hp.
  destruct (prepared_ctx fuel both rs mg r m Hrs Hlen Hgoto Hrun)
    as [(_ & _ & E)|(mf & _ & _ & _ & Hpl & _)].
  { rewrite E in Hp. by apply elem_of_nil in Hp. }
  rewrite Hpl.
  pose proof (stored_id_range rs p Hids Hp) as Hid.
  pose proof (sc_id _ (registered_counts rs) p Hp) as Hmax.
  rewrite fill_pid_pat_list_spec.
  - split; [|by right]. intros [Hz|?]; [|done]. exfalso. apply Hz.
    unfold get. rewrite lookup_replicate_2 by lia. done.
  - rewrite length_replicate. lia.
  - apply Forall_forall. intros q Hq.
    by destruct (stored_id_range rs q Hids Hq).
Qed.

Lemma final_rows_sound fuel both rs mg r m s e :
  Forall (fun reg : Registration => is_bytes reg.1.1) rs ->
  ids_ok rs -> Z.of_nat (length rs) < 2 ^ 32 ->
  SCPFACPreparePatterns_goto (register_all rs SCPFACInitCtx) = Ok mg ->
  SCPFACPreparePatterns fuel both (register_all rs SCPFACInitCtx)
    = Ok (r, m) ->
  0 <= s -> e ∈ get [] (output_table m) s ->
  exists p, p ∈ stored_patterns (register_all rs SCPFACInitCtx) /\
    recorded_id e = p_id p /\
    trie_state (goto_table mg) 0 (p_ci p) = Some s /\
    (Z.land e 0xFFFF0000 <> 0 <->
     exists q, q ∈ stored_patterns (register_all rs SCPFACInitCtx) /\
       Z.land (p_flags q) MPM_PATTERN_FLAG_NOCASE = 0 /\ p_id q = p_id p).
Proof.
  intros Hrs Hids Hlen Hgoto Hrun Hs He.
  rewrite (prepared_rows fuel both rs mg r m Hrs Hlen Hgoto Hrun) in He.
  apply list_elem_of_In, in_map_iff in He as (pid & <- & Hpid).
  apply list_elem_of_In in Hpid.
  destruct (output_rows_goto rs mg s Hrs Hlen Hgoto Hs) as [_ Hsound].
  destruct (Hsound pid Hpid) as (p & Hp & <- & Hpath).
  pose proof (stored_id_range rs p Hids Hp) as Hid.
  destruct (recorded_id_stamp (pid_pat_list mg) (p_id p) Hid) as [Hrec Hbit].
  exists p. split; [done|]. split; [done|]. split; [done|].
  rewrite Hbit. by eapply stored_cs_index.
Qed.

(** X13. The output table of a compiled context, when every registered id
    is below 65536: every entry of the output row of a state is recorded
    under the id of a stored pattern whose lowercase bytes lead from state
    0 to that state in the goto table, and it carries the verify bit
    exactly when a stored pattern with that id is not NOCASE.  (The verify
    bit is bit 16 of the entry, so that an id of 65536 or more is not told
    apart from a stamped entry.) *)
Theorem compiled_output_rows fuel both rs mg r m s e :
  Forall (fun reg : Registration => is_bytes reg.1.1) rs ->
  ids_ok rs -> Z.of_nat (length rs) < 2 ^ 32 ->
  SCPFACPreparePatterns_goto (register_all rs SCPFACInitCtx) = Ok mg ->
  SCPFACPreparePatterns fuel both (register_all rs SCPFACInitCtx)
    = Ok (r, m) ->
  0 <= s -> e ∈ get [] (output_table m) s ->
  exists p, p ∈ stored_patterns (register_all rs SCPFACInitCtx) /\
    recorded_id e = p_id p /\
    trie_state (goto_table mg) 0 (p_ci p) = Some s /\
    (Z.land e 0xFFFF0000 <> 0 <->
     exists q, q ∈ stored_patterns (register_all rs SCPFACInitCtx) /\
       Z.land (p_flags q) MPM_PATTERN_FLAG_NOCASE = 0 /\ p_id q = p_id p).
Proof. apply final_rows_sound. Qed.

(** The cells of the compiled table of a context with at most 65535
    states, decoded. *)
Lemma compiled_cells_exact fuel both rs mg r m :
  Forall (fun reg : Registration => is_bytes reg.1.1) rs ->
  Z.of_nat (length rs) < 2 ^ 32 ->
  SCPFACPreparePatterns_goto (register_all rs SCPFACInitCtx) = Ok mg ->
  state_count mg <= 65535 ->
  SCPFACPreparePatterns fuel both (register_all rs SCPFACInitCtx)
    = Ok (r, m) ->
  forall s b, 0 <= s < state_count m -> 0 <= b < 256 ->
    0 <= goto_or_zero (goto_table mg) s b < state_count m /\
    Z.land (get2 (scanner_table m) s b) (state_mask m)
    = goto_or_zero (goto_table mg) s b /\
    (Z.land (get2 (scanner_table m) s b) (output_bit m) <> 0 <->
     get [] (output_table mg) (goto_or_zero (goto_table mg) s b) <> []).
Proof.
  intros Hrs Hlen Hgoto Hcount Hrun s b Hs Hb.
  destruct (prepared_ctx fuel both rs mg r m Hrs Hlen Hgoto Hrun)
    as [(Hz & _)|(mf & Hf & Hinj & Hok & _ & Hfin & Hsc & Ht & _)]; [lia|].
  rewrite Hsc in Hs.
  destruct (SCPFACFinishStateTable_exact fuel both mg mf Hf Hinj
              (to_reach _ _ Hok) Hcount Hfin s b Hs Hb) as [Hrng Hcell].
  rewrite Ht, Hcell, Hsc. split; [exact Hrng|].
  assert (state_mask m = state_mask mg) as ->
    by (unfold state_mask, narrow; by rewrite Hsc).
  assert (output_bit m = output_bit mg) as ->
    by (unfold output_bit, narrow; by rewrite Hsc).
  pose proof (gf_count _ Hf) as Hc.
  exact (club_value_decode mg (output_table mg) _ Hrng ltac:(lia)).
Qed.

(** X12. The compiled table is the goto table with 0 for FAIL: in a
    context compiled with at most 65535 states, the state part of every
    cell of the table the scanner reads is the goto transition of the same
    state and byte, or 0 where the goto table held FAIL. *)
Theorem compiled_table_copies_goto fuel both rs mg r m :
  Forall (fun reg : Registration => is_bytes reg.1.1) rs ->
  Z.of_nat (length rs) < 2 ^ 32 ->
  SCPFACPreparePatterns_goto (register_all rs SCPFACInitCtx) = Ok mg ->
  state_count mg <= 65535 ->
  SCPFACPreparePatterns fuel both (register_all rs SCPFACInitCtx)
    = Ok (r, m) ->
  forall s b, 0 <= s < state_count m -> 0 <= b < 256 ->
    Z.land (get2 (scanner_table m) s b) (state_mask m) =
      if get2 (goto_table mg) s b =? SC_PFAC_FAIL then 0
      else get2 (goto_table mg) s b.
Proof.
  intros Hrs Hlen Hgoto Hcount Hrun s b Hs Hb.
  by destruct (compiled_cells_exact fuel both rs mg r m Hrs Hlen Hgoto Hcount
                 Hrun s b Hs Hb) as (_ & ? & _).
Qed.

(** ** What a scan records *)

Lemma emit_pids_u16_closed (Q : Z -> Prop) (P : PatternMatcherQueue -> Prop)
    pl buf i pids :
  (forall pmq pid, Q pid -> P pmq -> P (pmq_record pmq pid)) ->
  (forall e, e ∈ pids -> Q (recorded_id e)) ->
  forall pmq, P pmq -> P (emit_pids_u16 pl buf i pids pmq).
Proof.
  intros Hrec. induction pids as [|e rest IH]; intros HQ pmq HP;
    cbn [emit_pids_u16]; [exact HP|].
  pose proof (HQ e (list_elem_of_here _ _)) as He. unfold recorded_id in He.
  assert (forall e', e' ∈ rest -> Q (recorded_id e')) as HQ'
    by (intros; apply HQ; by apply list_elem_of_further).
  destruct (negb (Z.land e 0xFFFF0000 =? 0)).
  - destruct (negb (SCMemcmp _ _ _ _ =? 0)); [exact HP|].
    apply IH; [exact HQ'|]. by apply Hrec.
  - apply IH; [exact HQ'|]. by apply Hrec.
Qed.

Lemma emit_pids_u32_closed (Q : Z -> Prop) (P : PatternMatcherQueue -> Prop)
    pl buf i pids :
  (forall pmq pid, Q pid -> P pmq -> P (pmq_record pmq pid)) ->
  (forall e, e ∈ pids -> Q (recorded_id e)) ->
  forall acc, P acc.2 -> P (emit_pids_u32 pl buf i pids acc).2.
Proof.
  intros Hrec. induction pids as [|e rest IH]; intros HQ acc HP;
    cbn [emit_pids_u32]; [exact HP|].
  pose proof (HQ e (list_elem_of_here _ _)) as He. unfold recorded_id in He.
  assert (forall e', e' ∈ rest -> Q (recorded_id e')) as HQ'
    by (intros; apply HQ; by apply list_elem_of_further).
  destruct (negb (Z.land e 0xFFFF0000 =? 0)).
  - destruct (negb (SCMemcmp _ _ _ _ =? 0)); [exact HP|].
    apply IH; [exact HQ'|]. cbn [snd]. by apply Hrec.
  - apply IH; [exact HQ'|]. cbn [snd]. by apply Hrec.
Qed.

Lemma rows_in_get m Q s e :
  rows_in m Q -> e ∈ get [] (output_table m) s -> Q (recorded_id e).
Proof.
  intros HQ He. destruct (get_row_cases (output_table m) s) as [E|Hrow].
  - rewrite E in He. by apply elem_of_nil in He.
  - by apply (HQ _ e Hrow).
Qed.

Lemma search_inner_u16_closed m Q (P : PatternMatcherQueue -> Prop) buf i n :
  rows_in m Q ->
  (forall pmq pid, Q pid -> P pmq -> P (pmq_record pmq pid)) ->
  forall j st, P (s_pmq st) -> P (s_pmq (search_inner_u16 m buf i n j st)).
Proof.
  intros HQ Hrec. induction n as [|n IH]; intros j st HP;
    cbn [search_inner_u16]; [exact HP|].
  destruct (_ =? 0); [exact HP|].
  destruct (negb (Z.land _ 0x8000 =? 0)); apply IH; cbn [s_pmq]; [|exact HP].
  apply (emit_pids_u16_closed Q); [exact Hrec| |exact HP].
  intros e He. by eapply rows_in_get.
Qed.

Lemma search_outer_u16_closed m Q (P : PatternMatcherQueue -> Prop) buf
    buflen n :
  rows_in m Q ->
  (forall pmq pid, Q pid -> P pmq -> P (pmq_record pmq pid)) ->
  forall i st, P (s_pmq st) ->
    P (s_pmq (search_outer_u16 m buf buflen n i st)).
Proof.
  intros HQ Hrec. induction n as [|n IH]; intros i st HP;
    cbn [search_outer_u16]; [exact HP|].
  apply IH. by apply (search_inner_u16_closed m Q).
Qed.

Lemma search_inner_u32_closed m Q (P : PatternMatcherQueue -> Prop) buf i n :
  rows_in m Q ->
  (forall pmq pid, Q pid -> P pmq -> P (pmq_record pmq pid)) ->
  forall st, P (s_pmq st) -> P (s_pmq (search_inner_u32 m buf i n st)).
Proof.
  intros HQ Hrec. induction n as [|n IH]; intros st HP;
    cbn [search_inner_u32]; [exact HP|].
  destruct (negb (Z.land _ 0xFF000000 =? 0)); apply IH; cbn [s_pmq];
    [|exact HP].
  apply (emit_pids_u32_closed Q P _ _ _ _ Hrec); [|exact HP].
  intros e He. by eapply rows_in_get.
Qed.

Lemma search_outer_u32_closed m Q (P : PatternMatcherQueue -> Prop) buf
    buflen n :
  rows_in m Q ->
  (forall pmq pid, Q pid -> P pmq -> P (pmq_record pmq pid)) ->
  forall i st, P (s_pmq st) ->
    P (s_pmq (search_outer_u32 m buf buflen n i st)).
Proof.
  intros HQ Hrec. induction n as [|n IH]; intros i st HP;
    cbn [search_outer_u32]; [exact HP|].
  apply IH. by apply (search_inner_u32_closed m Q).
Qed.

(** A property of the sink that recording an id of [Q] keeps is kept by a
    scan of a context whose output rows are recorded under ids of [Q]. *)
Lemma SCPFACSearch_closed m Q (P : PatternMatcherQueue -> Prop) pmq buf buflen :
  rows_in m Q ->
  (forall pmq pid, Q pid -> P pmq -> P (pmq_record pmq pid)) ->
  P pmq -> P (SCPFACSearch m pmq buf buflen).2.
Proof.
  intros HQ Hrec HP. unfold SCPFACSearch. cbn [snd].
  destruct (state_count m <? 32767).
  - by apply (search_outer_u16_closed m Q).
  - by apply (search_outer_u32_closed m Q).
Qed.

Lemma pmq_record_array pmq pid :
  pattern_id_array (pmq_record pmq pid) = pattern_id_array pmq \/
  pattern_id_array (pmq_record pmq pid) = pattern_id_array pmq ++ [pid].
Proof.
  unfold pmq_record. destruct (pmq_bit_is_set pmq pid); [by left|by right].
Qed.

(** X14. A scan only appends to the sink: the list of recorded ids on
    return starts with the list the sink held on entry, for every context,
    memory and buffer length, and the bit array keeps its length. *)
Theorem search_appends_to_sink m pmq buf buflen :
  (exists l,
     pattern_id_array (SCPFACSearch m pmq buf buflen).2
     = pattern_id_array pmq ++ l) /\
  length (pattern_id_bitarray (SCPFACSearch m pmq buf buflen).2)
  = length (pattern_id_bitarray pmq).
Proof.
  apply (SCPFACSearch_closed m (fun _ => True)
           (fun pmq' =>
              (exists l, pattern_id_array pmq' = pattern_id_array pmq ++ l) /\
              length (pattern_id_bitarray pmq')
              = length (pattern_id_bitarray pmq))).
  - by intros row e _ _.
  - intros pmq' pid _ [[l Hl] Hlen]. split.
    + destruct (pmq_record_array pmq' pid) as [->| ->].
      * by exists l.
      * exists (l ++ [pid]). by rewrite Hl, app_assoc.
    + unfold pmq_record. destruct (pmq_bit_is_set pmq' pid); [done|].
      cbn [pattern_id_bitarray]. by rewrite length_set.
  - split; [exists []; by rewrite app_nil_r|done].
Qed.

Lemma rows_of_table (o : list (list Z)) row :
  row ∈ o -> exists s, 0 <= s /\ get [] o s = row.
Proof.
  intros Hrow. apply list_elem_of_lookup_1 in Hrow as [i Hi].
  exists (Z.of_nat i). split; [lia|]. unfold get. by rewrite Nat2Z.id, Hi.
Qed.

Lemma compiled_rows_registered fuel both rs r m :
  Forall (fun reg : Registration => is_bytes reg.1.1) rs ->
  ids_ok rs -> Z.of_nat (length rs) < 2 ^ 32 ->
  SCPFACPreparePatterns fuel both (register_all rs SCPFACInitCtx)
    = Ok (r, m) ->
  rows_in m (registered_id rs).
Proof.
  intros Hrs Hids Hlen Hrun row e Hrow He.
  destruct (prepared_has_goto _ _ _ _ _ Hrun) as [mg Hgoto].
  destruct (rows_of_table _ _ Hrow) as (s & Hs & <-).
  destruct (final_rows_sound fuel both rs mg r m s e Hrs Hids Hlen Hgoto Hrun
              Hs He) as (p & Hp & -> & _).
  destruct (stored_from_registrations rs p Hp)
    as (pat & pid & flags & Hin & Hne & ->).
  by exists pat, flags.
Qed.

(** X15. A scan reports only registered ids, when every registered id is
    below 65536: every id in the sink after a scan of a compiled context
    was in the sink before or is the id of a registration with a non-empty
    pattern, whatever the buffer holds. *)
Theorem search_records_registered_ids fuel both rs r m pmq buf buflen x :
  Forall (fun reg : Registration => is_bytes reg.1.1) rs ->
  ids_ok rs -> Z.of_nat (length rs) < 2 ^ 32 ->
  SCPFACPreparePatterns fuel both (register_all rs SCPFACInitCtx)
    = Ok (r, m) ->
  x ∈ pattern_id_array (SCPFACSearch m pmq buf buflen).2 ->
  x ∈ pattern_id_array pmq \/
  exists pat flags, (pat, x, flags) ∈ rs /\ pat <> [].
Proof.
  intros Hrs Hids Hlen Hrun. revert x.
  apply (SCPFACSearch_closed m (registered_id rs)
           (fun pmq' => forall x, x ∈ pattern_id_array pmq' ->
                          x ∈ pattern_id_array pmq \/ registered_id rs x)).
  - by eapply compiled_rows_registered.
  - intros pmq' pid Hq HP x Hx.
    destruct (pmq_record_array pmq' pid) as [E|E]; rewrite E in Hx;
      [by apply HP|].
    apply elem_of_app in Hx as [Hx|Hx]; [by apply HP|].
    apply list_elem_of_singleton in Hx as ->. by right.
  - intros x Hx. by left.
Qed.

(** ** A pattern at the start of the buffer *)

Lemma pmq_record_mem pmq pid :
  0 <= pid -> pmq_consistent pmq ->
  pid ∈ pattern_id_array (pmq_record pmq pid).
Proof.
  intros Hpid [_ Hbits]. unfold pmq_record.
  destruct (pmq_bit_is_set pmq pid) eqn:E.
  - by apply Hbits.
  - cbn [pattern_id_array]. apply elem_of_app. right. apply list_elem_of_here.
Qed.

Lemma pmq_record_keeps pmq pid x :
  x ∈ pattern_id_array pmq -> x ∈ pattern_id_array (pmq_record pmq pid).
Proof.
  intros Hx. destruct (pmq_record_array pmq pid) as [->| ->]; [done|].
  apply elem_of_app. by left.
Qed.

(** A row without verify bits is recorded entirely. *)
Lemma emit_pids_u16_all pl buf i pids : forall pmq,
  (forall e, e ∈ pids ->
     Z.land e 0xFFFF0000 = 0 /\ 0 <= e /\
     e / 8 < Z.of_nat (length (pattern_id_bitarray pmq))) ->
  pmq_consistent pmq ->
  forall e, e ∈ pids ->
    e ∈ pattern_id_array (emit_pids_u16 pl buf i pids pmq).
Proof.
  induction pids as [|e0 rest IH]; intros pmq Hrow Hc e He;
    [by apply elem_of_nil in He|].
  cbn [emit_pids_u16].
  destruct (Hrow e0 (list_elem_of_here _ _)) as (Hhigh & H0 & Hlen).
  rewrite Hhigh. cbn [Z.eqb negb].
  destruct (pmq_record_consistent pmq e0 H0 Hlen Hc) as [Hc' Hlen'].
  apply elem_of_cons in He as [->|He].
  - apply (emit_pids_u16_closed (fun _ => True)
             (fun pmq' => e0 ∈ pattern_id_array pmq')).
    + intros pmq' pid _. apply pmq_record_keeps.
    + done.
    + by apply pmq_record_mem.
  - apply IH; [|exact Hc'|exact He].
    intros e' He'. rewrite Hlen'. apply Hrow. by apply list_elem_of_further.
Qed.

(** The inner loop of the 16-bit branch follows a path of the goto table
    and records the ids of the state the path ends in. *)
Lemma search_inner_u16_walk m g o count buf i w :
  (forall s b, 0 <= s < count -> 0 <= b < 256 ->
     0 <= goto_or_zero g s b < count /\
     Z.land (get2 (state_table_u16 m) s b) 0x7FFF = goto_or_zero g s b /\
     (Z.land (get2 (state_table_u16 m) s b) 0x8000 <> 0 <->
      get [] o (goto_or_zero g s b) <> [])) ->
  (forall s, 0 <= s -> get [] (output_table m) s = get [] o s) ->
  (forall s e, 0 <= s -> e ∈ get [] o s -> 0 <= e < 65536) ->
  forall n j st s s',
    trie_state g s w = Some s' -> w <> [] -> is_bytes w ->
    0 <= s < count -> Z.land (s_state st) 0x7FFF = s ->
    (length w <= n)%nat ->
    (forall k c, w !! k = Some c -> u8_tolower (buf (j + Z.of_nat k)) = c) ->
    sink_inv m (s_pmq st) ->
    forall pid, pid ∈ get [] o s' ->
      pid ∈ pattern_id_array (s_pmq (search_inner_u16 m buf i n j st)).
Proof.
  intros Hcells Hrows Hids.
  induction w as [|c w IH];
    intros n j st s s' Hpath Hne Hw Hs Hst Hn Hbuf Hinv pid Hpid; [done|].
  destruct n as [|n]; [cbn [length] in Hn; lia|].
  apply Forall_cons in Hw as [Hc Hw].
  cbn [trie_state] in Hpath.
  destruct (Z.eqb_spec (get2 g s c) SC_PFAC_FAIL) as [|Hnf]; [done|].
  destruct (Z.eqb_spec (get2 g s c) 0) as [|Hnz]; [done|].
  cbn [orb] in Hpath.
  cbn [search_inner_u16].
  pose proof (Hbuf 0%nat c eq_refl) as Hb0. rewrite Z.add_0_r in Hb0.
  rewrite Hb0, Hst.
  destruct (Hcells s c Hs Hc) as (Hrng & Hland & Hbit).
  assert (goto_or_zero g s c = get2 g s c) as Ego.
  { unfold goto_or_zero.
    by destruct (Z.eqb_spec (get2 g s c) SC_PFAC_FAIL). }
  rewrite Ego in Hrng, Hland, Hbit.
  set (v := get2 (state_table_u16 m) s c) in *.
  destruct (Z.eqb_spec v 0) as [Ev|_].
  { rewrite Ev, Z.land_0_l in Hland. done. }
  rewrite Hland, (Hrows (get2 g s c)) by lia.
  assert (sink_inv m
            (emit_pids_u16 (pid_pat_list m) buf i (get [] o (get2 g s c))
               (s_pmq st))) as Hinv1.
  { destruct (get_row_cases (output_table m) (get2 g s c)) as [E|Hrow].
    - rewrite <- (Hrows (get2 g s c)), E by lia. exact Hinv.
    - rewrite <- (Hrows (get2 g s c)) by lia.
      by apply (emit_pids_u16_inv m buf i _ _ _ Hrow). }
  destruct w as [|c' w'].
  - injection Hpath as <-.
    assert (Z.land v 0x8000 <> 0) as Hset.
    { apply Hbit. intros E. rewrite E in Hpid. by apply elem_of_nil in Hpid. }
    destruct (Z.eqb_spec (Z.land v 0x8000) 0) as [|_]; [done|]. cbn [negb].
    apply (search_inner_u16_closed m (fun _ => True)
             (fun pmq' => pid ∈ pattern_id_array pmq')).
    + by intros row e _ _.
    + intros pmq' pid' _. apply pmq_record_keeps.
    + cbn [s_pmq]. destruct Hinv as [Hcons Hcov].
      apply emit_pids_u16_all; [|exact Hcons|exact Hpid].
      intros e He. pose proof (Hids (get2 g s c) e ltac:(lia) He) as He16.
      split; [by apply land_high_small|]. split; [lia|].
      destruct (get_row_cases (output_table m) (get2 g s c)) as [E|Hrow].
      * rewrite (Hrows (get2 g s c)) in E by lia. rewrite E in He.
        by apply elem_of_nil in He.
      * rewrite (Hrows (get2 g s c)) in Hrow by lia.
        destruct (Hcov _ e Hrow He) as [_ Hlen].
        unfold recorded_id in Hlen.
        by rewrite land_high_small in Hlen by exact He16.
  - assert (forall k c0, (c' :: w') !! k = Some c0 ->
                         u8_tolower (buf (j + 1 + Z.of_nat k)) = c0) as Hbuf'.
    { intros k c0 Hk.
      replace (j + 1 + Z.of_nat k) with (j + Z.of_nat (S k)) by lia.
      by apply Hbuf. }
    cbn [length] in Hn.
    destruct (negb (Z.land v 0x8000 =? 0)).
    + apply (IH n (j + 1) _ (get2 g s c) s'); try done; cbn [length]; lia.
    + apply (IH n (j + 1) _ (get2 g s c) s'); try done; cbn [length]; lia.
Qed.

Lemma stored_nocase rs p :
  all_nocase rs -> p ∈ stored_patterns (register_all rs SCPFACInitCtx) ->
  Z.land (p_flags p) MPM_PATTERN_FLAG_NOCASE <> 0.
Proof.
  intros Hall Hp.
  destruct (stored_from_registrations rs p Hp)
    as (pat & pid & flags & Hin & _ & ->).
  unfold all_nocase in Hall. rewrite Forall_forall in Hall.
  exact (Hall _ Hin).
Qed.

Lemma stored_ci rs p :
  Forall (fun reg : Registration => is_bytes reg.1.1) rs ->
  p ∈ stored_patterns (register_all rs SCPFACInitCtx) ->
  p_ci p <> [] /\ is_bytes (p_ci p).
Proof.
  intros Hrs Hp.
  destruct (stored_from_registrations rs p Hp)
    as (pat & pid & flags & Hin & Hne & ->).
  cbn [p_ci pattern_of]. split.
  - destruct pat; [done|discriminate].
  - apply memcpy_tolower_bytes. rewrite Forall_forall in Hrs.
    exact (Hrs _ Hin).
Qed.

(** Without a case-sensitive pattern no output entry is stamped. *)
Lemma nocase_rows fuel both rs mg r m s :
  Forall (fun reg : Registration => is_bytes reg.1.1) rs ->
  ids_ok rs -> all_nocase rs -> Z.of_nat (length rs) < 2 ^ 32 ->
  SCPFACPreparePatterns_goto (register_all rs SCPFACInitCtx) = Ok mg ->
  SCPFACPreparePatterns fuel both (register_all rs SCPFACInitCtx)
    = Ok (r, m) ->
  0 <= s -> get [] (output_table m) s = get [] (output_table mg) s.
Proof.
  intros Hrs Hids Hall Hlen Hgoto Hrun Hs.
  rewrite (prepared_rows fuel both rs mg r m Hrs Hlen Hgoto Hrun).
  destruct (output_rows_goto rs mg s Hrs Hlen Hgoto Hs) as [_ Hsound].
  rewrite <- (map_id (get [] (output_table mg) s)) at 2.
  apply map_ext_in. intros pid Hpid. apply list_elem_of_In in Hpid.
  destruct (Hsound pid Hpid) as (p & Hp & <- & _).
  unfold stamp_case_sensitive.
  destruct (pl_cs (get PatternList_zero (pid_pat_list mg) (p_id p)))
    as [cs|] eqn:E; [|done].
  exfalso.
  destruct (proj1 (stored_cs_index rs mg fuel both r m p Hrs Hids Hlen Hgoto
                     Hrun Hp)) as (q & Hq & Hflag & _);
    [by rewrite E|].
  by apply (stored_nocase rs q Hall Hq).
Qed.

(** X16. A case-insensitive pattern set finds what the buffer starts with:
    in a context compiled from NOCASE registrations with ids below 65536
    and with fewer than 32767 states, a scan whose sink is consistent and
    has a bit for every id of the output table records the id of every
    stored pattern whose lowercase bytes are the lowercase image of the
    first bytes of the buffer. *)
Theorem search_finds_leading_pattern fuel both rs r m p pmq buf buflen :
  Forall (fun reg : Registration => is_bytes reg.1.1) rs ->
  ids_ok rs -> all_nocase rs -> Z.of_nat (length rs) < 2 ^ 32 ->
  SCPFACPreparePatterns fuel both (register_all rs SCPFACInitCtx)
    = Ok (r, m) ->
  state_count m < 32767 ->
  p ∈ stored_patterns (register_all rs SCPFACInitCtx) ->
  Z.of_nat (length (p_ci p)) <= buflen ->
  (forall k c, p_ci p !! k = Some c -> u8_tolower (buf (Z.of_nat k)) = c) ->
  pmq_consistent pmq -> pmq_covers m pmq ->
  p_id p ∈ pattern_id_array (SCPFACSearch m pmq buf buflen).2.
Proof.
  intros Hrs Hids Hall Hlen Hrun Hnarrow Hp Hbuflen Hbuf Hcons Hcov.
  destruct (prepared_has_goto _ _ _ _ _ Hrun) as [mg Hgoto].
  destruct (prepared_ctx fuel both rs mg r m Hrs Hlen Hgoto Hrun)
    as [(_ & _ & E)|(mf & Hf & _ & Hok & _ & _ & Hsc & _)].
  { rewrite E in Hp. by apply elem_of_nil in Hp. }
  destruct (stored_ci rs p Hrs Hp) as [Hne Hbytes].
  destruct (to_spell _ _ Hok p Hp) as (s' & Hs' & Hpath & Hpid).
  rewrite (stored_label rs p Hp) in Hpath.
  assert (narrow m = true) as Hn by (unfold narrow; by apply Z.ltb_lt).
  unfold SCPFACSearch. fold (narrow m). rewrite Hn. cbn [snd].
  assert (1 <= Z.of_nat (length (p_ci p))) as Hl1
    by (destruct (p_ci p); [done|cbn [length]; lia]).
  destruct (Z.to_nat buflen) as [|n] eqn:En; [lia|].
  cbn [search_outer_u16].
  apply (search_outer_u16_closed m (fun _ => True)
           (fun pmq' => p_id p ∈ pattern_id_array pmq')).
  { by intros row e _ _. }
  { intros pmq' pid' _. apply pmq_record_keeps. }
  apply (search_inner_u16_walk m (goto_table mg) (output_table mg)
           (state_count m) buf 0 (p_ci p)) with (s := 0) (s' := s');
    try done.
  - intros s b Hs Hb.
    destruct (compiled_cells_exact fuel both rs mg r m Hrs Hlen Hgoto
                ltac:(lia) Hrun s b Hs Hb) as (Hrng & Hland & Hbit).
    unfold scanner_table, state_mask, output_bit in Hland, Hbit.
    rewrite Hn in Hland, Hbit.
    split; [exact Hrng|]. split; [exact Hland|exact Hbit].
  - intros s Hs. by eapply nocase_rows.
  - intros s e Hs He.
    destruct (output_rows_goto rs mg s Hrs Hlen Hgoto Hs) as [_ Hsound].
    destruct (Hsound e He) as (q & Hq & <- & _).
    by apply (stored_id_range rs q Hids Hq).
  - pose proof (gf_count _ Hf). lia.
  - lia.
Qed.

(** ** Further properties of single functions *)

Lemma club_output_pid_spec dst pid :
  (forall x, x ∈ club_output_pid dst pid <-> x ∈ dst \/ x = pid) /\
  (NoDup dst -> NoDup (club_output_pid dst pid)) /\
  exists l, club_output_pid dst pid = dst ++ l.
Proof.
  unfold club_output_pid. destruct (existsb _ dst) eqn:Ex.
  - apply existsb_exists in Ex as (y & Hy & E). apply Z.eqb_eq in E as <-.
    apply list_elem_of_In in Hy.
    split; [|split; [done|exists []; by rewrite app_nil_r]].
    intros x. split; [by left|]. by intros [?| ->].
  - split; [|split; [|by exists [pid]]].
    + intros x. by rewrite elem_of_app, list_elem_of_singleton.
    + intros Hnd. apply NoDup_app. split; [exact Hnd|].
      split; [|apply NoDup_singleton].
      intros x Hx Hxp. apply list_elem_of_singleton in Hxp as ->.
      apply Bool.not_true_iff_false in Ex. apply Ex. apply existsb_exists.
      exists pid. split; [by apply list_elem_of_In|apply Z.eqb_refl].
Qed.

Lemma club_output_fold src : forall dst,
  (forall x, x ∈ fold_left club_output_pid src dst <-> x ∈ dst \/ x ∈ src) /\
  (NoDup dst -> NoDup (fold_left club_output_pid src dst)) /\
  exists l, fold_left club_output_pid src dst = dst ++ l.
Proof.
  induction src as [|pid src IH]; intros dst; cbn [fold_left].
  - split; [|split; [done|exists []; by rewrite app_nil_r]].
    intros x. split; [by left|]. intros [?|H]; [done|].
    by apply elem_of_nil in H.
  - destruct (club_output_pid_spec dst pid) as (Hm1 & Hn1 & l1 & E1).
    destruct (IH (club_output_pid dst pid)) as (Hm & Hn & l & E).
    split; [|split].
    + intros x. rewrite Hm, Hm1, elem_of_cons. tauto.
    + intros Hnd. by apply Hn, Hn1.
    + exists (l1 ++ l). by rewrite E, E1, app_assoc.
Qed.

(** X17. SCPFACClubOutputStates is a union without duplicates: for a
    destination state of the table, the destination row afterwards holds
    exactly the pids of the two rows, starts with the old destination row,
    has no repetition when that row had none, and every other row is
    unchanged. *)
Theorem SCPFACClubOutputStates_union dst_state src_state m :
  (Z.to_nat dst_state < length (output_table m))%nat ->
  let old := get [] (output_table m) dst_state in
  let new :=
    get [] (output_table (SCPFACClubOutputStates dst_state src_state m))
      dst_state in
  (forall pid, pid ∈ new <->
               pid ∈ old \/ pid ∈ get [] (output_table m) src_state) /\
  (NoDup old -> NoDup new) /\
  (exists l, new = old ++ l) /\
  forall s, Z.to_nat s <> Z.to_nat dst_state ->
    get [] (output_table (SCPFACClubOutputStates dst_state src_state m)) s
    = get [] (output_table m) s.
Proof.
  intros Hlt. cbv zeta. unfold SCPFACClubOutputStates. ctx_simpl.
  rewrite get_set_eq by exact Hlt.
  destruct (club_output_fold (get [] (output_table m) src_state)
              (get [] (output_table m) dst_state)) as (Hm & Hn & Hl).
  split; [exact Hm|]. split; [exact Hn|]. split; [exact Hl|].
  intros s Hs. apply get_set_ne. lia.
Qed.

(** X18. Recording an id sets its bit and no other: after the record
    step of SCPFACSearch for an id within the bit array, the bit of an id
    is set if and only if it was set before or it is the recorded id, and
    recording the same id again changes nothing. *)
Theorem pmq_record_sets_one_bit pmq pid i :
  0 <= pid -> 0 <= i ->
  pid / 8 < Z.of_nat (length (pattern_id_bitarray pmq)) ->
  pmq_bit_is_set (pmq_record pmq pid) i
  = pmq_bit_is_set pmq i || bool_decide (i = pid) /\
  pmq_record (pmq_record pmq pid) pid = pmq_record pmq pid.
Proof.
  intros Hpid Hi Hlen.
  assert (forall j, 0 <= j ->
            pmq_bit_is_set (pmq_record pmq pid) j
            = pmq_bit_is_set pmq j || bool_decide (j = pid)) as Hbits.
  { intros j Hj. destruct (pmq_bit_is_set pmq pid) eqn:E.
    - unfold pmq_record. rewrite E.
      destruct (decide (j = pid)) as [->|Hne].
      + by rewrite E.
      + by rewrite (bool_decide_eq_false_2 _ Hne), orb_false_r.
    - by apply pmq_record_bit. }
  split; [by apply Hbits|].
  unfold pmq_record at 1. rewrite (Hbits pid Hpid).
  by rewrite (bool_decide_eq_true_2 _ eq_refl), orb_true_r.
Qed.

(** X19. SCPFACPreparePatterns without patterns: when nothing or only
    empty patterns were registered, the function returns 0 and leaves the
    context as SCPFACInitCtx made it; no table is built. *)
Theorem prepare_without_patterns fuel both rs :
  Forall (fun reg : Registration => reg.1.1 = []) rs ->
  register_all rs SCPFACInitCtx = SCPFACInitCtx /\
  SCPFACPreparePatterns fuel both (register_all rs SCPFACInitCtx)
  = Ok (0, SCPFACInitCtx).
Proof.
  intros Hrs.
  assert (register_all rs SCPFACInitCtx = SCPFACInitCtx) as ->.
  { induction Hrs as [|reg rs Hreg _ IH]; [done|].
    cbn [register_all fold_left]. unfold register at 2. by rewrite Hreg. }
  split; [done|]. reflexivity.
Qed.

(** ** Concrete contexts *)

Lemma pmq_covers_b_sound m pmq :
  pmq_covers_b m pmq = true -> pmq_covers m pmq.
Proof.
  intros H row pid Hrow Hpid. unfold pmq_covers_b in H.
  rewrite forallb_forall in H.
  apply list_elem_of_In in Hrow. specialize (H row Hrow).
  rewrite forallb_forall in H.
  apply list_elem_of_In in Hpid. specialize (H pid Hpid).
  apply andb_true_iff in H as [H1 H2].
  apply Z.leb_le in H1. apply Z.ltb_lt in H2. by split.
Qed.

Lemma pmq_empty_consistent n : pmq_consistent (pmq_empty n).
Proof.
  split; [apply NoDup_nil; constructor|].
  intros i _. rewrite pmq_bit_is_set_testbit. cbn [pmq_empty pattern_id_array
    pattern_id_bitarray].
  assert (get 0 (replicate n 0) (i / 8) = 0) as ->.
  { unfold get. destruct (replicate n 0 !! Z.to_nat (i / 8)) as [x|] eqn:E;
      [|done].
    apply lookup_replicate in E as [-> _]. done. }
  rewrite Z.bits_0. split; [done|]. intros H. by apply elem_of_nil in H.
Qed.

(** A sink with 8192 bytes of bits has a bit for each of the 2^16 ids a
    stored 32-bit pid can be recorded under. *)
Lemma pmq_covers_full m pmq :
  (forall row pid, row ∈ output_table m -> pid ∈ row -> 0 <= pid < 2 ^ 32) ->
  8192 <= Z.of_nat (length (pattern_id_bitarray pmq)) ->
  pmq_covers m pmq.
Proof.
  intros Hpids Hlen row pid Hrow Hpid.
  specialize (Hpids row pid Hrow Hpid).
  assert (0 <= recorded_id pid < 2 ^ 16) as Hr.
  { unfold recorded_id.
    destruct (Z.land pid 0xFFFF0000 =? 0) eqn:E; cbn [negb].
    - apply Z.eqb_eq in E.
      destruct (decide (pid < 2 ^ 16)) as [|Hge]; [lia|exfalso].
      assert (Z.land pid (Z.ones 32) = pid) as Hlow
        by (apply land_ones_small; lia).
      assert (Z.land pid (Z.ones 16) = pid) as Hlow16.
      { rewrite <- Hlow at 2.
        change (Z.ones 32) with (Z.lor 0xFFFF0000 (Z.ones 16)).
        by rewrite Z.land_lor_distr_r, E, Z.lor_0_l. }
      rewrite Z.land_ones in Hlow16 by lia.
      pose proof (Z.mod_pos_bound pid (2 ^ 16)). lia.
    - change 0x0000FFFF with (Z.ones 16). rewrite Z.land_ones by lia.
      apply Z.mod_pos_bound. lia. }
  split; [lia|].
  assert (recorded_id pid / 8 < 8192); [|lia].
  apply Z.div_lt_upper_bound; lia.
Qed.

(** ** The claims at concrete inputs *)

Ltac bytes_ok := repeat (constructor; [cbn; lia|]); constructor.

(** Splits a conjunction of closed equations and evaluates each. *)
Ltac evaluate :=
  repeat match goal with |- _ /\ _ => split end; vm_compute; reflexivity.

(** C1, evaluated.  With the case-sensitive pattern "ab" (id 0) the buffer
    "xab" holds the pattern at position 1, byte for byte, and the scan
    records nothing: the verification window is taken ending at the index of
    the outer loop, where the match begins, and holds "xa".  With the
    case-insensitive patterns "ab" (id 0) and "b" (id 1) the scan of "ab"
    does not record id 1: the state is not reset when the outer loop moves
    to position 1. *)
Lemma search_misses_occurrences :
  firstn 2 (skipn 1 (bytes_of "xab")) = bytes_of "ab" /\
  search_string (compile 10 [CS "ab" 0]) "xab" = Ok (1, []) /\
  firstn 1 (skipn 1 (bytes_of "ab")) = bytes_of "b" /\
  search_string (compile 10 [CI "ab" 0; CI "b" 1]) "ab" = Ok (1, [0]).
Proof. evaluate. Qed.

(** C2, counterexample.  With the single pattern "a", state 1 is the state
    of the label "a" and its failure state is 0; the goto cell of state 1
    on the byte 'a' is FAIL, the compiled cell of state 1 is 0 and that of
    state 0 is 0x8001. *)
Lemma failure_not_absorbed :
  SCPFACPreparePatterns_goto (register_all regs_a SCPFACInitCtx) = Ok goto_a /\
  SCPFACPreparePatterns 10 false (register_all regs_a SCPFACInitCtx)
    = Ok (0, ctx_a) /\
  ~ failure_absorbed goto_a ctx_a.
Proof.
  split; [vm_compute; reflexivity|]. split; [vm_compute; reflexivity|].
  intros H. specialize (H [97] 1 97).
  assert (get2 (scanner_table ctx_a) 1 97 = 0) as H1
    by (vm_compute; reflexivity).
  assert (get2 (scanner_table ctx_a)
            (failure_of (goto_table goto_a) [97]) 97 = 32769) as H2
    by (vm_compute; reflexivity).
  rewrite H1, H2 in H.
  assert (0 = 32769) as Habs; [|discriminate].
  apply H; [vm_compute; reflexivity|lia|vm_compute; reflexivity].
Qed.

(** Witness for C2, amended: the pattern "a", state 1 and the byte 'a'. *)
Lemma fail_cells_stay_zero_witness :
  Forall (fun reg : Registration => is_bytes reg.1.1) regs_a /\
  get2 (goto_table goto_a) 1 97 = SC_PFAC_FAIL /\
  get2 (scanner_table ctx_a) 1 97 = 0.
Proof.
  assert (Forall (fun reg : Registration => is_bytes reg.1.1) regs_a) as H1
    by (constructor; [bytes_ok|constructor]).
  assert (SCPFACPreparePatterns_goto (register_all regs_a SCPFACInitCtx)
          = Ok goto_a) as H2 by (vm_compute; reflexivity).
  assert (SCPFACPreparePatterns 10 false (register_all regs_a SCPFACInitCtx)
          = Ok (0, ctx_a)) as H3 by (vm_compute; reflexivity).
  assert (get2 (goto_table goto_a) 1 97 = SC_PFAC_FAIL) as H4
    by (vm_compute; reflexivity).
  split; [exact H1|]. split; [exact H4|].
  apply (fail_cells_stay_zero 10 false regs_a goto_a 0 ctx_a H1 H2 H3 1 97);
    [vm_compute; split; [discriminate|reflexivity]|lia|exact H4].
Defined.

(** C3, evaluated.  The pattern "aA" is stored case-sensitive (its entry in
    the output row of state 2 is 0x10000, pid 0 with the verify bit) and
    the buffer is "xaAa".  After the outer loop has handled the positions 0
    and 1 nothing is recorded and the state is 0.  At position 2 the inner
    loop records nothing on the byte at index 2 and records pid 0 on the
    byte at index 3, where the match terminates; the window of length 2
    that ends there is "Aa", not "aA". *)
Lemma verification_window_not_at_match_end :
  compile 10 regs_cs = Ok ctx_cs /\
  get [] (output_table ctx_cs) 2 = [65536] /\
  pl_cs (get PatternList_zero (pid_pat_list ctx_cs) 0) = Some [97; 65] /\
  search_outer_u16 ctx_cs buf_xaAa 4 2 0 (mkSearch 0 0 (pmq_empty 16))
    = mkSearch 0 1 (pmq_empty 16) /\
  pattern_id_array
    (s_pmq (search_inner_u16 ctx_cs buf_xaAa 2 1 2
              (mkSearch 0 1 (pmq_empty 16)))) = [] /\
  pattern_id_array
    (s_pmq (search_inner_u16 ctx_cs buf_xaAa 2 2 2
              (mkSearch 0 1 (pmq_empty 16)))) = [0] /\
  [buf_xaAa 2; buf_xaAa 3] = [65; 97] /\
  search_string (compile 10 regs_cs) "xaAa" = Ok (2, [0]).
Proof. evaluate. Qed.

(** C4, evaluated.  The patterns "a" (id 0) and "A" (id 1), both
    case-insensitive, end in the same state; on the buffer "a" the match
    emits the two pids, both are recorded, and the value returned is 1.
    With the case-sensitive pattern "ONE" and the buffer "tone" (the input
    of SCPFACTest27, which expects 0) the verification fails, no pid is
    emitted, and the value returned is 1. *)
Lemma search_counts_match_states :
  compile 10 regs_aA = Ok ctx_aA /\
  get [] (output_table ctx_aA) 1 = [1; 0] /\
  search_string (compile 10 regs_aA) "a" = Ok (1, [1; 0]) /\
  search_string (compile 10 [CS "ONE" 0]) "tone" = Ok (1, []).
Proof. evaluate. Qed.

(** C5, counterexample.  After "ab" was registered with id 0, registering
    "cd" with the same id is not a no-op: the bytes fall in another bucket,
    the pattern is stored, and the compiled context has five states where
    the context of the first registration alone has three. *)
Lemma duplicate_id_in_other_bucket_is_stored :
  pattern_cnt (register_all [CS "ab" 0] SCPFACInitCtx) = 1 /\
  pattern_cnt
    (add_ctx (SCPFACAddPattern (register_all [CS "ab" 0] SCPFACInitCtx)
                (bytes_of "cd") 0 0)) = 2 /\
  add_ctx (SCPFACAddPattern (register_all [CS "ab" 0] SCPFACInitCtx)
             (bytes_of "cd") 0 0)
    <> register_all [CS "ab" 0] SCPFACInitCtx /\
  state_count (ctx_of (compile 10 [CS "ab" 0; CS "cd" 0])) = 5 /\
  state_count (ctx_of (compile 10 [CS "ab" 0])) = 3 /\
  compile 10 [CS "ab" 0; CS "cd" 0] <> compile 10 [CS "ab" 0].
Proof.
  split; [vm_compute; reflexivity|]. split; [vm_compute; reflexivity|].
  split.
  { intros H. apply (f_equal pattern_cnt) in H. vm_compute in H.
    discriminate. }
  split; [vm_compute; reflexivity|]. split; [vm_compute; reflexivity|].
  intros H. apply (f_equal (fun c => state_count (ctx_of c))) in H.
  vm_compute in H. discriminate.
Qed.

(** Witness for C5, amended: "abcd" registered twice with id 0, the second
    time case-insensitive, followed by another pattern; and "xy" registered
    with the id 0 of "abcd", whose bucket is empty. *)
Lemma register_duplicate_same_bucket_witness :
  add_ret (SCPFACAddPattern (register_all [CS "abcd" 0] SCPFACInitCtx)
             (bytes_of "abcd") 0 MPM_PATTERN_FLAG_NOCASE) = 0 /\
  add_ctx (SCPFACAddPattern (register_all [CS "abcd" 0] SCPFACInitCtx)
             (bytes_of "abcd") 0 MPM_PATTERN_FLAG_NOCASE)
    = register_all [CS "abcd" 0] SCPFACInitCtx /\
  SCPFACPreparePatterns 10 false
    (register_all ([CS "abcd" 0] ++ CI "abcd" 0 :: [CS "xyz" 1])
       SCPFACInitCtx) =
  SCPFACPreparePatterns 10 false
    (register_all ([CS "abcd" 0] ++ [CS "xyz" 1]) SCPFACInitCtx) /\
  bucket (register_all [CS "abcd" 0] SCPFACInitCtx) (bucket_of (bytes_of "xy"))
    = [] /\
  pattern_cnt
    (add_ctx (SCPFACAddPattern (register_all [CS "abcd" 0] SCPFACInitCtx)
                (bytes_of "xy") 0 0))
    = u32 (pattern_cnt (register_all [CS "abcd" 0] SCPFACInitCtx) + 1) /\
  length
    (stored_patterns
       (add_ctx (SCPFACAddPattern (register_all [CS "abcd" 0] SCPFACInitCtx)
                   (bytes_of "xy") 0 0)))
  = S (length (stored_patterns (register_all [CS "abcd" 0] SCPFACInitCtx))).
Proof.
  assert (bucket (register_all [CS "abcd" 0] SCPFACInitCtx)
            (bucket_of (bytes_of "xy")) = []) as Hempty
    by (vm_compute; reflexivity).
  destruct (register_duplicate_same_bucket [CS "abcd" 0] [CS "xyz" 1]
              (bytes_of "abcd") 0 (bytes_of "abcd") 0
              MPM_PATTERN_FLAG_NOCASE)
    as (Hret & Hctx & Hprep & Hother).
  - apply list_elem_of_here.
  - discriminate.
  - reflexivity.
  - destruct (Hother (bytes_of "xy") 0) as (_ & Hcnt & Hlen & _).
    + discriminate.
    + intros p Hp. rewrite Hempty in Hp. destruct (proj1 (elem_of_nil p) Hp).
    + split; [exact Hret|]. split; [exact Hctx|].
      split; [exact (Hprep 10%nat false)|]. split; [exact Hempty|].
      split; [exact Hcnt|exact Hlen].
Defined.

(** Witness for C6: the context of the pattern "a", state 0, byte 'a'. *)
Lemma compiled_cells_decode_witness :
  SCPFACPreparePatterns 10 false (register_all regs_a SCPFACInitCtx)
    = Ok (0, ctx_a) /\
  0 <= Z.land (get2 (scanner_table ctx_a) 0 97) (state_mask ctx_a)
    < state_count ctx_a /\
  (Z.land (get2 (scanner_table ctx_a) 0 97) (output_bit ctx_a) <> 0 <->
   get [] (output_table ctx_a)
     (Z.land (get2 (scanner_table ctx_a) 0 97) (state_mask ctx_a)) <> []).
Proof.
  assert (SCPFACPreparePatterns 10 false (register_all regs_a SCPFACInitCtx)
          = Ok (0, ctx_a)) as H by (vm_compute; reflexivity).
  split; [exact H|].
  apply (compiled_cells_decode 10 false regs_a 0 ctx_a H 0 97);
    [vm_compute; split; [discriminate|reflexivity]|lia].
Defined.

(** C7, evaluated.  The output row of the state of "a" holds pid 0 (the
    case-sensitive "A", with the verify bit) and then pid 1 (the
    case-insensitive "a").  On the buffer "a" the verification of pid 0
    fails and the loop over the row is left: pid 1 is not recorded, although
    the context of pid 1 alone records it on the same buffer. *)
Lemma failed_verification_ends_the_row :
  compile 10 regs_A_a = Ok ctx_A_a /\
  get [] (output_table ctx_A_a) 1 = [65536; 1] /\
  search_string (compile 10 regs_A_a) "a" = Ok (1, []) /\
  search_string (compile 10 [CI "a" 1]) "a" = Ok (1, [1]).
Proof. evaluate. Qed.

(** Witness for C8: the context of "a" and "A", a fresh sink of 16 bytes,
    the buffer "a", and the id 1. *)
Lemma search_sink_consistent_witness :
  pmq_consistent (pmq_empty 16) /\ pmq_covers ctx_aA (pmq_empty 16) /\
  NoDup
    (pattern_id_array
       (SCPFACSearch ctx_aA (pmq_empty 16) (buffer_at_0 (bytes_of "a")) 1).2)
  /\
  (pmq_bit_is_set
     (SCPFACSearch ctx_aA (pmq_empty 16) (buffer_at_0 (bytes_of "a")) 1).2 1
   = true <->
   1 ∈ pattern_id_array
         (SCPFACSearch ctx_aA (pmq_empty 16) (buffer_at_0 (bytes_of "a")) 1).2).
Proof.
  assert (pmq_covers ctx_aA (pmq_empty 16)) as Hcov
    by (apply pmq_covers_b_sound; vm_compute; reflexivity).
  destruct (search_sink_consistent ctx_aA (pmq_empty 16)
              (buffer_at_0 (bytes_of "a")) 1 (pmq_empty_consistent 16) Hcov)
    as [Hnd Hbits].
  split; [apply pmq_empty_consistent|]. split; [exact Hcov|].
  split; [exact Hnd|]. apply Hbits. lia.
Defined.

(** C10, evaluated.  The pattern "xyy" is case-insensitive (its entry in the
    output row of state 3 is the bare pid 0, without the verify bit) and
    the buffer "xy" is shorter than the pattern; the scan records pid 0.
    The state reached on "xy" from position 0 is kept when the outer loop
    moves to position 1, and the byte 'y' read again completes the
    pattern. *)
Lemma search_reports_absent_pattern :
  compile 10 regs_xyy = Ok ctx_xyy /\
  get [] (output_table ctx_xyy) 3 = [0] /\
  map u8_tolower (bytes_of "xy") = bytes_of "xy" /\
  search_string (compile 10 regs_xyy) "xy" = Ok (1, [0]).
Proof. evaluate. Qed.

(** ** The unit tests of the file *)

(** The value SCPFACSearch returns on the inputs of the unit tests 01 to 06,
    08, 09, 21, 22 and 24 to 26 is the value the test expects. *)
Lemma unit_tests_expected_counts :
  fst <$> search_string (compile 40 [CS "abcd" 0]) alphabet_jik = Ok 1 /\
  fst <$> search_string (compile 40 [CS "abce" 0]) alphabet_jik = Ok 0 /\
  fst <$> search_string (compile 40 [CS "abcd" 0; CS "bcde" 1; CS "fghj" 2])
            alphabet_jik = Ok 3 /\
  fst <$> search_string
            (compile 40 [CS "abcd" 0; CS "bcdegh" 1; CS "fghjxyz" 2])
            alphabet_jik = Ok 1 /\
  fst <$> search_string
            (compile 40 [CI "ABCD" 0; CI "bCdEfG" 1; CI "fghJikl" 2])
            alphabet_jik = Ok 3 /\
  fst <$> search_string (compile 40 [CS "abcd" 0]) "abcd" = Ok 1 /\
  fst <$> search_string (compile 40 [CS "abcd" 0]) "a" = Ok 0 /\
  fst <$> search_string (compile 40 [CS "ab" 0]) "ab" = Ok 1 /\
  fst <$> search_string (compile 40 [CS "AA" 0]) "AA" = Ok 1 /\
  fst <$> search_string (compile 40 [CS "abcd" 0; CS "abcde" 1]) alphabet
    = Ok 2 /\
  fst <$> search_string (compile 40 [CI "AA" 0]) "aa" = Ok 1 /\
  fst <$> search_string
            (compile 40 [CI "ABCD" 0; CI "bCdEfG" 1; CI "fghiJkl" 2])
            "ABCDEFGHIJKLMNOPQRSTUVWXYZ" = Ok 3 /\
  fst <$> search_string (compile 40 [CI "Works" 0; CS "Works" 1]) "works"
    = Ok 1.
Proof. evaluate. Qed.

(** The value SCPFACSearch returns on the inputs of the unit tests 07, 11
    (buffer "she"), 12, 19, 23, 27 and 28, which expect 135, 2, 2, 1, 0, 0
    and 0. *)
Lemma unit_tests_other_counts :
  fst <$> search_string (compile 40 regs_test07) thirty_A = Ok 65 /\
  fst <$> search_string (compile 40 regs_test11) "she" = Ok 1 /\
  fst <$> search_string (compile 40 [CS "wxyz" 0; CS "vwxyz" 1]) alphabet
    = Ok 1 /\
  fst <$> search_string (compile 40 [CS thirty_A 0]) thirty_A = Ok 10 /\
  fst <$> search_string (compile 40 [CS "AA" 0]) "aa" = Ok 1 /\
  fst <$> search_string (compile 40 [CS "ONE" 0]) "tone" = Ok 1 /\
  fst <$> search_string (compile 40 [CS "one" 0]) "tONE" = Ok 1.
Proof. evaluate. Qed.

(** ** The further properties at concrete inputs *)

Lemma regs_a_bytes :
  Forall (fun reg : Registration => is_bytes reg.1.1) regs_a.
Proof. constructor; [bytes_ok|constructor]. Qed.

Lemma regs_a_ids : ids_ok regs_a.
Proof. constructor; [cbn; lia|constructor]. Qed.

Lemma regs_a_length : Z.of_nat (length regs_a) < 2 ^ 32.
Proof. vm_compute. reflexivity. Qed.

Lemma regs_a_goto :
  SCPFACPreparePatterns_goto (register_all regs_a SCPFACInitCtx) = Ok goto_a.
Proof. vm_compute. reflexivity. Qed.

Lemma regs_a_compiled :
  SCPFACPreparePatterns 10 false (register_all regs_a SCPFACInitCtx)
  = Ok (0, ctx_a).
Proof. vm_compute. reflexivity. Qed.

Lemma pat_a_stored :
  pat_a ∈ stored_patterns (register_all regs_a SCPFACInitCtx).
Proof.
  assert (stored_patterns (register_all regs_a SCPFACInitCtx) = [pat_a])
    as -> by (vm_compute; reflexivity).
  apply list_elem_of_here.
Qed.

Lemma lookup_after_register_witness :
  hash_allocated SCPFACInitCtx /\ bytes_of "ab" <> [] /\
  exists t,
    SCPFACInitHashLookup
      (add_ctx (SCPFACAddPattern SCPFACInitCtx (bytes_of "ab") 7 0))
      (bytes_of "ab") (Z.of_nat (length (bytes_of "ab"))) 0 7 = Some t /\
    p_id t = 7 /\
    (SCPFACInitHashLookup SCPFACInitCtx (bytes_of "ab")
       (Z.of_nat (length (bytes_of "ab"))) 0 7 = None ->
     t = pattern_of (bytes_of "ab") 7 0).
Proof.
  assert (hash_allocated SCPFACInitCtx) as H1
    by exact (sc_hash _ SCPFACInitCtx_counts).
  assert (bytes_of "ab" <> []) as H2 by (vm_compute; discriminate).
  split; [exact H1|]. split; [exact H2|].
  exact (lookup_after_register SCPFACInitCtx (bytes_of "ab") 7 0 H1 H2).
Defined.

Lemma pattern_cnt_counts_stored_witness :
  pattern_cnt (register_all regs_aA SCPFACInitCtx) = 2 /\
  pattern_cnt (register_all regs_aA SCPFACInitCtx)
  = Z.of_nat (length (stored_patterns (register_all regs_aA SCPFACInitCtx)))
  /\
  (length (stored_patterns (register_all regs_aA SCPFACInitCtx))
   <= length regs_aA)%nat /\
  exists h, init_hash (register_all regs_aA SCPFACInitCtx) = Some h /\
    patterns
      (SCPFACPreparePatterns_setup (register_all regs_aA SCPFACInitCtx) h)
    = concat h.
Proof.
  assert (Z.of_nat (length regs_aA) < 2 ^ 32) as H
    by (vm_compute; reflexivity).
  split; [vm_compute; reflexivity|].
  exact (pattern_cnt_counts_stored regs_aA H).
Defined.

Lemma stored_patterns_within_bounds_witness :
  pat_a ∈ stored_patterns (register_all regs_a SCPFACInitCtx) /\
  1 <= minlen (register_all regs_a SCPFACInitCtx) <= p_len pat_a /\
  p_len pat_a <= maxlen (register_all regs_a SCPFACInitCtx) /\
  p_id pat_a <= max_pat_id (register_all regs_a SCPFACInitCtx).
Proof.
  split; [exact pat_a_stored|].
  exact (stored_patterns_within_bounds regs_a pat_a pat_a_stored).
Defined.

Lemma stored_patterns_shape_witness :
  pat_a ∈ stored_patterns (register_all regs_a SCPFACInitCtx) /\
  p_original_pat pat_a <> [] /\
  p_len pat_a = Z.of_nat (length (p_original_pat pat_a)) /\
  p_ci pat_a = memcpy_tolower (p_original_pat pat_a) /\
  p_cs pat_a = (if Z.land (p_flags pat_a) MPM_PATTERN_FLAG_NOCASE =? 0
                then p_original_pat pat_a else p_ci pat_a) /\
  pat_a ∈ bucket (register_all regs_a SCPFACInitCtx)
            (SCPFACInitHashRaw (p_original_pat pat_a) (p_len pat_a)).
Proof.
  split; [exact pat_a_stored|].
  exact (stored_patterns_shape regs_a pat_a pat_a_stored).
Defined.

Lemma stored_patterns_are_registrations_witness :
  NoDup (map (fun r : Registration => r.1.2) regs_aA) /\
  (pat_a ∈ stored_patterns (register_all regs_aA SCPFACInitCtx) <->
   exists pat pid flags,
     (pat, pid, flags) ∈ regs_aA /\ pat <> [] /\
     pat_a = pattern_of pat pid flags).
Proof.
  assert (NoDup (map (fun r : Registration => r.1.2) regs_aA)) as H.
  { cbn. apply NoDup_cons. split; [|apply NoDup_singleton].
    intros Hin. apply list_elem_of_singleton in Hin. discriminate. }
  split; [exact H|].
  exact (stored_patterns_are_registrations regs_aA pat_a H).
Defined.

Lemma goto_table_spells_patterns_witness :
  pat_a ∈ stored_patterns (register_all regs_a SCPFACInitCtx) /\
  exists s, 0 <= s < state_count goto_a /\
    trie_state (goto_table goto_a) 0 (p_ci pat_a) = Some s /\
    p_id pat_a ∈ get [] (output_table goto_a) s.
Proof.
  split; [exact pat_a_stored|].
  exact (goto_table_spells_patterns regs_a goto_a pat_a regs_a_bytes
           regs_a_length regs_a_goto pat_a_stored).
Defined.

Lemma output_rows_name_patterns_witness :
  SCPFACPreparePatterns_goto (register_all regs_a SCPFACInitCtx) = Ok goto_a /\
  NoDup (get [] (output_table goto_a) 1) /\
  forall pid, pid ∈ get [] (output_table goto_a) 1 ->
    exists p, p ∈ stored_patterns (register_all regs_a SCPFACInitCtx) /\
      p_id p = pid /\ trie_state (goto_table goto_a) 0 (p_ci p) = Some 1.
Proof.
  split; [exact regs_a_goto|].
  apply (output_rows_name_patterns regs_a goto_a 1 regs_a_bytes
           regs_a_length regs_a_goto).
  lia.
Defined.

Lemma goto_table_is_a_tree_witness :
  SCPFACPreparePatterns_goto (register_all regs_a SCPFACInitCtx) = Ok goto_a /\
  (forall n, 1 <= n < state_count goto_a ->
     exists w, is_bytes w /\ trie_state (goto_table goto_a) 0 w = Some n) /\
  (forall w1 w2 s, is_bytes w1 -> is_bytes w2 ->
     trie_state (goto_table goto_a) 0 w1 = Some s ->
     trie_state (goto_table goto_a) 0 w2 = Some s -> w1 = w2).
Proof.
  split; [exact regs_a_goto|].
  exact (goto_table_is_a_tree regs_a goto_a regs_a_bytes regs_a_length
           regs_a_goto).
Defined.


Lemma SCPFACPreparePatterns_compiles_witness :
  state_count goto_a <= 65535 /\
  exists fuel0, forall fuel, (fuel0 <= fuel)%nat ->
    exists m,
      SCPFACPreparePatterns fuel false (register_all regs_a SCPFACInitCtx)
      = Ok (0, m).
Proof.
  assert (state_count goto_a <= 65535) as H by (vm_compute; discriminate).
  split; [exact H|].
  exact (SCPFACPreparePatterns_compiles false regs_a goto_a regs_a_goto H).
Defined.

Lemma compiled_table_copies_goto_witness :
  state_count goto_a <= 65535 /\
  forall s b, 0 <= s < state_count ctx_a -> 0 <= b < 256 ->
    Z.land (get2 (scanner_table ctx_a) s b) (state_mask ctx_a) =
      if get2 (goto_table goto_a) s b =? SC_PFAC_FAIL then 0
      else get2 (goto_table goto_a) s b.
Proof.
  assert (state_count goto_a <= 65535) as H by (vm_compute; discriminate).
  split; [exact H|].
  exact (compiled_table_copies_goto 10 false regs_a goto_a 0 ctx_a
           regs_a_bytes regs_a_length regs_a_goto H regs_a_compiled).
Defined.

Lemma compiled_output_rows_witness :
  0 ∈ get [] (output_table ctx_a) 1 /\
  exists p, p ∈ stored_patterns (register_all regs_a SCPFACInitCtx) /\
    recorded_id 0 = p_id p /\
    trie_state (goto_table goto_a) 0 (p_ci p) = Some 1 /\
    (Z.land 0 0xFFFF0000 <> 0 <->
     exists q, q ∈ stored_patterns (register_all regs_a SCPFACInitCtx) /\
       Z.land (p_flags q) MPM_PATTERN_FLAG_NOCASE = 0 /\ p_id q = p_id p).
Proof.
  assert (0 ∈ get [] (output_table ctx_a) 1) as H.
  { assert (get [] (output_table ctx_a) 1 = [0]) as ->
      by (vm_compute; reflexivity).
    apply list_elem_of_here. }
  split; [exact H|].
  apply (compiled_output_rows 10 false regs_a goto_a 0 ctx_a 1 0 regs_a_bytes
           regs_a_ids regs_a_length regs_a_goto regs_a_compiled);
    [lia|exact H].
Defined.

Lemma search_records_registered_ids_witness :
  0 ∈ pattern_id_array
        (SCPFACSearch ctx_a (pmq_empty 16) (buffer_at_0 (bytes_of "xA")) 2).2
  /\
  (0 ∈ pattern_id_array (pmq_empty 16) \/
   exists pat flags, (pat, 0, flags) ∈ regs_a /\ pat <> []).
Proof.
  assert (0 ∈ pattern_id_array
            (SCPFACSearch ctx_a (pmq_empty 16)
               (buffer_at_0 (bytes_of "xA")) 2).2) as H.
  { assert (pattern_id_array
              (SCPFACSearch ctx_a (pmq_empty 16)
                 (buffer_at_0 (bytes_of "xA")) 2).2 = [0]) as ->
      by (vm_compute; reflexivity).
    apply list_elem_of_here. }
  split; [exact H|].
  exact (search_records_registered_ids 10 false regs_a 0 ctx_a (pmq_empty 16)
           (buffer_at_0 (bytes_of "xA")) 2 0 regs_a_bytes regs_a_ids
           regs_a_length regs_a_compiled H).
Defined.

Lemma search_finds_leading_pattern_witness :
  all_nocase regs_a /\ state_count ctx_a < 32767 /\
  pmq_covers ctx_a (pmq_empty 16) /\
  (forall k c, p_ci pat_a !! k = Some c ->
     u8_tolower (buffer_at_0 (bytes_of "Ab") (Z.of_nat k)) = c) /\
  p_id pat_a ∈
    pattern_id_array
      (SCPFACSearch ctx_a (pmq_empty 16) (buffer_at_0 (bytes_of "Ab")) 2).2.
Proof.
  assert (all_nocase regs_a) as H1
    by (constructor; [vm_compute; discriminate|constructor]).
  assert (state_count ctx_a < 32767) as H2 by (vm_compute; reflexivity).
  assert (pmq_covers ctx_a (pmq_empty 16)) as H3
    by (apply pmq_covers_b_sound; vm_compute; reflexivity).
  assert (forall k c, p_ci pat_a !! k = Some c ->
            u8_tolower (buffer_at_0 (bytes_of "Ab") (Z.of_nat k)) = c) as H4.
  { intros [|k] c E; [|destruct k; discriminate E].
    injection E as <-. vm_compute. reflexivity. }
  assert (Z.of_nat (length (p_ci pat_a)) <= 2) as H5
    by (vm_compute; discriminate).
  do 3 (split; [assumption|]). split; [exact H4|].
  exact (search_finds_leading_pattern 10 false regs_a 0 ctx_a pat_a
           (pmq_empty 16) (buffer_at_0 (bytes_of "Ab")) 2 regs_a_bytes
           regs_a_ids H1 regs_a_length regs_a_compiled H2 pat_a_stored H5 H4
           (pmq_empty_consistent 16) H3).
Defined.

Lemma SCPFACClubOutputStates_union_witness :
  (Z.to_nat 0 < length (output_table ctx_aA))%nat /\
  get [] (output_table (SCPFACClubOutputStates 0 1 ctx_aA)) 0 = [1; 0] /\
  let old := get [] (output_table ctx_aA) 0 in
  let new := get [] (output_table (SCPFACClubOutputStates 0 1 ctx_aA)) 0 in
  (forall pid, pid ∈ new <->
               pid ∈ old \/ pid ∈ get [] (output_table ctx_aA) 1) /\
  (NoDup old -> NoDup new) /\
  (exists l, new = old ++ l) /\
  forall s, Z.to_nat s <> Z.to_nat 0 ->
    get [] (output_table (SCPFACClubOutputStates 0 1 ctx_aA)) s
    = get [] (output_table ctx_aA) s.
Proof.
  assert (Z.to_nat 0 < length (output_table ctx_aA))%nat as H
    by (vm_compute; lia).
  split; [exact H|]. split; [vm_compute; reflexivity|].
  exact (SCPFACClubOutputStates_union 0 1 ctx_aA H).
Defined.

Lemma pmq_record_sets_one_bit_witness :
  3 / 8 < Z.of_nat (length (pattern_id_bitarray (pmq_empty 16))) /\
  pmq_bit_is_set (pmq_record (pmq_empty 16) 3) 3
  = pmq_bit_is_set (pmq_empty 16) 3 || bool_decide (3 = 3) /\
  pmq_record (pmq_record (pmq_empty 16) 3) 3 = pmq_record (pmq_empty 16) 3.
Proof.
  assert (3 / 8 < Z.of_nat (length (pattern_id_bitarray (pmq_empty 16))))
    as H by (vm_compute; reflexivity).
  split; [exact H|].
  apply (pmq_record_sets_one_bit (pmq_empty 16) 3 3); [lia|lia|exact H].
Defined.

Lemma prepare_without_patterns_witness :
  Forall (fun reg : Registration => reg.1.1 = []) regs_empty /\
  register_all regs_empty SCPFACInitCtx = SCPFACInitCtx /\
  SCPFACPreparePatterns 0 true (register_all regs_empty SCPFACInitCtx)
  = Ok (0, SCPFACInitCtx).
Proof.
  assert (Forall (fun reg : Registration => reg.1.1 = [])
            regs_empty) as H
    by (repeat (constructor; [reflexivity|]); constructor).
  split; [exact H|].
  exact (prepare_without_patterns 0 true regs_empty H).
Defined.

